(** * Currency API: converter, cross-rate calculator and resilient rate provider

    A shallow embedding of the Go sources

    - [internal/domain/entities/currency.go]      (registry, rounding),
    - [internal/app/queries/exchange_query.go]    (converter),
    - [internal/app/queries/rates_query.go]       (cross-rate calculator),
    - [internal/infrastructure/repositories/rates_repository_impl.go]
                                                  (mock and resilient provider),
    - [internal/infrastructure/config/config.go]  (environment and validation),
    - [internal/app/handlers/rates_handler.go] and [exchange_handler.go]
                                                  (HTTP handlers),
    - [internal/transport/http/server.go]         (wiring),
    - [go-common/logger]                          (levels of the logger),

    together with the two imported libraries whose behaviour the code relies
    on: [github.com/shopspring/decimal] (exact decimals) and
    [github.com/sony/gobreaker] (the circuit breaker).  The library functions
    are transcribed from the libraries' own sources; every one of them is
    marked as such in its comment.

    Conventions.  A Go function that returns [(T, error)] is a function into
    [outcome E T]; a run-time panic is the third alternative.  Go strings are
    [string]s of 8-bit characters.  [strings.ToUpper], [strings.ToLower] and
    [strings.TrimSpace] are embedded on the branch they take for a text
    without a byte above 127, the condition [isASCII]: on other text Go maps
    the letters and trims the white space of Unicode, which these functions
    do not.  A statement that applies them to a text of the client therefore
    assumes [isASCII] of it, unless the text is known to be a code of one of
    the tables, which are ASCII.  [strings.Split] works on bytes and is
    embedded for a separator of one byte.  A [float64] that
    reaches [decimal.NewFromFloat] is represented by the shortest decimal that
    round-trips to it, which is what that function returns.  The clock and the
    HTTP exchange are inputs of the functions that use them.  Writing a log
    line has no effect on results and is left out; reading the breaker's state
    for a log line has one and is kept. *)

From Stdlib Require Import ZArith QArith Qabs Qround Qpower Lia Lqa Ascii String.
From stdpp Require Import gmap strings list.

Local Open Scope string_scope.
Local Open Scope Z_scope.

(* ===================================================================== *)
(** ** Outcomes of Go calls                                               *)
(* ===================================================================== *)

Inductive outcome (E A : Type) : Type :=
| Return (a : A)
| Fail (e : E)
| Panic (msg : string).
Arguments Return {E A} a.
Arguments Fail {E A} e.
Arguments Panic {E A} msg.

Definition obind {E A B} (m : outcome E A) (k : A -> outcome E B) : outcome E B :=
  match m with
  | Return a => k a
  | Fail e => Fail e
  | Panic msg => Panic msg
  end.

Notation "x <-! m ;; k" := (obind m (fun x => k))
  (at level 100, m at next level, right associativity).

(* ===================================================================== *)
(** ** Machine integers                                                   *)
(* ===================================================================== *)

Module Int.

Definition MinInt32 : Z := - 2 ^ 31.
Definition MaxInt32 : Z := 2 ^ 31 - 1.

Definition in_int32 (z : Z) : bool := (MinInt32 <=? z) && (z <=? MaxInt32).

(** Two's-complement wrap-around of [int32] arithmetic. *)
Definition wrap32 (z : Z) : Z := (z + 2 ^ 31) mod 2 ^ 32 - 2 ^ 31.

(** Wrap-around of [uint32] and [uint64] counters. *)
Definition wrapu32 (z : Z) : Z := z mod 2 ^ 32.
Definition wrapu64 (z : Z) : Z := z mod 2 ^ 64.

End Int.

(* ===================================================================== *)
(** ** Package [strings] (ASCII paths)                                    *)
(* ===================================================================== *)

Module Strings.

Definition byte_of (c : ascii) : Z := Z.of_nat (nat_of_ascii c).

(** [c < utf8.RuneSelf] for every byte of the string. *)
Fixpoint isASCII (s : string) : bool :=
  match s with
  | EmptyString => true
  | String c s' => (byte_of c <? 128) && isASCII s'
  end.

Definition is_lower (c : ascii) : bool := (97 <=? byte_of c) && (byte_of c <=? 122).

(** [c -= 'a' - 'A'] on lower-case letters: the loop of [ToUpper] for a
    text with [isASCII]. *)
Definition upper_byte (c : ascii) : ascii :=
  if is_lower c then ascii_of_nat (nat_of_ascii c - 32) else c.

(** [strings.ToUpper] on a text with [isASCII]; on other text Go returns
    [Map(unicode.ToUpper, s)], which is not embedded. *)
Fixpoint ToUpper (s : string) : string :=
  match s with
  | EmptyString => EmptyString
  | String c s' => String (upper_byte c) (ToUpper s')
  end.

(** The table [asciiSpace]: tab, newline, vertical tab, form feed,
    carriage return and space. *)
Definition asciiSpace (c : ascii) : bool :=
  let b := byte_of c in
  (b =? 9) || (b =? 10) || (b =? 11) || (b =? 12) || (b =? 13) || (b =? 32).

(** First loop of [TrimSpace]: advance [start] over leading spaces. *)
Fixpoint trim_start (s : string) : string :=
  match s with
  | EmptyString => EmptyString
  | String c s' => if asciiSpace c then trim_start s' else s
  end.

(** Second loop of [TrimSpace]: move [stop] back over trailing spaces. *)
Fixpoint trim_stop (s : string) : string :=
  match s with
  | EmptyString => EmptyString
  | String c s' =>
      match trim_stop s' with
      | EmptyString => if asciiSpace c then EmptyString else String c EmptyString
      | r => String c r
      end
  end.

(** [strings.TrimSpace] on a text with [isASCII]; when a loop meets a byte
    above 127 Go goes on with [unicode.IsSpace], which is not embedded. *)
Definition TrimSpace (s : string) : string := trim_stop (trim_start s).

Definition is_digit (c : ascii) : bool := (48 <=? byte_of c) && (byte_of c <=? 57).

(** [strings.IndexAny(s, "Ee")], split at the first match: the text before
    it and the text after it. *)
Fixpoint cut_exponent (s : string) : string * option string :=
  match s with
  | EmptyString => (EmptyString, None)
  | String c s' =>
      if (byte_of c =? 69) || (byte_of c =? 101) then (EmptyString, Some s')
      else let '(m, e) := cut_exponent s' in (String c m, e)
  end.

(** The text before the first ['.'] and, when there is one, the text after. *)
Fixpoint cut_point (s : string) : string * option string :=
  match s with
  | EmptyString => (EmptyString, None)
  | String c s' =>
      if byte_of c =? 46 then (EmptyString, Some s')
      else let '(m, e) := cut_point s' in (String c m, e)
  end.

Fixpoint has_point (s : string) : bool :=
  match s with
  | EmptyString => false
  | String c s' => (byte_of c =? 46) || has_point s'
  end.

Definition is_upper (c : ascii) : bool := (65 <=? byte_of c) && (byte_of c <=? 90).

(** [c += 'a' - 'A'] on upper-case letters. *)
Definition lower_byte (c : ascii) : ascii :=
  if is_upper c then ascii_of_nat (nat_of_ascii c + 32) else c.

(** [strings.ToLower] on a text with [isASCII]; on other text Go returns
    [Map(unicode.ToLower, s)], which is not embedded. *)
Fixpoint ToLower (s : string) : string :=
  match s with
  | EmptyString => EmptyString
  | String c s' => String (lower_byte c) (ToLower s')
  end.

(** [strings.Index(s, sep)] for a separator of one byte; [None] is -1. *)
Fixpoint IndexByte (s : string) (sep : ascii) : option nat :=
  match s with
  | EmptyString => None
  | String c s' => if Ascii.eqb c sep then Some 0%nat else S <$> IndexByte s' sep
  end.

(** [strings.Count(s, sep)] for a separator of one byte. *)
Fixpoint Count (s : string) (sep : ascii) : nat :=
  match s with
  | EmptyString => 0%nat
  | String c s' => if Ascii.eqb c sep then S (Count s' sep) else Count s' sep
  end.

(** The loop of [genSplit] with [sepSave = 0]: [n] is the number of cuts
    still allowed; a cut stores [s[:m]] and goes on with [s[m+1:]], and the
    rest of the text is the last field. *)
Fixpoint split_loop (n : nat) (s : string) (sep : ascii) : list string :=
  match n with
  | O => [s]
  | S n' =>
      match IndexByte s sep with
      | None => [s]
      | Some m =>
          substring 0 m s
            :: split_loop n' (substring (m + 1) (String.length s - (m + 1)) s) sep
      end
  end.

(** [strings.Split(s, sep)] for a separator of one byte:
    [genSplit(s, sep, 0, -1)], which allows [Count(s, sep)] cuts. *)
Definition Split (s : string) (sep : ascii) : list string :=
  split_loop (Count s sep) s sep.

End Strings.

(* ===================================================================== *)
(** ** Package [strconv] and [big.Int.SetString], base 10                 *)
(* ===================================================================== *)

Module Strconv.
Import Strings.

Inductive NumError : Type := ErrSyntax | ErrRange.

(** The loop of [ParseUint] in base 10, where underscores are not accepted:
    [n] is the value read so far, [maxVal] is [1<<bitSize - 1].  A value out
    of range ends the scan at once, before the rest is looked at. *)
Fixpoint parse_uint_loop (maxVal n : Z) (s : string) : NumError + Z :=
  match s with
  | EmptyString => inr n
  | String c s' =>
      if is_digit c then
        let d := byte_of c - 48 in
        if (2 ^ 64 - 1) / 10 + 1 <=? n then inl ErrRange
        else
          let n1 := n * 10 + d in
          if (2 ^ 64 <=? n1) || (maxVal <? n1) then inl ErrRange
          else parse_uint_loop maxVal n1 s'
      else inl ErrSyntax
  end.

Definition ParseUint (s : string) (bitSize : Z) : NumError + Z :=
  match s with
  | EmptyString => inl ErrSyntax
  | _ => parse_uint_loop (2 ^ bitSize - 1) 0 s
  end.

(** [strconv.ParseInt(s, 10, bitSize)] *)
Definition ParseInt (s : string) (bitSize : Z) : NumError + Z :=
  match s with
  | EmptyString => inl ErrSyntax
  | String c s' =>
      let '(neg, s1) :=
        if byte_of c =? 43 then (false, s')
        else if byte_of c =? 45 then (true, s')
        else (false, s) in
      match ParseUint s1 bitSize with
      | inl err => inl err
      | inr un =>
          let cutoff := 2 ^ (bitSize - 1) in
          if negb neg && (cutoff <=? un) then inl ErrRange
          else if neg && (cutoff <? un) then inl ErrRange
          else inr (if neg then - un else un)
      end
  end.

(** Digits only, most significant first; [acc] is the value read so far. *)
Fixpoint parse_digits (acc : Z) (s : string) : option Z :=
  match s with
  | EmptyString => Some acc
  | String c s' =>
      if is_digit c then parse_digits (10 * acc + (byte_of c - 48)) s' else None
  end.

(** [big.Int]'s [SetString(s, 10)]: an optional sign, then at least one
    digit and nothing else. *)
Definition SetString (s : string) : option Z :=
  match s with
  | EmptyString => None
  | String c s' =>
      let '(neg, s1) :=
        if byte_of c =? 43 then (false, s')
        else if byte_of c =? 45 then (true, s')
        else (false, s) in
      match s1 with
      | EmptyString => None
      | _ => (fun v => if neg then - v else v) <$> parse_digits 0 s1
      end
  end.

(** The loop of the fast path of [Atoi]: [ch -= '0'] on a byte, and a
    syntax error if the result is above 9. *)
Fixpoint atoi_loop (n : Z) (s : string) : option Z :=
  match s with
  | EmptyString => Some n
  | String ch s' =>
      let ch' := (byte_of ch - 48) mod 256 in
      if 9 <? ch' then None else atoi_loop (n * 10 + ch') s'
  end.

(** [strconv.Atoi] where [int] has 64 bits: the fast path for texts of 1 to
    18 bytes, [ParseInt(s, 10, 0)] for the others. *)
Definition Atoi (s : string) : NumError + Z :=
  let sLen := String.length s in
  if (0 <? sLen)%nat && (sLen <? 19)%nat then
    match s with
    | EmptyString => inl ErrSyntax
    | String c0 rest =>
        let signed := (byte_of c0 =? 45) || (byte_of c0 =? 43) in
        let s1 := if signed then rest else s in
        if signed && (String.length s1 <? 1)%nat then inl ErrSyntax
        else
          match atoi_loop 0 s1 with
          | None => inl ErrSyntax
          | Some n => inr (if byte_of c0 =? 45 then - n else n)
          end
    end
  else ParseInt s 64.

End Strconv.

(* ===================================================================== *)
(** ** Library [github.com/shopspring/decimal]                            *)
(* ===================================================================== *)

(** Transcribed from the library's [decimal.go]: a [Decimal] is
    [value * 10 ^ exp] with [value] a [big.Int] and [exp] an [int32]. *)
Module decimal.
Import Int Strings Strconv.

Record Decimal : Type := mkDecimal { value : Z; exp : Z }.

Inductive error : Type :=
| ErrExponentNotNumeric
| ErrFractionalPartTooLong
| ErrTooManyDots
| ErrCantConvert.

(** [var DivisionPrecision = 16]: the number of decimal places in the result
    of [Div] when the quotient is not exact. *)
Definition DivisionPrecision : Z := 16.

Definition New (v e : Z) : Decimal := mkDecimal v e.

(** [var Zero = New(0, 1)] *)
Definition Zero : Decimal := New 0 1.

(** A finite [float64], given by the shortest decimal that round-trips to
    it: [f_digits * 10 ^ f_exp]. *)
Record float64 : Type := mkFloat { f_digits : Z; f_exp : Z }.

(** Every finite [float64] has at most 17 shortest digits and a decimal
    exponent far inside this bound. *)
Definition float64_wf (f : float64) : bool :=
  (Z.abs (f_digits f) <? 10 ^ 17) && (Z.abs (f_exp f) <=? 400).

(** The Go comparison [f == 0]. *)
Definition float_is_zero (f : float64) : bool := f_digits f =? 0.

(** [NewFromFloat]: [New(0, 0)] for zero, else the shortest round-tripping
    digits with exponent [dp - nd]. *)
Definition NewFromFloat (f : float64) : Decimal :=
  if float_is_zero f then New 0 0 else mkDecimal (f_digits f) (f_exp f).

(** The digits of the mantissa, once the exponent and the point are gone:
    [strconv.ParseInt] for up to 18 characters, [big.Int.SetString] beyond;
    then the range check on the exponent. *)
Definition parse_mantissa (intString : string) (e : Z) : outcome error Decimal :=
  let dValue :=
    if (String.length intString <=? 18)%nat then
      match ParseInt intString 64 with
      | inr parsed64 => Some parsed64
      | inl _ => None
      end
    else SetString intString in
  match dValue with
  | None => Fail ErrCantConvert
  | Some v =>
      if in_int32 e then Return (mkDecimal v e)
      else Fail ErrFractionalPartTooLong
  end.

Definition NewFromString (s : string) : outcome error Decimal :=
  let '(mant, etxt) := cut_exponent s in
  e0 <-! match etxt with
         | None => Return 0
         | Some t =>
             match ParseInt t 32 with
             | inl ErrRange => Fail ErrFractionalPartTooLong
             | inl ErrSyntax => Fail ErrExponentNotNumeric
             | inr expInt => Return expInt
             end
         end ;;
  match cut_point mant with
  | (_, None) => parse_mantissa mant e0
  | (ip, Some fp) =>
      if has_point fp then Fail ErrTooManyDots
      else parse_mantissa (ip ++ fp) (e0 - Z.of_nat (String.length fp))
  end.

Definition rescale (d : Decimal) (e : Z) : Decimal :=
  if exp d =? e then d
  else
    let diff := Z.abs (e - exp d) in
    let expScale := 10 ^ diff in
    if exp d <? e then mkDecimal (Z.quot (value d) expScale) e
    else mkDecimal (value d * expScale) e.

Definition RescalePair (d1 d2 : Decimal) : Decimal * Decimal :=
  if exp d1 <? exp d2 then (d1, rescale d2 (exp d1))
  else if exp d2 <? exp d1 then (rescale d1 (exp d2), d2)
  else (d1, d2).

Definition Abs (d : Decimal) : Decimal :=
  if value d <? 0 then mkDecimal (Z.abs (value d)) (exp d) else d.

Definition Add (d d2 : Decimal) : Decimal :=
  let '(rd, rd2) := RescalePair d d2 in
  mkDecimal (value rd + value rd2) (exp rd).

Definition Sub (d d2 : Decimal) : Decimal :=
  let '(rd, rd2) := RescalePair d d2 in
  mkDecimal (value rd - value rd2) (exp rd).

(** [Cmp]: -1, 0 or +1. *)
Definition Cmp (d d2 : Decimal) : Z :=
  let '(rd, rd2) := RescalePair d d2 in
  match value rd ?= value rd2 with
  | Lt => -1
  | Eq => 0
  | Gt => 1
  end.

Definition Equal (d d2 : Decimal) : bool := Cmp d d2 =? 0.
Definition GreaterThan (d d2 : Decimal) : bool := Cmp d d2 =? 1.
Definition LessThanOrEqual (d d2 : Decimal) : bool :=
  let cmp := Cmp d d2 in (cmp =? -1) || (cmp =? 0).

Definition Mul {E} (d d2 : Decimal) : outcome E Decimal :=
  let expInt64 := exp d + exp d2 in
  if in_int32 expInt64 then Return (mkDecimal (value d * value d2) expInt64)
  else Panic "exponent overflows an int32!".

(** [QuoRem]: quotient truncated at [precision] decimal places, and the
    remainder.  [big.Int.QuoRem] is truncated division. *)
Definition QuoRem {E} (d d2 : Decimal) (precision : Z) : outcome E (Decimal * Decimal) :=
  if value d2 =? 0 then Panic "decimal division by 0"
  else
    let scale := wrap32 (- precision) in
    let e := exp d - exp d2 - scale in
    if negb (in_int32 e) then Panic "overflow in decimal QuoRem"
    else
      let '(aa, bb, scalerest) :=
        if e <? 0 then (value d, value d2 * 10 ^ (- e), exp d)
        else (value d * 10 ^ e, value d2, wrap32 (scale + exp d2)) in
      Return (mkDecimal (Z.quot aa bb) scale, mkDecimal (Z.rem aa bb) scalerest).

(** [DivRound]: the quotient rounded half away from zero at [precision]
    places, decided by comparing twice the remainder with the divisor. *)
Definition DivRound {E} (d d2 : Decimal) (precision : Z) : outcome E Decimal :=
  qr <-! QuoRem d d2 precision ;;
  let '(q, r) := qr in
  let rv2 := Z.shiftl (Z.abs (value r)) 1 in
  let r2 := mkDecimal rv2 (wrap32 (exp r + precision)) in
  let c := Cmp r2 (Abs d2) in
  if c <? 0 then Return q
  else if Z.sgn (value d) * Z.sgn (value d2) <? 0 then Return (Sub q (New 1 (wrap32 (- precision))))
  else Return (Add q (New 1 (wrap32 (- precision)))).

Definition Div {E} (d d2 : Decimal) : outcome E Decimal :=
  DivRound d d2 DivisionPrecision.

(** [Round]: half away from zero at [places] decimal places; a value that
    already has exponent [-places] is returned as it is. *)
Definition Round (d : Decimal) (places : Z) : Decimal :=
  if exp d =? wrap32 (- places) then d
  else
    let ret := rescale d (wrap32 (wrap32 (- places) - 1)) in
    let v1 := if value ret <? 0 then value ret - 5 else value ret + 5 in
    let m := v1 mod 10 in
    let v2 := v1 / 10 in
    let v3 := if (v2 <? 0) && negb (m =? 0) then v2 + 1 else v2 in
    mkDecimal v3 (wrap32 (exp ret + 1)).

End decimal.

(* ===================================================================== *)
(** ** Package [entities]: the currency registry                          *)
(* ===================================================================== *)

Module entities.
Import decimal.

Record Currency : Type := mkCurrency {
  Code : string;
  DecimalPlaces : Z;
  RateToUSD : Decimal
}.

Record ExchangeRate : Type := mkExchangeRate {
  rate_From : string;
  rate_To : string;
  Rate : Decimal
}.

Record ExchangeResult : Type := mkExchangeResult {
  From : string;
  To : string;
  Amount : Decimal
}.

(** The float literals of the registry: 0.00002461, 0.0001428, 6.87, 0.999
    and 57037.22. *)
Definition CryptoCurrencies : gmap string Currency :=
  list_to_map
    [ ("BEER",  mkCurrency "BEER"  18 (NewFromFloat (mkFloat 2461 (-8))));
      ("FLOKI", mkCurrency "FLOKI" 18 (NewFromFloat (mkFloat 1428 (-7))));
      ("GATE",  mkCurrency "GATE"  18 (NewFromFloat (mkFloat 687 (-2))));
      ("USDT",  mkCurrency "USDT"  6  (NewFromFloat (mkFloat 999 (-3))));
      ("WBTC",  mkCurrency "WBTC"  8  (NewFromFloat (mkFloat 5703722 (-2)))) ].

Definition RoundToDecimalPlaces (c : Currency) (amount : Decimal) : Decimal :=
  Round amount (DecimalPlaces c).

Definition IsValid (c : Currency) : bool :=
  negb (String.eqb (Code c) "") && GreaterThan (RateToUSD c) Zero.

(** The error of [GetCurrency]: "currency %s not supported". *)
Inductive error : Type :=
| ErrNotSupported (code : string).

Definition GetCurrency (code : string) : outcome error Currency :=
  match CryptoCurrencies !! code with
  | Some currency => Return currency
  | None => Fail (ErrNotSupported code)
  end.

End entities.

(* ===================================================================== *)
(** ** Package [queries]: the converter                                   *)
(* ===================================================================== *)

Module ExchangeQueryHandler.
Import Strings decimal entities.

Record ExchangeQuery : Type := mkExchangeQuery {
  q_From : string;
  q_To : string;
  q_Amount : string
}.

Inductive error : Type :=
| ErrParametersRequired                       (* "from, to, and amount parameters are required" *)
| ErrInvalidAmount (cause : decimal.error)    (* "invalid amount: %w" *)
| ErrAmountNotPositive                        (* "amount must be positive" *)
| ErrUnsupportedCurrency (code : string).     (* "unsupported currency %s" *)

Definition normalize (s : string) : string := ToUpper (TrimSpace s).

Definition Handle (query : ExchangeQuery) : outcome error ExchangeResult :=
  let from := normalize (q_From query) in
  let to := normalize (q_To query) in
  if String.eqb from "" || String.eqb to "" || String.eqb (q_Amount query) ""
  then Fail ErrParametersRequired
  else
    match NewFromString (q_Amount query) with
    | Fail err => Fail (ErrInvalidAmount err)
    | Panic msg => Panic msg
    | Return amount =>
        if LessThanOrEqual amount Zero then Fail ErrAmountNotPositive
        else
          match GetCurrency from with
          | Fail _ => Fail (ErrUnsupportedCurrency from)
          | Panic msg => Panic msg
          | Return fromCurrency =>
              match GetCurrency to with
              | Fail _ => Fail (ErrUnsupportedCurrency to)
              | Panic msg => Panic msg
              | Return toCurrency =>
                  usdAmount <-! Mul amount (RateToUSD fromCurrency) ;;
                  resultAmount <-! Div usdAmount (RateToUSD toCurrency) ;;
                  let finalAmount := RoundToDecimalPlaces toCurrency resultAmount in
                  Return (mkExchangeResult from to finalAmount)
              end
          end
    end.

End ExchangeQueryHandler.

(* ===================================================================== *)
(** ** Package [queries]: the cross-rate calculator                       *)
(* ===================================================================== *)

Module GetRatesQueryHandler.
Import Strings decimal entities.

(** The error of [calculateRate]. *)
Inductive rate_error : Type :=
| ErrRateNotAvailable (currency : string)                   (* "rate not available for currency %s" *)
| ErrInvalidRate (from : string) (fromRate : float64)
                 (to : string) (toRate : float64).          (* "invalid rate: %s=%.6f, %s=%.6f" *)

(** The errors of [Handle]; [E] is the error type of the repository. *)
Inductive error (E : Type) : Type :=
| ErrTwoRequired                                            (* "at least two currencies are required" *)
| ErrGetRates (cause : E)                                   (* "failed to get rates: %w" *)
| ErrNotAvailable (currency : string)                       (* "currency '%s' is not supported or not available" *)
| ErrCalculate (from to : string) (cause : rate_error).     (* "failed to calculate rate from %s to %s: %w" *)
Arguments ErrTwoRequired {E}.
Arguments ErrGetRates {E} cause.
Arguments ErrNotAvailable {E} currency.
Arguments ErrCalculate {E} from to cause.

(** The interface [repositories.RatesRepository], as the result of its one
    method on the given codes. *)
Definition RatesRepository (E : Type) : Type :=
  list string -> outcome E (gmap string float64 * string).

Definition normalize (s : string) : string := ToUpper (TrimSpace s).

Definition calculateRate (rates : gmap string float64) (from to : string)
  : outcome rate_error Decimal :=
  match rates !! from with
  | None => Fail (ErrRateNotAvailable from)
  | Some fromRate =>
      match rates !! to with
      | None => Fail (ErrRateNotAvailable to)
      | Some toRate =>
          if float_is_zero fromRate || float_is_zero toRate
          then Fail (ErrInvalidRate from fromRate to toRate)
          else
            let fromDecimal := NewFromFloat fromRate in
            let toDecimal := NewFromFloat toRate in
            Div toDecimal fromDecimal
      end
  end.

(** The completeness check: the first requested code without a rate. *)
Fixpoint check_present {E} (rates : gmap string float64) (currencies : list string)
  : outcome (error E) unit :=
  match currencies with
  | [] => Return tt
  | currency :: rest =>
      match rates !! currency with
      | None => Fail (ErrNotAvailable currency)
      | Some _ => check_present rates rest
      end
  end.

(** The inner loop [for _, to := range currencies], appending to [result]. *)
Fixpoint inner_loop {E} (rates : gmap string float64) (from : string)
    (tos : list string) (result : list ExchangeRate)
  : outcome (error E) (list ExchangeRate) :=
  match tos with
  | [] => Return result
  | to :: rest =>
      if negb (String.eqb from to) then
        match calculateRate rates from to with
        | Fail err => Fail (ErrCalculate from to err)
        | Panic msg => Panic msg
        | Return rate =>
            inner_loop rates from rest (result ++ [mkExchangeRate from to rate])%list
        end
      else inner_loop rates from rest result
  end.

(** The outer loop [for _, from := range currencies]. *)
Fixpoint outer_loop {E} (rates : gmap string float64) (froms currencies : list string)
    (result : list ExchangeRate)
  : outcome (error E) (list ExchangeRate) :=
  match froms with
  | [] => Return result
  | from :: rest =>
      r <-! inner_loop rates from currencies result ;;
      outer_loop rates rest currencies r
  end.

Definition Handle {E} (ratesRepo : RatesRepository E) (query : list string)
  : outcome (error E) (list ExchangeRate * string) :=
  if (length query <? 2)%nat then Fail ErrTwoRequired
  else
    let currencies := map normalize query in
    match ratesRepo currencies with
    | Fail err => Fail (ErrGetRates err)
    | Panic msg => Panic msg
    | Return (rates, info) =>
        _ <-! check_present rates currencies ;;
        result <-! outer_loop rates currencies currencies [] ;;
        Return (result, info)
    end.

End GetRatesQueryHandler.

(* ===================================================================== *)
(** ** The repository of [rates_query_test.go]                            *)
(* ===================================================================== *)

Module TestRatesRepository.
Import decimal.

Record TestRatesRepository : Type := mkTestRatesRepository {
  rates : gmap string float64;
  info : string;
  err : option string
}.

Fixpoint collect (all : gmap string float64) (currencies : list string)
    (result : gmap string float64) : gmap string float64 :=
  match currencies with
  | [] => result
  | currency :: rest =>
      match all !! currency with
      | Some rate => collect all rest (<[currency := rate]> result)
      | None => collect all rest result
      end
  end.

Definition GetRates (r : TestRatesRepository) (currencies : list string)
  : outcome string (gmap string float64 * string) :=
  match err r with
  | Some e => Fail e
  | None => Return (collect (rates r) currencies ∅, info r)
  end.

(** Rate tables used by the tests and in the examples below: the one of
    "successful USD EUR GBP rates", one with a zero rate and one with a
    negative rate. *)
Definition usd_eur_gbp : TestRatesRepository :=
  mkTestRatesRepository
    (list_to_map [("USD", mkFloat 1 0); ("EUR", mkFloat 85 (-2)); ("GBP", mkFloat 73 (-2))])
    "test repository" None.



End TestRatesRepository.

(* ===================================================================== *)
(** ** Library [github.com/sony/gobreaker]                                *)
(* ===================================================================== *)

(** Transcribed from the library's [gobreaker.go].  Clock readings are
    integers (nanoseconds); [expiry = None] is the zero [time.Time], which is
    before every clock reading.  [beforeRequest] and [afterRequest] each run
    under the breaker's mutex, so each is one atomic step on the state. *)
Module gobreaker.
Import Int.

Inductive State : Type := StateClosed | StateHalfOpen | StateOpen.

Record Counts : Type := mkCounts {
  Requests : Z;
  TotalSuccesses : Z;
  TotalFailures : Z;
  ConsecutiveSuccesses : Z;
  ConsecutiveFailures : Z
}.

Definition counts_onRequest (c : Counts) : Counts :=
  mkCounts (wrapu32 (Requests c + 1)) (TotalSuccesses c) (TotalFailures c)
           (ConsecutiveSuccesses c) (ConsecutiveFailures c).

Definition counts_onSuccess (c : Counts) : Counts :=
  mkCounts (Requests c) (wrapu32 (TotalSuccesses c + 1)) (TotalFailures c)
           (wrapu32 (ConsecutiveSuccesses c + 1)) 0.

Definition counts_onFailure (c : Counts) : Counts :=
  mkCounts (Requests c) (TotalSuccesses c) (wrapu32 (TotalFailures c + 1))
           0 (wrapu32 (ConsecutiveFailures c + 1)).

Definition counts_clear : Counts := mkCounts 0 0 0 0 0.

(** The fields of [Settings] that influence results; a missing
    [ReadyToTrip] is [None]. *)
Record Settings : Type := mkSettings {
  MaxRequests : Z;
  Interval : Z;
  Timeout : Z;
  ReadyToTrip : option (Counts -> bool)
}.

Record CircuitBreaker : Type := mkCircuitBreaker {
  maxRequests : Z;
  interval : Z;
  timeout : Z;
  readyToTrip : Counts -> bool;
  state : State;
  generation : Z;
  counts : Counts;
  expiry : option Z
}.

Inductive error : Type :=
| ErrTooManyRequests    (* "too many requests" *)
| ErrOpenState.         (* "circuit breaker is open" *)

Definition second : Z := 1000000000.
Definition defaultInterval : Z := 0.
Definition defaultTimeout : Z := 60 * second.
Definition defaultReadyToTrip (c : Counts) : bool := 5 <? ConsecutiveFailures c.

Definition toNewGeneration (cb : CircuitBreaker) (now : Z) : CircuitBreaker :=
  let expiry' :=
    match state cb with
    | StateClosed => if interval cb =? 0 then None else Some (now + interval cb)
    | StateOpen => Some (now + timeout cb)
    | StateHalfOpen => None
    end in
  mkCircuitBreaker (maxRequests cb) (interval cb) (timeout cb) (readyToTrip cb)
    (state cb) (wrapu64 (generation cb + 1)) counts_clear expiry'.

Definition NewCircuitBreaker (st : Settings) (now : Z) : CircuitBreaker :=
  toNewGeneration
    (mkCircuitBreaker
       (if MaxRequests st =? 0 then 1 else MaxRequests st)
       (if Interval st <=? 0 then defaultInterval else Interval st)
       (if Timeout st <=? 0 then defaultTimeout else Timeout st)
       (match ReadyToTrip st with Some f => f | None => defaultReadyToTrip end)
       StateClosed 0 counts_clear None)
    now.

Definition State_eqb (a b : State) : bool :=
  match a, b with
  | StateClosed, StateClosed | StateHalfOpen, StateHalfOpen | StateOpen, StateOpen => true
  | _, _ => false
  end.

Definition with_state (cb : CircuitBreaker) (s : State) : CircuitBreaker :=
  mkCircuitBreaker (maxRequests cb) (interval cb) (timeout cb) (readyToTrip cb)
    s (generation cb) (counts cb) (expiry cb).

Definition with_counts (cb : CircuitBreaker) (c : Counts) : CircuitBreaker :=
  mkCircuitBreaker (maxRequests cb) (interval cb) (timeout cb) (readyToTrip cb)
    (state cb) (generation cb) c (expiry cb).

Definition setState (cb : CircuitBreaker) (s : State) (now : Z) : CircuitBreaker :=
  if State_eqb (state cb) s then cb
  else toNewGeneration (with_state cb s) now.

(** [t.Before(now)] for the expiry. *)
Definition expiry_before (e : option Z) (now : Z) : bool :=
  match e with
  | None => true
  | Some t => t <? now
  end.

Definition expiry_is_zero (e : option Z) : bool :=
  match e with None => true | Some _ => false end.

(** [currentState]: the state after the timed transitions due at [now]. *)
Definition currentState (cb : CircuitBreaker) (now : Z) : CircuitBreaker :=
  match state cb with
  | StateClosed =>
      if negb (expiry_is_zero (expiry cb)) && expiry_before (expiry cb) now
      then toNewGeneration cb now else cb
  | StateOpen =>
      if expiry_before (expiry cb) now then setState cb StateHalfOpen now else cb
  | StateHalfOpen => cb
  end.

(** [beforeRequest]: the admission decision; on admission, the generation
    the request belongs to. *)
Definition beforeRequest (cb : CircuitBreaker) (now : Z)
  : outcome error Z * CircuitBreaker :=
  let cb1 := currentState cb now in
  match state cb1 with
  | StateOpen => (Fail ErrOpenState, cb1)
  | StateHalfOpen =>
      if maxRequests cb1 <=? Requests (counts cb1) then (Fail ErrTooManyRequests, cb1)
      else (Return (generation cb1), with_counts cb1 (counts_onRequest (counts cb1)))
  | StateClosed =>
      (Return (generation cb1), with_counts cb1 (counts_onRequest (counts cb1)))
  end.

Definition onSuccess (cb : CircuitBreaker) (now : Z) : CircuitBreaker :=
  match state cb with
  | StateClosed => with_counts cb (counts_onSuccess (counts cb))
  | StateHalfOpen =>
      let cb1 := with_counts cb (counts_onSuccess (counts cb)) in
      if maxRequests cb1 <=? ConsecutiveSuccesses (counts cb1)
      then setState cb1 StateClosed now else cb1
  | StateOpen => cb
  end.

Definition onFailure (cb : CircuitBreaker) (now : Z) : CircuitBreaker :=
  match state cb with
  | StateClosed =>
      let cb1 := with_counts cb (counts_onFailure (counts cb)) in
      if readyToTrip cb1 (counts cb1) then setState cb1 StateOpen now else cb1
  | StateHalfOpen => setState cb StateOpen now
  | StateOpen => cb
  end.

(** [afterRequest]: the outcome of a request admitted in generation
    [before] is counted only if that generation is still the current one. *)
Definition afterRequest (cb : CircuitBreaker) (before : Z) (success : bool) (now : Z)
  : CircuitBreaker :=
  let cb1 := currentState cb now in
  if negb (generation cb1 =? before) then cb1
  else if success then onSuccess cb1 now else onFailure cb1 now.

(** The method [State()]: it applies the timed transitions due at [now]
    before it reports the state. *)
Definition CircuitBreaker_State (cb : CircuitBreaker) (now : Z) : State * CircuitBreaker :=
  let cb1 := currentState cb now in (state cb1, cb1).

(** The errors [Execute] can return: the breaker's own or the request's. *)
Inductive exec_error (E : Type) : Type :=
| Rejected (e : error)
| RequestFailed (e : E).
Arguments Rejected {E} e.
Arguments RequestFailed {E} e.

(** [Execute]: [req] acts on a world [W] and is run only when the request
    is admitted; [now1] and [now2] are the clock readings of
    [beforeRequest] and [afterRequest].  A panic of [req] is counted as a
    failure and raised again. *)
Definition Execute {W E A} (cb : CircuitBreaker) (now1 now2 : Z)
    (req : W -> outcome E A * W) (w : W)
  : outcome (exec_error E) A * CircuitBreaker * W :=
  match beforeRequest cb now1 with
  | (Fail err, cb1) => (Fail (Rejected err), cb1, w)
  | (Panic msg, cb1) => (Panic msg, cb1, w)
  | (Return gen, cb1) =>
      match req w with
      | (Return a, w') => (Return a, afterRequest cb1 gen true now2, w')
      | (Fail e, w') => (Fail (RequestFailed e), afterRequest cb1 gen false now2, w')
      | (Panic msg, w') => (Panic msg, afterRequest cb1 gen false now2, w')
      end
  end.

End gobreaker.

(* ===================================================================== *)
(** ** Package [repositories]: mock and resilient rate provider           *)
(* ===================================================================== *)

Module repositories.
Import decimal gobreaker.

Record Config : Type := mkConfig {
  OpenExchangeAPIKey : string;
  OpenExchangeBaseURL : string
}.

(** What the HTTP exchange of one call does: the request cannot be built,
    the round trip fails (transport error, time-out, cancellation), or a
    response arrives; [body] is the decoded [OpenExchangeResponse.Rates],
    [None] when the body does not decode. *)
Inductive HttpOutcome : Type :=
| RequestNotCreated
| RoundTripFailed
| Response (status : Z) (body : option (gmap string float64)).

Inductive fetch_error : Type :=
| ErrCreateRequest                              (* "failed to create request: %w" *)
| ErrMakeRequest                                (* "failed to make request: %w" *)
| ErrStatus (status : Z)                        (* "API returned status %d" *)
| ErrDecode                                     (* "failed to decode response: %w" *)
| ErrNotSupportedByProvider (currency : string). (* "currency '%s' is not supported by the exchange rates provider" *)

Inductive error : Type :=
| ErrUnavailable        (* "external rates API is currently unavailable (service protection active)" *)
| ErrRateLimited        (* "external rates API is being rate limited (too many requests)" *)
| ErrFetch (cause : fetch_error). (* "failed to fetch live exchange rates: %w" *)

(** The repository: its configuration and its breaker. *)
Record RatesRepositoryImpl : Type := mkRatesRepositoryImpl {
  config : Config;
  circuitBreaker : CircuitBreaker
}.

(** The requests handed to [httpClient.Do] so far, latest last: one entry
    for each call of [Do], the text of the URL the request was built from.
    What the client does with a request (the redirects it follows, the
    fragment of a URL, which it does not transmit) is not part of it. *)
Definition Network : Type := list string.

Definition settings : Settings :=
  mkSettings 3 (60 * second) (30 * second)
    (Some (fun counts => 3 <=? ConsecutiveFailures counts)).

Definition NewRatesRepositoryImpl (cfg : Config) (now : Z) : RatesRepositoryImpl :=
  mkRatesRepositoryImpl cfg (NewCircuitBreaker settings now).

Definition mockInfo : string := "🤖 No API key: Using mock rates".
Definition liveInfo : string := "🔑 API key provided: Using live rates".

(** The float literals 1.0, 0.85, 0.73, 110.0, 1.25, 1.35, 0.92, 7.2, 10.5
    and 11.2. *)
Definition mockRates : gmap string float64 :=
  list_to_map
    [ ("USD", mkFloat 1 0);     ("EUR", mkFloat 85 (-2));  ("GBP", mkFloat 73 (-2));
      ("JPY", mkFloat 11 1);    ("CAD", mkFloat 125 (-2)); ("AUD", mkFloat 135 (-2));
      ("CHF", mkFloat 92 (-2)); ("CNY", mkFloat 72 (-1));  ("SEK", mkFloat 105 (-1));
      ("NOK", mkFloat 112 (-1)) ].

Fixpoint mock_loop (currencies : list string) (result : gmap string float64)
  : gmap string float64 :=
  match currencies with
  | [] => result
  | currency :: rest =>
      match mockRates !! currency with
      | Some rate => mock_loop rest (<[currency := rate]> result)
      | None => mock_loop rest result
      end
  end.

Definition getMockRates (currencies : list string) : gmap string float64 :=
  mock_loop currencies ∅.

(** First loop of the mapping: [result["USD"] = 1.0] if USD was requested. *)
Fixpoint base_loop (currencies : list string) (result : gmap string float64)
  : gmap string float64 :=
  match currencies with
  | [] => result
  | currency :: rest =>
      if String.eqb currency "USD" then <["USD" := mkFloat 1 0]> result
      else base_loop rest result
  end.

(** Second loop of the mapping: every other requested currency must be in
    the response. *)
Fixpoint rates_loop (upstream : gmap string float64) (currencies : list string)
    (result : gmap string float64) : outcome fetch_error (gmap string float64) :=
  match currencies with
  | [] => Return result
  | currency :: rest =>
      if negb (String.eqb currency "USD") then
        match upstream !! currency with
        | Some rate => rates_loop upstream rest (<[currency := rate]> result)
        | None => Fail (ErrNotSupportedByProvider currency)
        end
      else rates_loop upstream rest result
  end.

Fixpoint Join (l : list string) (sep : string) : string :=
  match l with
  | [] => ""
  | [x] => x
  | x :: rest => x ++ sep ++ Join rest sep
  end.

Definition request_url (cfg : Config) (currencies : list string) : string :=
  OpenExchangeBaseURL cfg ++ "/latest.json?app_id=" ++ OpenExchangeAPIKey cfg
    ++ "&symbols=" ++ Join currencies ",".

Definition StatusOK : Z := 200.

Definition fetchRatesFromAPI (cfg : Config) (http : HttpOutcome)
    (currencies : list string) (net : Network)
  : outcome fetch_error (gmap string float64) * Network :=
  let url := request_url cfg currencies in
  match http with
  | RequestNotCreated => (Fail ErrCreateRequest, net)
  | RoundTripFailed => (Fail ErrMakeRequest, (net ++ [url])%list)
  | Response status body =>
      let net' := (net ++ [url])%list in
      if negb (status =? StatusOK) then (Fail (ErrStatus status), net')
      else
        match body with
        | None => (Fail ErrDecode, net')
        | Some upstream =>
            (rates_loop upstream currencies (base_loop currencies ∅), net')
        end
  end.

(** [GetRates]: [now1] and [now2] are the clock readings taken by the
    breaker before and after the request, [http] is what the HTTP exchange
    does if it takes place.  When the request has run, the log line reads
    [circuitBreaker.State()], at the clock reading [now3]; that call applies
    the breaker's timed transitions. *)
Definition GetRates (r : RatesRepositoryImpl) (now1 now2 now3 : Z) (http : HttpOutcome)
    (currencies : list string) (net : Network)
  : outcome error (gmap string float64 * string) * RatesRepositoryImpl * Network :=
  if String.eqb (OpenExchangeAPIKey (config r)) "" then
    (Return (getMockRates currencies, mockInfo), r, net)
  else
    let '(res, cb', net') :=
      Execute (circuitBreaker r) now1 now2
        (fetchRatesFromAPI (config r) http currencies) net in
    match res with
    | Fail (Rejected ErrOpenState) =>
        (Fail ErrUnavailable, mkRatesRepositoryImpl (config r) cb', net')
    | Fail (Rejected ErrTooManyRequests) =>
        (Fail ErrRateLimited, mkRatesRepositoryImpl (config r) cb', net')
    | Fail (RequestFailed err) =>
        let '(_, cb'') := CircuitBreaker_State cb' now3 in
        (Fail (ErrFetch err), mkRatesRepositoryImpl (config r) cb'', net')
    | Panic msg => (Panic msg, mkRatesRepositoryImpl (config r) cb', net')
    | Return rates =>
        let '(_, cb'') := CircuitBreaker_State cb' now3 in
        (Return (rates, liveInfo), mkRatesRepositoryImpl (config r) cb'', net')
    end.

(** The servers of [rates_repository_impl_test.go]: the one of
    [TestRatesRepositoryImpl_CircuitBreaker] answers 500, the one of
    [TestRatesRepositoryImpl_GetRates_WithAPIKey_Success] answers 200 with
    the rate of EUR. *)
Definition test_config : Config := mkConfig "test-api-key" "http://127.0.0.1".
Definition server_error : HttpOutcome := Response 500 None.
Definition server_eur : HttpOutcome :=
  Response 200 (Some (<["EUR" := mkFloat 85 (-2)]> ∅)).

(** A breaker built by [NewRatesRepositoryImpl]: the settings never change
    after construction. *)
Definition configured (cb : CircuitBreaker) : Prop :=
  maxRequests cb = 3
  /\ interval cb = 60 * second
  /\ timeout cb = 30 * second
  /\ readyToTrip cb = (fun counts => 3 <=? ConsecutiveFailures counts).

(** One call of [GetRates] with what the environment does during it. *)
Record Call : Type := mkCall {
  call_now1 : Z;
  call_now2 : Z;
  call_now3 : Z;
  call_http : HttpOutcome;
  call_currencies : list string
}.

(** Calls made one after the other on the same repository, as in the loop of
    [TestRatesRepositoryImpl_CircuitBreaker]: the results in order, the
    repository and the requests sent at the end. *)
Fixpoint GetRates_seq (r : RatesRepositoryImpl) (net : Network) (calls : list Call)
  : list (outcome error (gmap string float64 * string)) * RatesRepositoryImpl * Network :=
  match calls with
  | [] => ([], r, net)
  | c :: rest =>
      let '(o, r1, net1) :=
        GetRates r (call_now1 c) (call_now2 c) (call_now3 c) (call_http c)
          (call_currencies c) net in
      let '(os, r2, net2) := GetRates_seq r1 net1 rest in
      (o :: os, r2, net2)
  end.

End repositories.

(* ===================================================================== *)
(** ** Package [config]                                                   *)
(* ===================================================================== *)

Module config.
Import Strconv.

Record Config : Type := mkConfig {
  Port : string;
  GinMode : string;
  LogLevel : string;
  OpenExchangeAPIKey : string;
  OpenExchangeBaseURL : string;
  RedisURL : string;
  Environment : string
}.

(** The environment of the process.  [os.Getenv] returns the empty string
    for a variable that is not set. *)
Definition Environ : Type := gmap string string.

Definition Getenv (env : Environ) (key : string) : string := default "" (env !! key).

Definition getEnv (env : Environ) (key defaultValue : string) : string :=
  let value := Getenv env key in
  if negb (String.eqb value "") then value else defaultValue.

Inductive error : Type :=
| ErrPortEmpty                      (* "PORT cannot be empty" *)
| ErrGinMode                        (* "GIN_MODE must be one of: debug, release, test" *)
| ErrLogLevelEmpty                  (* "LOG_LEVEL cannot be empty" *)
| ErrPortNumber (cause : NumError). (* "PORT must be a valid number: %w" *)

(** The error of [Load]: "config validation failed: %w". *)
Inductive load_error : Type :=
| ErrValidation (cause : error).

(** [Validate]: [None] is the [nil] error. *)
Definition Validate (c : Config) : option error :=
  if String.eqb (Port c) "" then Some ErrPortEmpty
  else if negb (String.eqb (GinMode c) "debug") && negb (String.eqb (GinMode c) "release")
          && negb (String.eqb (GinMode c) "test")
  then Some ErrGinMode
  else if String.eqb (LogLevel c) "" then Some ErrLogLevelEmpty
  else
    match Atoi (Port c) with
    | inl err => Some (ErrPortNumber err)
    | inr _ => None
    end.

Definition Load (env : Environ) : outcome load_error Config :=
  let cfg :=
    mkConfig (getEnv env "PORT" "8080")
             (getEnv env "GIN_MODE" "debug")
             (getEnv env "LOG_LEVEL" "info")
             (getEnv env "OPEN_EXCHANGE_API_KEY" "")
             (getEnv env "OPEN_EXCHANGE_BASE_URL" "https://openexchangerates.org/api")
             (getEnv env "REDIS_URL" "redis://localhost:6379")
             (getEnv env "ENV" "development") in
  match Validate cfg with
  | Some err => Fail (ErrValidation err)
  | None => Return cfg
  end.

Definition IsProduction (c : Config) : bool :=
  String.eqb (Environment c) "production" || String.eqb (GinMode c) "release".

End config.

(* ===================================================================== *)
(** ** Package [logger]                                                   *)
(* ===================================================================== *)

(** The logger writes through [log/slog]: a record goes to the handler only
    if the handler is enabled for its level, that is, if the level is not
    below the level the handler was built with.  A record is kept here as its
    level, its message and its attributes, each attribute as its text. *)
Module logger.
Import Strings.

Definition LevelDebug : Z := -4.
Definition LevelInfo : Z := 0.
Definition LevelWarn : Z := 4.
Definition LevelError : Z := 8.

(** The logger, as the level of its handler. *)
Record slogLogger : Type := mkSlogLogger { slogLevel : Z }.

Record Entry : Type := mkEntry {
  entry_level : Z;
  entry_msg : string;
  entry_args : list string
}.

Definition New (level : string) : slogLogger :=
  let l := ToLower level in
  mkSlogLogger
    (if String.eqb l "debug" then LevelDebug
     else if String.eqb l "info" then LevelInfo
     else if String.eqb l "warn" then LevelWarn
     else if String.eqb l "error" then LevelError
     else LevelInfo).

(** [slog.Logger.log]: [out] is what has been written so far. *)
Definition log (l : slogLogger) (level : Z) (msg : string) (args : list string)
    (out : list Entry) : list Entry :=
  if slogLevel l <=? level then (out ++ [mkEntry level msg args])%list else out.

Definition Info (l : slogLogger) (msg : string) (args : list string) (out : list Entry)
  : list Entry :=
  log l LevelInfo msg args out.

Definition Error (l : slogLogger) (msg err : string) (args : list string) (out : list Entry)
  : list Entry :=
  let allArgs := ("error" :: err :: args)%list in
  log l LevelError msg allArgs out.

Definition Debug (l : slogLogger) (msg : string) (args : list string) (out : list Entry)
  : list Entry :=
  log l LevelDebug msg args out.

Definition Warn (l : slogLogger) (msg : string) (args : list string) (out : list Entry)
  : list Entry :=
  log l LevelWarn msg args out.

(** [Fatal]: what has been written, and the exit status of the process. *)
Definition Fatal (l : slogLogger) (msg err : string) (out : list Entry) : list Entry * Z :=
  (log l LevelError msg ["error"; err] out, 1).

End logger.

(* ===================================================================== *)
(** ** Package [handlers]: the HTTP handlers                              *)
(* ===================================================================== *)

(** A handler is a function of the query parameters it reads with
    [c.Query]; its result is the status and the value it passes to
    [c.JSON], or the panic it lets through to [gin.Recovery]. *)
Module handlers.
Import Strings entities.

Inductive reply (B : Type) : Type :=
| JSON (code : Z) (obj : B)
| Panics (msg : string).
Arguments JSON {B} code obj.
Arguments Panics {B} msg.

Definition StatusOK : Z := 200.
Definition StatusBadRequest : Z := 400.

Record RatesResponse : Type := mkRatesResponse {
  SourceInfo : string;
  Rates : list ExchangeRate
}.

Record RatesErrorResponse : Type := mkRatesErrorResponse {
  Error : string;
  Example : string
}.

(** [RatesHandler.GetRates]; [ratesRepo] is the repository of the query
    handler the rates handler was built with. *)
Definition GetRates {E} (ratesRepo : GetRatesQueryHandler.RatesRepository E)
    (currenciesParam : string) : reply (RatesErrorResponse + RatesResponse) :=
  if String.eqb currenciesParam "" then
    JSON StatusBadRequest
      (inl (mkRatesErrorResponse "currencies parameter is required"
                                 "GET /rates?currencies=USD,EUR,GBP"))
  else
    let currencies := Split currenciesParam "," in
    match GetRatesQueryHandler.Handle ratesRepo currencies with
    | Fail _ =>
        JSON StatusBadRequest
          (inl (mkRatesErrorResponse
                  "Failed to retrieve exchange rates. Ensure currency codes are valid." ""))
    | Panic msg => Panics msg
    | Return (rates, info) => JSON StatusOK (inr (mkRatesResponse info rates))
    end.

(** The body of an exchange reply: the empty object [gin.H{}] or the
    result. *)
Inductive ExchangeBody : Type :=
| EmptyObject
| Result (result : ExchangeResult).

(** [ExchangeHandler.Exchange] *)
Definition Exchange (from to amount : string) : reply ExchangeBody :=
  let query := ExchangeQueryHandler.mkExchangeQuery from to amount in
  match ExchangeQueryHandler.Handle query with
  | Fail _ => JSON StatusBadRequest EmptyObject
  | Panic msg => Panics msg
  | Return result => JSON StatusOK (Result result)
  end.

End handlers.

(* ===================================================================== *)
(** ** Package [http]: the wiring of [Server.Start]                       *)
(* ===================================================================== *)

Module server.
Import repositories.

(** The repository as the query handler sees it during one request: the
    value built by [NewRatesRepositoryImpl], with what the clock and the
    network do while the call runs. *)
Definition ratesRepo (r : RatesRepositoryImpl) (now1 now2 now3 : Z) (http : HttpOutcome)
    (net : Network) : GetRatesQueryHandler.RatesRepository error :=
  fun currencies => fst (fst (GetRates r now1 now2 now3 http currencies net)).

End server.

(* ===================================================================== *)
(** ** The checks of the repository's tests                               *)
(* ===================================================================== *)

(** The assertions of [exchange_query_test.go], [currency_test.go],
    [rates_query_test.go] and [rates_repository_impl_test.go], as boolean
    functions of the test table's columns. *)
Module Tests.
Import decimal entities repositories.

(** [expectedAmount.Equal(result.Amount)], with the codes echoed. *)
Definition exchange_gives (from to amount expectedAmount : string) : bool :=
  match ExchangeQueryHandler.Handle (ExchangeQueryHandler.mkExchangeQuery from to amount),
        NewFromString expectedAmount with
  | Return result, Return expected =>
      Equal expected (Amount result)
      && String.eqb (From result) from && String.eqb (To result) to
  | _, _ => false
  end.

(** [expected.Equal(currency.RoundToDecimalPlaces(amount))] *)
Definition rounding_gives (dp : Z) (amount expected : string) : bool :=
  match NewFromString amount, NewFromString expected with
  | Return a, Return e => Equal e (RoundToDecimalPlaces (mkCurrency "" dp Zero) a)
  | _, _ => false
  end.

(** [expectedDecimal.Equal(actualRate)] for the rate of one pair. *)
Definition rate_gives (r : TestRatesRepository.TestRatesRepository)
    (query : list string) (from to expectedRate : string) : bool :=
  match GetRatesQueryHandler.Handle (TestRatesRepository.GetRates r) query,
        NewFromString expectedRate with
  | Return (rates, _), Return expected =>
      existsb (fun x => String.eqb (rate_From x) from && String.eqb (rate_To x) to
                        && Equal expected (Rate x)) rates
  | _, _ => false
  end.

(** The loop of [TestRatesRepositoryImpl_CircuitBreaker]: five calls, one
    per second, to a server that answers 500. *)
Definition circuit_breaker_run
  : list (outcome error (gmap string float64 * string)) * RatesRepositoryImpl * Network :=
  GetRates_seq (NewRatesRepositoryImpl test_config 0) []
    (map (fun i => mkCall (i * gobreaker.second) (i * gobreaker.second)
                          (i * gobreaker.second) server_error ["USD"; "EUR"])
         [1; 2; 3; 4; 5]).

End Tests.

(* ===================================================================== *)
(** ** The arithmetic the specification speaks of                        *)
(* ===================================================================== *)

(** Exact rational arithmetic, against which the decimal code is compared:
    the value a [Decimal] denotes, rounding half away from zero at a number
    of decimal places (section 4.2 of the specification), the conversion
    formula of section 4.6 and the cross rate of section 4.5. *)
Module Spec.
Import decimal.

Local Open Scope Q_scope.

Definition ten : Q := 10 # 1.

(** [value * 10 ^ exp] *)
Definition toQ (d : Decimal) : Q := inject_Z (value d) * ten ^ exp d.

(** The nearest integer, ties away from zero: the sign of [q] times
    [floor (|q| + 1/2)]. *)
Definition round_half_away (q : Q) : Z :=
  (Z.sgn (Qnum q) * Qfloor (Qabs q + (1 # 2)))%Z.

(** The same rounding on a fraction [a / b] of integers. *)
Definition rdiv (a b : Z) : Z :=
  (Z.sgn a * Z.sgn b * ((2 * Z.abs a + Z.abs b) / (2 * Z.abs b)))%Z.

(** [q] rounded to [places] decimal places. *)
Definition round_to (q : Q) (places : Z) : Q :=
  inject_Z (round_half_away (q * ten ^ places)) / ten ^ places.

(** [amount * rateToUSD[from] / rateToUSD[to]] rounded to
    [decimalPlaces[to]]. *)
Definition convert (amount rateFrom rateTo : Q) (places : Z) : Q :=
  round_to (amount * rateFrom / rateTo) places.

(** [providerRate[to] / providerRate[from]] *)
Definition cross_rate (rateTo rateFrom : Q) : Q := rateTo / rateFrom.

End Spec.

(* ===================================================================== *)
(** ** Notions the statements below use                                  *)
(* ===================================================================== *)

(** [s] is a decimal numeral of the integer [n]: an optional sign, then one
    or more digits and nothing else. *)
Definition numeral (s : string) (n : Z) : Prop :=
  exists ds v,
    ds <> "" /\ Strconv.parse_digits 0 ds = Some v
    /\ ((s = ds \/ s = "+" ++ ds) /\ n = v \/ s = "-" ++ ds /\ n = - v).

(** The registry lookup as the converter performs it: [Handle] trims and
    upper-cases the code it was given and passes the result to
    [GetCurrency]. *)
Definition registry_lookup (code : string) : outcome entities.error entities.Currency :=
  entities.GetCurrency (ExchangeQueryHandler.normalize code).

(** The ordered pairs of different codes of a list, in the order in which
    two nested loops over the list meet them. *)
Definition ordered_pairs (cs : list string) : list (string * string) :=
  flat_map (fun from => map (pair from)
                          (List.filter (fun to => negb (String.eqb from to)) cs)) cs.

(** The bytes a decimal numeral is written with: the digits, the two
    signs, the point and the two marks of an exponent. *)
Definition numeral_byte (c : ascii) : bool :=
  Strings.is_digit c || Ascii.eqb c "+" || Ascii.eqb c "-" || Ascii.eqb c "."
  || Ascii.eqb c "e" || Ascii.eqb c "E".

(** A text written with such bytes only. *)
Definition numeral_text (s : string) : Prop :=
  Forall (fun c => numeral_byte c = true) (list_ascii_of_string s).

(** Invariants of the breaker of the repository. *)
Module Invariants.
Import gobreaker repositories.

(** Between two calls that do not overlap, a half-open breaker has counted
    as many requests as successes, and fewer than three of them. *)
Definition trials_counted (cb : CircuitBreaker) : Prop :=
  configured cb
  /\ (state cb = StateHalfOpen ->
      Requests (counts cb) = ConsecutiveSuccesses (counts cb)
      /\ 0 <= Requests (counts cb) <= 2).

(** Calls in turn, each of which starts after the one before has returned
    and more than 30 seconds after the one before has started; [earliest] is
    the earliest start of the first one. *)
Fixpoint spaced (earliest : Z) (calls : list Call) : Prop :=
  match calls with
  | [] => True
  | c :: rest =>
      earliest <= call_now1 c /\ call_now1 c <= call_now2 c /\ call_now2 c <= call_now3 c
      /\ spaced (Z.max (call_now3 c) (call_now1 c + 30 * second + 1)) rest
  end.

(** A closed breaker of the repository whose counting interval ends at [E]
    and which has counted [n] failures in a row. *)
Definition closed_with (cb : CircuitBreaker) (E n : Z) : Prop :=
  configured cb /\ state cb = StateClosed /\ expiry cb = Some E
  /\ ConsecutiveFailures (counts cb) = n.

(** What a closed breaker has counted when the next call starts at
    [earliest] or later. *)
Definition counted_sparsely (cb : CircuitBreaker) (earliest : Z) : Prop :=
  exists E n,
    closed_with cb E n
    /\ ((n = 0 /\ E <= earliest + 60 * second)
        \/ (n = 1 /\ E < earliest + 30 * second)
        \/ (n = 2 /\ E < earliest)).

End Invariants.

(* ===================================================================== *)
(** * Proofs                                                              *)
(* ===================================================================== *)

(** ** Rounding of fractions *)

Import Int Spec decimal.

Section Rounding.

Lemma sgn_Qnum_comp (p q : Q) : (p == q)%Q -> Z.sgn (Qnum p) = Z.sgn (Qnum q).
Proof.
  unfold Qeq. destruct p as [pn pd], q as [qn qd]; cbn.
  destruct pn, qn; cbn; intros H; try reflexivity; try discriminate H; lia.
Qed.

Lemma round_half_away_comp (p q : Q) :
  (p == q)%Q -> round_half_away p = round_half_away q.
Proof.
  intros H. unfold round_half_away.
  rewrite (sgn_Qnum_comp p q H). f_equal.
  apply Qfloor_comp. rewrite H. reflexivity.
Qed.

Lemma round_to_comp (p q : Q) (places : Z) :
  (p == q)%Q -> (round_to p places == round_to q places)%Q.
Proof.
  intros H. unfold round_to.
  rewrite (round_half_away_comp (p * ten ^ places) (q * ten ^ places)).
  - reflexivity.
  - rewrite H. reflexivity.
Qed.

Lemma inject_Z_nonzero (b : Z) : b <> 0 -> ~ (inject_Z b == 0)%Q.
Proof. unfold Qeq; cbn. lia. Qed.

Lemma sgn_Qnum_frac (a b : Z) :
  b <> 0 -> Z.sgn (Qnum (inject_Z a / inject_Z b)) = Z.sgn a * Z.sgn b.
Proof.
  intros Hb. destruct b as [|pb|pb]; [lia| |]; cbn.
  - rewrite Z.mul_1_r. lia.
  - destruct a; cbn; reflexivity.
Qed.

Lemma Qabs_frac (a b : Z) :
  (Qabs (inject_Z a / inject_Z b) == inject_Z (Z.abs a) / inject_Z (Z.abs b))%Q.
Proof.
  unfold Qdiv. rewrite Qabs_Qmult, Qabs_Qinv. reflexivity.
Qed.

Lemma round_half_away_frac (a b : Z) :
  b <> 0 -> round_half_away (inject_Z a / inject_Z b) = rdiv a b.
Proof.
  intros Hb. unfold round_half_away, rdiv.
  rewrite sgn_Qnum_frac by assumption. f_equal.
  rewrite Zdiv_Qdiv. apply Qfloor_comp.
  rewrite Qabs_frac.
  rewrite inject_Z_plus, !inject_Z_mult.
  assert (Hn : ~ (inject_Z (Z.abs b) == 0)%Q) by (apply inject_Z_nonzero; lia).
  field. exact Hn.
Qed.

Lemma rdiv_1_r (a : Z) : rdiv a 1 = a.
Proof.
  unfold rdiv. change (Z.sgn 1) with 1. change (Z.abs 1) with 1.
  assert (H : (2 * Z.abs a + 1) / (2 * 1) = Z.abs a) by (Z.div_mod_to_equations; lia).
  rewrite H. destruct a; cbn; lia.
Qed.

Lemma round_half_away_Z (z : Z) : round_half_away (inject_Z z) = z.
Proof.
  rewrite <- (rdiv_1_r z) at 2. rewrite <- round_half_away_frac by lia.
  apply round_half_away_comp. unfold Qdiv. cbn. field.
Qed.

Lemma ten_nonzero : ~ (ten == 0)%Q.
Proof. discriminate. Qed.

Lemma ten_pow_nonzero (z : Z) : ~ (ten ^ z == 0)%Q.
Proof. apply Qpower_not_0, ten_nonzero. Qed.

Lemma ten_pow_Z (n : Z) : 0 <= n -> (ten ^ n == inject_Z (10 ^ n))%Q.
Proof. intros H. rewrite Zpower_Qpower by assumption. reflexivity. Qed.

Lemma ten_pow_add (a b : Z) : (ten ^ (a + b) == ten ^ a * ten ^ b)%Q.
Proof. apply Qpower_plus, ten_nonzero. Qed.


Lemma pow10_max_pos (n : Z) : 0 < 10 ^ Z.max 0 n.
Proof. apply Z.pow_pos_nonneg; lia. Qed.

(** The value of a decimal, shifted by [p] places, as a fraction of
    integers. *)
Lemma toQ_shift (d : Decimal) (p : Z) :
  (toQ d * ten ^ p ==
     inject_Z (value d * 10 ^ Z.max 0 (exp d + p))
     / inject_Z (10 ^ Z.max 0 (- (exp d + p))))%Q.
Proof.
  unfold toQ. rewrite <- Qmult_assoc, <- ten_pow_add.
  pose proof (ten_pow_nonzero (exp d + p)) as Hnz.
  destruct (Z.le_gt_cases 0 (exp d + p)) as [H | H].
  - rewrite (Z.max_r 0 (exp d + p)) by lia.
    rewrite (Z.max_l 0 (- (exp d + p))) by lia.
    rewrite inject_Z_mult, <- ten_pow_Z by assumption.
    change (inject_Z (10 ^ 0)) with 1%Q. field.
  - rewrite (Z.max_l 0 (exp d + p)) by lia.
    rewrite (Z.max_r 0 (- (exp d + p))) by lia.
    rewrite <- ten_pow_Z by lia. rewrite Qpower_opp.
    rewrite Z.pow_0_r, Z.mul_1_r. field. exact Hnz.
Qed.

Lemma toQ_at (v p : Z) : (toQ (mkDecimal v (- p)) == inject_Z v / ten ^ p)%Q.
Proof.
  unfold toQ; cbn [value exp]. rewrite Qpower_opp. reflexivity.
Qed.


Lemma wrap32_id (z : Z) : - 2 ^ 31 <= z < 2 ^ 31 -> wrap32 z = z.
Proof.
  intros H. unfold wrap32. rewrite Z.mod_small; lia.
Qed.

Lemma in_int32_iff (z : Z) : in_int32 z = true <-> - 2 ^ 31 <= z < 2 ^ 31.
Proof. unfold in_int32, MinInt32, MaxInt32. lia. Qed.

(** The last step of [Round]: add or subtract 5, divide by ten towards
    minus infinity, and step back up for negatives. *)
Lemma round_last_digit (v : Z) :
  (let v1 := if v <? 0 then v - 5 else v + 5 in
   if (v1 / 10 <? 0) && negb (v1 mod 10 =? 0) then v1 / 10 + 1 else v1 / 10)
  = Z.sgn v * ((Z.abs v + 5) / 10).
Proof.
  cbv zeta.
  destruct (Z.ltb_spec v 0) as [Hv | Hv].
  - rewrite (Z.sgn_neg v) by assumption. rewrite (Z.abs_neq v) by lia.
    destruct (Z.ltb_spec ((v - 5) / 10) 0) as [Hq | Hq];
      destruct (Z.eqb_spec ((v - 5) mod 10) 0) as [Hm | Hm]; cbn [andb negb];
      Z.div_mod_to_equations; lia.
  - rewrite (Z.abs_eq v) by assumption.
    destruct (Z.ltb_spec ((v + 5) / 10) 0) as [Hq | Hq]; cbn [andb].
    + Z.div_mod_to_equations; lia.
    + destruct (Z.eq_dec v 0) as [-> | Hnz]; [reflexivity |].
      rewrite (Z.sgn_pos v) by lia. lia.
Qed.

Lemma rdiv_10 (v : Z) : rdiv v 10 = Z.sgn v * ((Z.abs v + 5) / 10).
Proof.
  unfold rdiv. change (Z.sgn 10) with 1. change (Z.abs 10) with 10.
  rewrite Z.mul_1_r. f_equal.
  replace (2 * Z.abs v + 10) with (2 * (Z.abs v + 5)) by lia.
  apply Z.div_mul_cancel_l; lia.
Qed.

(** Scaling numerator and denominator by a positive factor does not change
    the rounded quotient. *)
Lemma rdiv_scale (a b k : Z) : 0 < k -> b <> 0 -> rdiv (a * k) (b * k) = rdiv a b.
Proof.
  intros Hk Hb. unfold rdiv.
  rewrite !Z.sgn_mul, !Z.abs_mul. rewrite (Z.sgn_pos k), (Z.abs_eq k) by lia.
  rewrite !Z.mul_1_r. f_equal.
  replace (2 * (Z.abs a * k) + Z.abs b * k) with ((2 * Z.abs a + Z.abs b) * k) by lia.
  replace (2 * (Z.abs b * k)) with (2 * Z.abs b * k) by lia.
  apply Z.div_mul_cancel_r; lia.
Qed.

(** Truncating first and rounding the last digit afterwards rounds the
    original quotient. *)
Lemma round_after_quot (v D : Z) :
  0 < D ->
  Z.sgn (Z.quot v D) * ((Z.abs (Z.quot v D) + 5) / 10) = rdiv v (10 * D).
Proof.
  intros HD. unfold rdiv.
  rewrite (Z.sgn_pos (10 * D)), (Z.abs_eq (10 * D)) by lia. rewrite Z.mul_1_r.
  assert (Habs : Z.abs (Z.quot v D) = Z.abs v / D).
  { destruct (Z.le_gt_cases 0 v) as [Hv | Hv].
    - rewrite Z.quot_div_nonneg by lia.
      rewrite (Z.abs_eq v) by lia. apply Z.abs_eq, Z.div_pos; lia.
    - rewrite (Z.abs_neq v) by lia.
      replace v with (- (- v)) at 1 by lia.
      rewrite Z.quot_opp_l by lia. rewrite Z.abs_opp.
      rewrite Z.quot_div_nonneg by lia. apply Z.abs_eq, Z.div_pos; lia. }
  rewrite Habs.
  assert (Hdiv : (Z.abs v / D + 5) / 10 = (2 * Z.abs v + 10 * D) / (2 * (10 * D))).
  { replace (2 * Z.abs v + 10 * D) with (2 * (Z.abs v + 5 * D)) by lia.
    rewrite Z.div_mul_cancel_l by lia.
    rewrite <- Z.div_add by lia.
    rewrite Z.div_div by lia. f_equal; lia. }
  rewrite Hdiv.
  destruct (Z.eq_dec (Z.quot v D) 0) as [Hq | Hq].
  - rewrite Hq. rewrite <- Hdiv, <- Habs, Hq.
    replace ((Z.abs 0 + 5) / 10) with 0 by reflexivity. lia.
  - f_equal. rewrite Z.quot_div by lia. rewrite !Z.sgn_mul.
    rewrite (Z.sgn_pos D) by lia. rewrite Z.sgn_sgn.
    assert (0 < Z.abs v / D).
    { rewrite <- Habs. lia. }
    rewrite (Z.sgn_pos (Z.abs v / Z.abs D)); [lia | rewrite (Z.abs_eq D) by lia; lia].
Qed.

Lemma rescale_exp (d : Decimal) (e : Z) : exp (rescale d e) = e.
Proof.
  unfold rescale. destruct (Z.eqb_spec (exp d) e); [assumption |].
  destruct (exp d <? e); reflexivity.
Qed.

(** [Round] in integers: the scaled value, rounded, at exponent
    [- places]. *)
Lemma Round_value (d : Decimal) (p : Z) :
  Z.abs p < 2 ^ 31 ->
  Round d p =
    mkDecimal
      (rdiv (value d * 10 ^ Z.max 0 (exp d + p)) (10 ^ Z.max 0 (- (exp d + p))))
      (- p).
Proof.
  intros Hp. unfold Round. rewrite (wrap32_id (- p)) by lia.
  destruct (Z.eqb_spec (exp d) (- p)) as [He | He].
  - destruct d as [v e]; cbn [value exp] in *. subst e.
    replace (- p + p) with 0 by lia. cbn [Z.max Z.opp Z.compare].
    change (10 ^ 0) with 1. rewrite Z.mul_1_r, rdiv_1_r. reflexivity.
  - rewrite (wrap32_id (- p - 1)) by lia. cbv zeta.
    rewrite rescale_exp. rewrite (wrap32_id (- p - 1 + 1)) by lia.
    replace (- p - 1 + 1) with (- p) by lia. f_equal.
    rewrite round_last_digit.
    unfold rescale.
    destruct (Z.eqb_spec (exp d) (- p - 1)) as [He1 | He1].
    + rewrite Z.max_l by lia. rewrite Z.max_r by lia.
      replace (- (exp d + p)) with 1 by lia.
      change (10 ^ 0) with 1. change (10 ^ 1) with 10.
      rewrite Z.mul_1_r. symmetry. apply rdiv_10.
    + destruct (Z.ltb_spec (exp d) (- p - 1)) as [Hlt | Hge]; cbn [value].
      * rewrite Z.abs_eq by lia.
        rewrite round_after_quot by (apply Z.pow_pos_nonneg; lia).
        rewrite Z.max_l by lia. rewrite Z.max_r by lia.
        change (10 ^ 0) with 1. rewrite Z.mul_1_r. f_equal.
        replace (- (exp d + p)) with (Z.succ (- p - 1 - exp d)) by lia.
        rewrite Z.pow_succ_r by lia. reflexivity.
      * rewrite Z.abs_neq by lia.
        rewrite Z.max_r by lia. rewrite Z.max_l by lia.
        change (10 ^ 0) with 1.
        rewrite <- rdiv_10.
        replace (- (- p - 1 - exp d)) with (Z.succ (exp d + p)) by lia.
        rewrite Z.pow_succ_r by lia.
        replace (value d * (10 * 10 ^ (exp d + p)))
          with (value d * 10 ^ (exp d + p) * 10) by lia.
        replace 10 with (1 * 10) at 3 by lia.
        apply rdiv_scale; lia.
Qed.

(** [Round] is the specification's rounding. *)
Lemma Round_exact (d : Decimal) (p : Z) :
  Z.abs p < 2 ^ 31 -> (toQ (Round d p) == round_to (toQ d) p)%Q.
Proof.
  intros Hp. rewrite Round_value by assumption. rewrite toQ_at.
  unfold round_to.
  rewrite (round_half_away_comp _ _ (toQ_shift d p)).
  rewrite round_half_away_frac; [reflexivity |].
  pose proof (pow10_max_pos (- (exp d + p))). lia.
Qed.

Lemma Round_exp (d : Decimal) (p : Z) : Z.abs p < 2 ^ 31 -> exp (Round d p) = - p.
Proof. intros Hp. rewrite Round_value by assumption. reflexivity. Qed.

Lemma wrap32_wrap32_add (a b : Z) : wrap32 (wrap32 a + b) = wrap32 (a + b).
Proof.
  unfold wrap32. f_equal.
  replace ((a + 2 ^ 31) mod 2 ^ 32 - 2 ^ 31 + b + 2 ^ 31)
    with ((a + 2 ^ 31) mod 2 ^ 32 + b) by lia.
  rewrite Z.add_mod_idemp_l by lia. f_equal. lia.
Qed.

(** [Cmp] compares the exact values: the operand with the larger exponent
    is rescaled by a multiplication, never truncated. *)
Lemma Cmp_spec (x y : Decimal) :
  Cmp x y =
    match value x * 10 ^ Z.max 0 (exp x - exp y)
          ?= value y * 10 ^ Z.max 0 (exp y - exp x) with
    | Lt => -1
    | Eq => 0
    | Gt => 1
    end.
Proof.
  unfold Cmp, RescalePair, rescale.
  destruct (Z.ltb_spec (exp x) (exp y)) as [H1 | H1].
  - destruct (Z.eqb_spec (exp y) (exp x)) as [H2 | H2]; [lia |].
    destruct (Z.ltb_spec (exp y) (exp x)) as [H3 | H3]; [lia |]. cbn [value].
    rewrite Z.max_l by lia. rewrite Z.max_r by lia.
    rewrite Z.abs_neq by lia.
    replace (- (exp x - exp y)) with (exp y - exp x) by lia.
    change (10 ^ 0) with 1. rewrite Z.mul_1_r. reflexivity.
  - destruct (Z.ltb_spec (exp y) (exp x)) as [H3 | H3].
    + destruct (Z.eqb_spec (exp x) (exp y)) as [H2 | H2]; [lia |].
      destruct (Z.ltb_spec (exp x) (exp y)) as [H4 | H4]; [lia |]. cbn [value].
      rewrite Z.max_r by lia. rewrite Z.max_l by lia.
      rewrite Z.abs_neq by lia.
      replace (- (exp y - exp x)) with (exp x - exp y) by lia.
      change (10 ^ 0) with 1. rewrite Z.mul_1_r. reflexivity.
    + rewrite !Z.max_l by lia. change (10 ^ 0) with 1.
      rewrite !Z.mul_1_r. reflexivity.
Qed.

Lemma Abs_spec (d : Decimal) : Abs d = mkDecimal (Z.abs (value d)) (exp d).
Proof.
  unfold Abs. destruct (Z.ltb_spec (value d) 0) as [H | H]; [reflexivity |].
  destruct d as [v e]; cbn [value exp] in *. rewrite Z.abs_eq by lia. reflexivity.
Qed.

Lemma LessThanOrEqual_Zero (d : Decimal) :
  LessThanOrEqual d Zero = (value d <=? 0).
Proof.
  unfold LessThanOrEqual. rewrite Cmp_spec. cbn [value exp Zero New].
  rewrite Z.mul_0_l.
  pose proof (pow10_max_pos (exp d - 1)) as Hpos.
  destruct (Z.compare_spec (value d * 10 ^ Z.max 0 (exp d - 1)) 0) as [H | H | H];
    cbn; symmetry.
  - apply Z.leb_le. nia.
  - apply Z.leb_le. nia.
  - apply Z.leb_gt. nia.
Qed.

(** The rounded quotient from the truncated quotient and the remainder:
    the decision [DivRound] takes. *)
Lemma rdiv_quot_rem (a b : Z) :
  b <> 0 ->
  rdiv a b =
    if 2 * Z.abs (Z.rem a b) <? Z.abs b then Z.quot a b
    else if Z.sgn a * Z.sgn b <? 0 then Z.quot a b - 1
    else Z.quot a b + 1.
Proof.
  intros Hb. unfold rdiv.
  assert (HB : 0 < Z.abs b) by lia.
  assert (Hr : Z.abs (Z.rem a b) = Z.abs a mod Z.abs b).
  { rewrite <- Z.rem_abs by assumption. apply Z.rem_mod_nonneg; lia. }
  rewrite Hr. rewrite (Z.quot_div a b) by assumption.
  set (A := Z.abs a) in *. set (B := Z.abs b) in *.
  assert (HA : 0 <= A) by (subst A; lia).
  pose proof (Z.div_mod A B ltac:(lia)) as Hdm.
  pose proof (Z.mod_pos_bound A B HB) as Hmb.
  assert (Hsplit : (2 * A + B) / (2 * B) = A / B + (2 * (A mod B) + B) / (2 * B)).
  { replace (2 * A + B) with (2 * (A mod B) + B + A / B * (2 * B)) by lia.
    rewrite Z.div_add by lia. lia. }
  rewrite Hsplit.
  destruct (Z.ltb_spec (2 * (A mod B)) B) as [Hlt | Hge].
  - rewrite (Z.div_small (2 * (A mod B) + B)) by lia. lia.
  - assert (H1 : (2 * (A mod B) + B) / (2 * B) = 1).
    { symmetry. apply (Z.div_unique _ _ 1 (2 * (A mod B) - B)); lia. }
    rewrite H1.
    assert (Ha : a <> 0).
    { intros ->. subst A. cbn in Hge. rewrite Z.mod_0_l in Hge; lia. }
    destruct (Z.ltb_spec (Z.sgn a * Z.sgn b) 0) as [Hs | Hs];
      destruct a, b; cbn [Z.sgn] in *; try lia.
Qed.

Lemma Cmp_ltb (x y : Decimal) :
  (Cmp x y <? 0) =
    (value x * 10 ^ Z.max 0 (exp x - exp y) <? value y * 10 ^ Z.max 0 (exp y - exp x)).
Proof.
  rewrite Cmp_spec.
  destruct (Z.compare_spec (value x * 10 ^ Z.max 0 (exp x - exp y))
                           (value y * 10 ^ Z.max 0 (exp y - exp x)));
    destruct (Z.ltb_spec (value x * 10 ^ Z.max 0 (exp x - exp y))
                         (value y * 10 ^ Z.max 0 (exp y - exp x)));
    cbn; try reflexivity; lia.
Qed.

Lemma Sub_same_exp (v1 v2 e : Z) :
  Sub (mkDecimal v1 e) (mkDecimal v2 e) = mkDecimal (v1 - v2) e.
Proof. unfold Sub, RescalePair. cbn [value exp]. rewrite Z.ltb_irrefl. reflexivity. Qed.

Lemma Add_same_exp (v1 v2 e : Z) :
  Add (mkDecimal v1 e) (mkDecimal v2 e) = mkDecimal (v1 + v2) e.
Proof. unfold Add, RescalePair. cbn [value exp]. rewrite Z.ltb_irrefl. reflexivity. Qed.

(** [DivRound] in integers.  It returns whenever the divisor is not zero
    and the exponent of the scaled dividend fits an [int32]. *)
Lemma DivRound_value {E} (d d2 : Decimal) (prec : Z) :
  0 <= prec < 2 ^ 31 ->
  value d2 <> 0 ->
  in_int32 (exp d2) = true ->
  in_int32 (exp d) = true ->
  in_int32 (exp d - exp d2 + prec) = true ->
  @DivRound E d d2 prec =
    Return (mkDecimal
              (rdiv (value d * 10 ^ Z.max 0 (exp d - exp d2 + prec))
                    (value d2 * 10 ^ Z.max 0 (- (exp d - exp d2 + prec))))
              (- prec)).
Proof.
  intros Hp Hv2 He2 Hed He.
  apply in_int32_iff in He2, Hed. pose proof He as He'. apply in_int32_iff in He'.
  unfold DivRound, QuoRem.
  destruct (Z.eqb_spec (value d2) 0) as [? | _]; [contradiction |].
  rewrite (wrap32_id (- prec)) by lia.
  replace (exp d - exp d2 - - prec) with (exp d - exp d2 + prec) by lia.
  rewrite He. cbn [negb].
  set (e := exp d - exp d2 + prec) in *.
  pose proof (pow10_max_pos e) as Hpe. pose proof (pow10_max_pos (- e)) as Hpne.
  rewrite rdiv_quot_rem by nia.
  rewrite !Z.sgn_mul, !Z.abs_mul.
  rewrite (Z.sgn_pos (10 ^ Z.max 0 e)), (Z.sgn_pos (10 ^ Z.max 0 (- e))) by assumption.
  rewrite (Z.abs_eq (10 ^ Z.max 0 (- e))) by lia. rewrite !Z.mul_1_r.
  unfold New.
  destruct (Z.ltb_spec e 0) as [Hneg | Hpos]; cbn [obind value exp].
  - rewrite (Z.max_l 0 e) by lia. rewrite (Z.max_r 0 (- e)) by lia.
    change (10 ^ 0) with 1. rewrite Z.mul_1_r.
    rewrite (wrap32_id (exp d + prec)) by (subst e; lia).
    rewrite Cmp_ltb, Abs_spec. cbn [value exp].
    rewrite Z.shiftl_mul_pow2 by lia. change (2 ^ 1) with 2.
    rewrite (Z.max_l 0 (exp d + prec - exp d2)) by (subst e; lia).
    rewrite (Z.max_r 0 (exp d2 - (exp d + prec))) by (subst e; lia).
    replace (exp d2 - (exp d + prec)) with (- e) by (subst e; lia).
    change (10 ^ 0) with 1. rewrite Z.mul_1_r.
    rewrite (Z.mul_comm _ 2).
    rewrite Sub_same_exp, Add_same_exp.
    destruct (_ <? _); [reflexivity |]. destruct (_ <? _); reflexivity.
  - rewrite (Z.max_r 0 e) by lia. rewrite (Z.max_l 0 (- e)) by lia.
    change (10 ^ 0) with 1. rewrite !Z.mul_1_r.
    rewrite wrap32_wrap32_add.
    rewrite (wrap32_id (- prec + exp d2 + prec)) by lia.
    replace (- prec + exp d2 + prec) with (exp d2) by lia.
    rewrite Cmp_ltb, Abs_spec. cbn [value exp].
    rewrite Z.shiftl_mul_pow2 by lia. change (2 ^ 1) with 2.
    rewrite Z.sub_diag. cbn [Z.max Z.compare]. change (10 ^ 0) with 1.
    rewrite !Z.mul_1_r. rewrite (Z.mul_comm _ 2).
    rewrite Sub_same_exp, Add_same_exp.
    destruct (_ <? _); [reflexivity |]. destruct (_ <? _); reflexivity.
Qed.

Lemma ten_pow_split (e : Z) :
  (ten ^ e == inject_Z (10 ^ Z.max 0 e) / inject_Z (10 ^ Z.max 0 (- e)))%Q.
Proof.
  destruct (Z.le_gt_cases 0 e) as [H | H].
  - rewrite (Z.max_r 0 e) by lia. rewrite (Z.max_l 0 (- e)) by lia.
    rewrite <- ten_pow_Z by assumption. change (inject_Z (10 ^ 0)) with 1%Q. field.
  - rewrite (Z.max_l 0 e) by lia. rewrite (Z.max_r 0 (- e)) by lia.
    rewrite <- (ten_pow_Z (- e)) by lia.
    replace e with (- (- e)) at 1 by lia. rewrite Qpower_opp.
    change (inject_Z (10 ^ 0)) with 1%Q. field. apply ten_pow_nonzero.
Qed.

Lemma toQ_quotient (d d2 : Decimal) (prec : Z) :
  value d2 <> 0 ->
  (toQ d / toQ d2 * ten ^ prec ==
     inject_Z (value d * 10 ^ Z.max 0 (exp d - exp d2 + prec))
     / inject_Z (value d2 * 10 ^ Z.max 0 (- (exp d - exp d2 + prec))))%Q.
Proof.
  intros Hv2. unfold toQ.
  pose proof (inject_Z_nonzero _ Hv2) as Hn2.
  pose proof (ten_pow_nonzero (exp d2)) as Hn3.
  pose proof (pow10_max_pos (- (exp d - exp d2 + prec))) as Hpos.
  assert (Hn4 : ~ (inject_Z (10 ^ Z.max 0 (- (exp d - exp d2 + prec))) == 0)%Q)
    by (apply inject_Z_nonzero; lia).
  transitivity (inject_Z (value d) / inject_Z (value d2)
                * ten ^ (exp d - exp d2 + prec))%Q.
  - replace (exp d - exp d2 + prec) with (exp d + (- exp d2 + prec)) by lia.
    rewrite !ten_pow_add, Qpower_opp. field. split; assumption.
  - rewrite (ten_pow_split (exp d - exp d2 + prec)).
    rewrite !inject_Z_mult. field. split; assumption.
Qed.

(** [DivRound] returns the exact quotient rounded, half away from zero, at
    [prec] decimal places. *)
Lemma DivRound_exact {E} (d d2 : Decimal) (prec : Z) :
  0 <= prec < 2 ^ 31 ->
  value d2 <> 0 ->
  in_int32 (exp d2) = true ->
  in_int32 (exp d) = true ->
  in_int32 (exp d - exp d2 + prec) = true ->
  exists q, @DivRound E d d2 prec = Return q
            /\ exp q = - prec
            /\ (toQ q == round_to (toQ d / toQ d2) prec)%Q.
Proof.
  intros Hp Hv2 He2 Hed He.
  eexists. split; [apply DivRound_value; assumption |]. split; [reflexivity |].
  rewrite toQ_at. unfold round_to.
  rewrite (round_half_away_comp _ _ (toQ_quotient d d2 prec Hv2)).
  rewrite round_half_away_frac; [reflexivity |].
  pose proof (pow10_max_pos (- (exp d - exp d2 + prec))). nia.
Qed.

End Rounding.

(** ** The registry and the converter *)

Section Registry.
Import entities.

(** What the registry holds under a code. *)
Lemma registry_facts (code : string) (c : Currency) :
  CryptoCurrencies !! code = Some c ->
  Code c = code
  /\ 0 < value (RateToUSD c)
  /\ - 8 <= exp (RateToUSD c) <= - 2
  /\ (DecimalPlaces c = 6 \/ DecimalPlaces c = 8 \/ DecimalPlaces c = 18)
  /\ Strings.ToUpper code = code
  /\ code <> "".
Proof.
  intros H. unfold CryptoCurrencies in H.
  apply elem_of_list_to_map_2 in H.
  repeat (apply elem_of_cons in H as [H | H];
          [injection H as -> ->; cbn; repeat split; try lia; try tauto; discriminate |]).
  apply elem_of_nil in H. contradiction.
Qed.

Lemma GetCurrency_Return (code : string) (c : Currency) :
  GetCurrency code = Return c <-> CryptoCurrencies !! code = Some c.
Proof.
  unfold GetCurrency. destruct (CryptoCurrencies !! code); split; congruence.
Qed.

End Registry.

Section Converter.
Import Strings entities ExchangeQueryHandler.

Lemma NewFromString_nonempty (s : string) (a : Decimal) :
  NewFromString s = Return a -> s <> "".
Proof. intros H ->. discriminate H. Qed.

Lemma Mul_value {E} (d d2 : Decimal) :
  in_int32 (exp d + exp d2) = true ->
  @Mul E d d2 = Return (mkDecimal (value d * value d2) (exp d + exp d2)).
Proof. intros H. unfold Mul. rewrite H. reflexivity. Qed.

Lemma toQ_mul (v1 e1 v2 e2 : Z) :
  (toQ (mkDecimal (v1 * v2) (e1 + e2)) == toQ (mkDecimal v1 e1) * toQ (mkDecimal v2 e2))%Q.
Proof.
  unfold toQ; cbn [value exp]. rewrite inject_Z_mult, ten_pow_add. ring.
Qed.

Lemma Decimal_eta (d : Decimal) : mkDecimal (value d) (exp d) = d.
Proof. destruct d; reflexivity. Qed.

(** The value [Round] computes, in terms of the number its argument
    denotes. *)
Lemma Round_value_Q (d : Decimal) (p : Z) :
  Z.abs p < 2 ^ 31 ->
  Round d p = mkDecimal (round_half_away (toQ d * ten ^ p)) (- p).
Proof.
  intros Hp. rewrite Round_value by assumption. f_equal.
  rewrite (round_half_away_comp _ _ (toQ_shift d p)).
  symmetry. apply round_half_away_frac.
  pose proof (pow10_max_pos (- (exp d + p))). lia.
Qed.

Lemma Round_comp (d d' : Decimal) (p : Z) :
  Z.abs p < 2 ^ 31 -> (toQ d == toQ d')%Q -> Round d p = Round d' p.
Proof.
  intros Hp H. rewrite !Round_value_Q by assumption. f_equal.
  apply round_half_away_comp. rewrite H. reflexivity.
Qed.

(** Once the checks have passed, [Handle] is the arithmetic. *)
Lemma Handle_arith (q : ExchangeQuery) (amount : Decimal) (fc tc : Currency) :
  NewFromString (q_Amount q) = Return amount ->
  0 < value amount ->
  CryptoCurrencies !! normalize (q_From q) = Some fc ->
  CryptoCurrencies !! normalize (q_To q) = Some tc ->
  Handle q =
    (usdAmount <-! Mul amount (RateToUSD fc) ;;
     resultAmount <-! Div usdAmount (RateToUSD tc) ;;
     Return (mkExchangeResult (normalize (q_From q)) (normalize (q_To q))
               (RoundToDecimalPlaces tc resultAmount))).
Proof.
  intros Hparse Hpos Hf Ht. unfold Handle.
  destruct (registry_facts _ _ Hf) as (_ & _ & _ & _ & _ & Hfne).
  destruct (registry_facts _ _ Ht) as (_ & _ & _ & _ & _ & Htne).
  apply String.eqb_neq in Hfne, Htne. rewrite Hfne, Htne.
  pose proof (NewFromString_nonempty _ _ Hparse) as Hane.
  apply String.eqb_neq in Hane. rewrite Hane. cbn [orb].
  rewrite Hparse. rewrite LessThanOrEqual_Zero.
  destruct (Z.leb_spec (value amount) 0) as [? | _]; [lia |].
  unfold GetCurrency. rewrite Hf, Ht. reflexivity.
Qed.

(** The converter divides at 16 decimal places before it rounds to the
    scale of the target currency. *)
Lemma Handle_converts (q : ExchangeQuery) (amount : Decimal) (fc tc : Currency) :
  NewFromString (q_Amount q) = Return amount ->
  0 < value amount ->
  - 2 ^ 31 + 8 <= exp amount <= 2 ^ 31 - 23 ->
  CryptoCurrencies !! normalize (q_From q) = Some fc ->
  CryptoCurrencies !! normalize (q_To q) = Some tc ->
  exists res,
    Handle q = Return (mkExchangeResult (normalize (q_From q)) (normalize (q_To q))
                         (Round res (DecimalPlaces tc)))
    /\ exp res = - DivisionPrecision
    /\ (toQ res ==
          round_to (toQ amount * toQ (RateToUSD fc) / toQ (RateToUSD tc))
                   DivisionPrecision)%Q.
Proof.
  intros Hparse Hpos Hexp Hf Ht.
  rewrite (Handle_arith q amount fc tc) by assumption.
  destruct (registry_facts _ _ Hf) as (_ & Hfv & Hfe & _).
  destruct (registry_facts _ _ Ht) as (_ & Htv & Hte & _).
  rewrite Mul_value by (apply in_int32_iff; lia). cbn [obind].
  unfold Div, DivisionPrecision.
  destruct (DivRound_exact (E := error)
              (mkDecimal (value amount * value (RateToUSD fc))
                         (exp amount + exp (RateToUSD fc)))
              (RateToUSD tc) 16) as (res & Hdiv & Hrexp & Hres);
    cbn [value exp]; try (apply in_int32_iff; lia); try lia.
  exists res. rewrite Hdiv. cbn [obind]. split; [reflexivity |]. split; [exact Hrexp |].
  rewrite Hres. apply round_to_comp.
  rewrite toQ_mul, !Decimal_eta. reflexivity.
Qed.

End Converter.

Section ConverterClaims.
Import Strings entities ExchangeQueryHandler.

(** C1 (as amended).  For two currencies of the registry and a positive
    amount whose exponent leaves room in an [int32], [convert(from, to,
    amount)] returns [amount * rateToUSD[from] / rateToUSD[to]] rounded half
    away from zero at 16 decimal places, the division precision of the
    decimal library, and then rounded to [decimalPlaces[to]].  In particular
    convert(WBTC, USDT, 1.0) is 57094.314314, convert(GATE, WBTC, 100.0) is
    0.01204477 and convert(USDT, USDT, 100.0) is 100.000000. *)
Theorem convert_divides_at_16_then_rounds :
  (forall (q : ExchangeQuery) (amount : Decimal) (fc tc : Currency),
      NewFromString (q_Amount q) = Return amount ->
      0 < value amount ->
      - 2 ^ 31 + 8 <= exp amount <= 2 ^ 31 - 23 ->
      CryptoCurrencies !! normalize (q_From q) = Some fc ->
      CryptoCurrencies !! normalize (q_To q) = Some tc ->
      exists r,
        Handle q = Return r
        /\ From r = normalize (q_From q)
        /\ To r = normalize (q_To q)
        /\ exp (Amount r) = - DecimalPlaces tc
        /\ (toQ (Amount r) ==
              round_to
                (round_to (toQ amount * toQ (RateToUSD fc) / toQ (RateToUSD tc))
                          DivisionPrecision)
                (DecimalPlaces tc))%Q)
  /\ Handle (mkExchangeQuery "WBTC" "USDT" "1.0")
     = Return (mkExchangeResult "WBTC" "USDT" (mkDecimal 57094314314 (-6)))
  /\ Handle (mkExchangeQuery "GATE" "WBTC" "100.0")
     = Return (mkExchangeResult "GATE" "WBTC" (mkDecimal 1204477 (-8)))
  /\ Handle (mkExchangeQuery "USDT" "USDT" "100.0")
     = Return (mkExchangeResult "USDT" "USDT" (mkDecimal 100000000 (-6))).
Proof.
  split; [| repeat split; vm_compute; reflexivity].
  intros q amount fc tc Hparse Hpos Hexp Hf Ht.
  destruct (Handle_converts q amount fc tc Hparse Hpos Hexp Hf Ht)
    as (res & HH & Hrexp & Hres).
  destruct (registry_facts _ _ Ht) as (_ & _ & _ & Hdp & _).
  assert (Hp : Z.abs (DecimalPlaces tc) < 2 ^ 31) by lia.
  eexists. split; [exact HH |]. cbn [From To Amount].
  split; [reflexivity |]. split; [reflexivity |].
  split; [apply Round_exp; assumption |].
  rewrite Round_exact by assumption. apply round_to_comp. exact Hres.
Qed.

(** The statement above at one WBTC in USDT. *)
Lemma convert_divides_at_16_then_rounds_witness :
  exists r,
    Handle (mkExchangeQuery "WBTC" "USDT" "1.0") = Return r
    /\ From r = "WBTC"
    /\ To r = "USDT"
    /\ exp (Amount r) = - 6
    /\ (toQ (Amount r) ==
          round_to
            (round_to (toQ (mkDecimal 10 (-1)) * toQ (mkDecimal 5703722 (-2))
                       / toQ (mkDecimal 999 (-3))) 16) 6)%Q.
Proof.
  apply (proj1 convert_divides_at_16_then_rounds
           (mkExchangeQuery "WBTC" "USDT" "1.0") (mkDecimal 10 (-1))
           (mkCurrency "WBTC" 8 (mkDecimal 5703722 (-2)))
           (mkCurrency "USDT" 6 (mkDecimal 999 (-3)))).
  - reflexivity.
  - cbn. lia.
  - cbn. lia.
  - vm_compute. reflexivity.
  - vm_compute. reflexivity.
Defined.

(** C1 as stated fails.  One USDT in GATE: the code returns
    0.145414847161572100, the quotient 0.999 / 6.87 rounded to 18 places is
    0.145414847161572052. *)
Lemma convert_is_not_one_rounding :
  Handle (mkExchangeQuery "USDT" "GATE" "1")
  = Return (mkExchangeResult "USDT" "GATE" (mkDecimal 145414847161572100 (-18)))
  /\ NewFromString "1" = Return (mkDecimal 1 0)
  /\ CryptoCurrencies !! "USDT" = Some (mkCurrency "USDT" 6 (mkDecimal 999 (-3)))
  /\ CryptoCurrencies !! "GATE" = Some (mkCurrency "GATE" 18 (mkDecimal 687 (-2)))
  /\ ~ (toQ (mkDecimal 145414847161572100 (-18)) ==
          Spec.convert (toQ (mkDecimal 1 0)) (toQ (mkDecimal 999 (-3)))
                       (toQ (mkDecimal 687 (-2))) 18)%Q.
Proof.
  repeat split; try (vm_compute; reflexivity).
  unfold Qeq. vm_compute. discriminate.
Qed.

Lemma rdiv_mul_l (k b : Z) : 0 < b -> rdiv (k * b) b = k.
Proof.
  intros Hb. rewrite <- (Z.mul_1_l b) at 2.
  rewrite rdiv_scale by lia. apply rdiv_1_r.
Qed.


(** C8 (as amended).  For every currency C of the registry and every
    positive amount X with at most 16 decimal places (and an exponent that
    leaves room in an [int32]), [convert(C, C, X)] succeeds and returns X
    rounded to [decimalPlaces[C]], through the rounding step. *)
Theorem convert_same_currency :
  forall (q : ExchangeQuery) (amount : Decimal) (c : Currency),
    NewFromString (q_Amount q) = Return amount ->
    0 < value amount ->
    - DivisionPrecision <= exp amount <= 2 ^ 31 - 17 ->
    CryptoCurrencies !! normalize (q_From q) = Some c ->
    normalize (q_To q) = normalize (q_From q) ->
    Handle q = Return (mkExchangeResult (Code c) (Code c) (RoundToDecimalPlaces c amount))
    /\ exp (RoundToDecimalPlaces c amount) = - DecimalPlaces c
    /\ (toQ (RoundToDecimalPlaces c amount) == round_to (toQ amount) (DecimalPlaces c))%Q.
Proof.
  unfold DivisionPrecision.
  intros q amount c Hparse Hpos Hexp Hf Hto.
  assert (Ht : CryptoCurrencies !! normalize (q_To q) = Some c) by (rewrite Hto; exact Hf).
  destruct (registry_facts _ _ Hf) as (Hcode & Hv & He & Hdp & _).
  assert (Hp : Z.abs (DecimalPlaces c) < 2 ^ 31) by lia.
  unfold RoundToDecimalPlaces.
  split; [| split; [apply Round_exp; assumption | apply Round_exact; assumption]].
  rewrite (Handle_arith q amount c c) by assumption.
  rewrite Mul_value by (apply in_int32_iff; lia). cbn [obind].
  unfold Div, DivisionPrecision.
  rewrite DivRound_value; cbn [value exp]; try (apply in_int32_iff; lia); try lia.
  cbn [obind]. rewrite Hto, Hcode. unfold RoundToDecimalPlaces. do 2 f_equal.
  apply Round_comp; [assumption |].
  replace (exp amount + exp (RateToUSD c) - exp (RateToUSD c) + 16)
    with (exp amount + 16) by lia.
  rewrite (Z.max_r 0 (exp amount + 16)) by lia.
  rewrite (Z.max_l 0 (- (exp amount + 16))) by lia.
  change (10 ^ 0) with 1. rewrite Z.mul_1_r.
  replace (value amount * value (RateToUSD c) * 10 ^ (exp amount + 16))
    with (value amount * 10 ^ (exp amount + 16) * value (RateToUSD c)) by lia.
  rewrite rdiv_mul_l by assumption.
  unfold toQ; cbn [value exp].
  rewrite inject_Z_mult, <- ten_pow_Z by lia.
  rewrite <- Qmult_assoc, <- ten_pow_add.
  replace (exp amount + 16 + Z.opp 16) with (exp amount) by lia. reflexivity.
Qed.

(** The statement above at 100.0 USDT. *)
Lemma convert_same_currency_witness :
  Handle (mkExchangeQuery "USDT" "USDT" "100.0")
  = Return (mkExchangeResult "USDT" "USDT"
              (RoundToDecimalPlaces (mkCurrency "USDT" 6 (mkDecimal 999 (-3)))
                                    (mkDecimal 1000 (-1))))
  /\ exp (RoundToDecimalPlaces (mkCurrency "USDT" 6 (mkDecimal 999 (-3)))
                               (mkDecimal 1000 (-1))) = - 6
  /\ (toQ (RoundToDecimalPlaces (mkCurrency "USDT" 6 (mkDecimal 999 (-3)))
                                (mkDecimal 1000 (-1)))
      == round_to (toQ (mkDecimal 1000 (-1))) 6)%Q.
Proof.
  apply (convert_same_currency
           (mkExchangeQuery "USDT" "USDT" "100.0") (mkDecimal 1000 (-1))
           (mkCurrency "USDT" 6 (mkDecimal 999 (-3)))).
  - reflexivity.
  - cbn. lia.
  - unfold DivisionPrecision. cbn. lia.
  - vm_compute. reflexivity.
  - reflexivity.
Defined.

(** C8 as stated fails.  GATE has 18 decimal places and 0.00000000000000001
    GATE rounded to 18 places is itself, but the conversion of that amount
    from GATE to GATE returns zero: the division keeps 16 places. *)
Lemma convert_same_currency_loses_digits :
  Handle (mkExchangeQuery "GATE" "GATE" "0.00000000000000001")
  = Return (mkExchangeResult "GATE" "GATE" (mkDecimal 0 (-18)))
  /\ NewFromString "0.00000000000000001" = Return (mkDecimal 1 (-17))
  /\ CryptoCurrencies !! "GATE" = Some (mkCurrency "GATE" 18 (mkDecimal 687 (-2)))
  /\ RoundToDecimalPlaces (mkCurrency "GATE" 18 (mkDecimal 687 (-2))) (mkDecimal 1 (-17))
     = mkDecimal 10 (-18)
  /\ ~ (toQ (mkDecimal 0 (-18)) == round_to (toQ (mkDecimal 1 (-17))) 18)%Q.
Proof.
  repeat split; try (vm_compute; reflexivity).
  unfold Qeq. vm_compute. discriminate.
Qed.

End ConverterClaims.

Section Validation.
Import Strings entities ExchangeQueryHandler.

(** C7.  The converter validates in a fixed order: an empty [from], [to]
    (after trimming) or [amount] gives the parameter-required error; otherwise
    an amount that does not parse gives the invalid-amount error; otherwise an
    amount that is not positive gives "amount must be positive"; otherwise an
    unknown [from] gives "unsupported currency" naming [from], whatever [to]
    is; and then an unknown [to] gives "unsupported currency" naming [to].
    [from] and [to] are texts without a byte above 127, on which [normalize]
    is what [strings.ToUpper] and [strings.TrimSpace] compute. *)
Theorem convert_validation_order (q : ExchangeQuery) :
  isASCII (q_From q) = true ->
  isASCII (q_To q) = true ->
  let from := normalize (q_From q) in
  let to := normalize (q_To q) in
  ((from = "" \/ to = "" \/ q_Amount q = "") -> Handle q = Fail ErrParametersRequired)
  /\ (from <> "" -> to <> "" -> q_Amount q <> "" ->
      (forall err, NewFromString (q_Amount q) = Fail err ->
                   Handle q = Fail (ErrInvalidAmount err))
      /\ (forall amount, NewFromString (q_Amount q) = Return amount ->
            (value amount <= 0 -> Handle q = Fail ErrAmountNotPositive)
            /\ (0 < value amount ->
                (CryptoCurrencies !! from = None ->
                 Handle q = Fail (ErrUnsupportedCurrency from))
                /\ (forall fromCurrency,
                      CryptoCurrencies !! from = Some fromCurrency ->
                      CryptoCurrencies !! to = None ->
                      Handle q = Fail (ErrUnsupportedCurrency to))))).
Proof.
  intros _ _. cbv zeta. split.
  - intros H. unfold Handle.
    destruct (String.eqb_spec (normalize (q_From q)) ""); [reflexivity |].
    destruct (String.eqb_spec (normalize (q_To q)) ""); [reflexivity |].
    destruct (String.eqb_spec (q_Amount q) ""); [reflexivity |].
    tauto.
  - intros Hf Ht Ha. unfold Handle.
    apply String.eqb_neq in Hf, Ht, Ha. rewrite Hf, Ht, Ha. cbn [orb].
    split.
    + intros err ->. reflexivity.
    + intros amount ->. rewrite LessThanOrEqual_Zero. split.
      * intros Hle. apply Z.leb_le in Hle. rewrite Hle. reflexivity.
      * intros Hpos. apply Z.leb_gt in Hpos. rewrite Hpos.
        unfold GetCurrency. split.
        -- intros ->. reflexivity.
        -- intros fromCurrency -> ->. reflexivity.
Qed.

(** One query for each step of the order. *)
Lemma convert_validation_order_witness :
  Handle (mkExchangeQuery "" "USDT" "not-a-number") = Fail ErrParametersRequired
  /\ Handle (mkExchangeQuery "WBTC" "MATIC" "not-a-number")
     = Fail (ErrInvalidAmount ErrExponentNotNumeric)
  /\ Handle (mkExchangeQuery "MATIC" "DOGE" "-1.0") = Fail ErrAmountNotPositive
  /\ Handle (mkExchangeQuery "matic" "DOGE" "1.0") = Fail (ErrUnsupportedCurrency "MATIC")
  /\ Handle (mkExchangeQuery "WBTC" "doge" "1.0") = Fail (ErrUnsupportedCurrency "DOGE").
Proof.
  split; [| split; [| split; [| split]]].
  - apply (proj1 (convert_validation_order (mkExchangeQuery "" "USDT" "not-a-number")
                    eq_refl eq_refl)).
    left. reflexivity.
  - apply (proj1 (proj2 (convert_validation_order
                           (mkExchangeQuery "WBTC" "MATIC" "not-a-number")
                           eq_refl eq_refl)
                        ltac:(discriminate) ltac:(discriminate) ltac:(discriminate))).
    reflexivity.
  - apply (proj1 (proj2 (proj2 (convert_validation_order
                                  (mkExchangeQuery "MATIC" "DOGE" "-1.0")
                                  eq_refl eq_refl)
                               ltac:(discriminate) ltac:(discriminate) ltac:(discriminate))
                        (mkDecimal (-10) (-1)) eq_refl)).
    cbn. lia.
  - apply (proj1 (proj2 (proj2 (proj2 (convert_validation_order
                                         (mkExchangeQuery "matic" "DOGE" "1.0")
                                         eq_refl eq_refl)
                                      ltac:(discriminate) ltac:(discriminate)
                                      ltac:(discriminate))
                               (mkDecimal 10 (-1)) eq_refl)
                        ltac:(cbn; lia))).
    vm_compute. reflexivity.
  - apply (proj2 (proj2 (proj2 (proj2 (convert_validation_order
                                         (mkExchangeQuery "WBTC" "doge" "1.0")
                                         eq_refl eq_refl)
                                      ltac:(discriminate) ltac:(discriminate)
                                      ltac:(discriminate))
                               (mkDecimal 10 (-1)) eq_refl)
                        ltac:(cbn; lia))
             (mkCurrency "WBTC" 8 (mkDecimal 5703722 (-2)))).
    + vm_compute. reflexivity.
    + vm_compute. reflexivity.
Defined.

End Validation.

Section CaseFolding.
Import Strings entities ExchangeQueryHandler.

Lemma upper_byte_idem (c : ascii) : upper_byte (upper_byte c) = upper_byte c.
Proof. destruct c as [[] [] [] [] [] [] [] []]; reflexivity. Qed.

Lemma asciiSpace_upper (c : ascii) : asciiSpace (upper_byte c) = asciiSpace c.
Proof. destruct c as [[] [] [] [] [] [] [] []]; reflexivity. Qed.

Lemma ToUpper_idem (s : string) : ToUpper (ToUpper s) = ToUpper s.
Proof.
  induction s as [| c s IH]; cbn; [reflexivity |].
  rewrite upper_byte_idem, IH. reflexivity.
Qed.

Lemma trim_start_ToUpper (s : string) : trim_start (ToUpper s) = ToUpper (trim_start s).
Proof.
  induction s as [| c s IH]; cbn; [reflexivity |].
  rewrite asciiSpace_upper. destruct (asciiSpace c); [exact IH | reflexivity].
Qed.

Lemma trim_stop_ToUpper (s : string) : trim_stop (ToUpper s) = ToUpper (trim_stop s).
Proof.
  induction s as [| c s IH]; cbn; [reflexivity |].
  rewrite IH, asciiSpace_upper.
  destruct (trim_stop s) as [| c' r]; cbn.
  - destruct (asciiSpace c); reflexivity.
  - reflexivity.
Qed.

Lemma normalize_ToUpper (s : string) : normalize (ToUpper s) = normalize s.
Proof.
  unfold normalize, TrimSpace.
  rewrite trim_start_ToUpper, trim_stop_ToUpper. apply ToUpper_idem.
Qed.

(** C9.  The registry lookup matches codes without regard to case, by
    upper-casing the code before the table lookup: for every code [s] without
    a byte above 127, the lookup of [s] returns the same result as the lookup
    of [s] in upper case, and so the converter returns the same result for
    [from] and [to] as for their upper-case forms. *)
Theorem lookup_is_case_insensitive :
  (forall s : string,
      isASCII s = true -> registry_lookup s = registry_lookup (ToUpper s))
  /\ (forall q : ExchangeQuery,
         isASCII (q_From q) = true ->
         isASCII (q_To q) = true ->
         Handle q
         = Handle (mkExchangeQuery (ToUpper (q_From q)) (ToUpper (q_To q)) (q_Amount q))).
Proof.
  split.
  - intros s _. unfold registry_lookup. rewrite normalize_ToUpper. reflexivity.
  - intros q _ _. unfold Handle. cbn [q_From q_To q_Amount].
    rewrite !normalize_ToUpper. reflexivity.
Qed.

(** The statement above at a lower-case code and at a lower-case query with
    spaces. *)
Lemma lookup_is_case_insensitive_witness :
  (registry_lookup "usdt" = registry_lookup (ToUpper "usdt")
   /\ registry_lookup "usdt" = Return (mkCurrency "USDT" 6 (mkDecimal 999 (-3))))
  /\ Handle (mkExchangeQuery " wbtc" "usdt " "1.0")
     = Handle (mkExchangeQuery (ToUpper " wbtc") (ToUpper "usdt ") "1.0").
Proof.
  split; [split |].
  - apply (proj1 lookup_is_case_insensitive "usdt"). reflexivity.
  - vm_compute. reflexivity.
  - apply (proj2 lookup_is_case_insensitive
             (mkExchangeQuery " wbtc" "usdt " "1.0")); reflexivity.
Defined.

End CaseFolding.

Section CrossRates.
Import entities GetRatesQueryHandler.
Context {E : Type}.

Lemma calculateRate_present (rates : gmap string float64) (from to : string)
    (fromRate toRate : float64) :
  rates !! from = Some fromRate ->
  rates !! to = Some toRate ->
  calculateRate rates from to =
    if float_is_zero fromRate || float_is_zero toRate
    then Fail (ErrInvalidRate from fromRate to toRate)
    else Div (NewFromFloat toRate) (NewFromFloat fromRate).
Proof. intros Hf Ht. unfold calculateRate. rewrite Hf, Ht. reflexivity. Qed.


(** Dividing the decimals of two finite floats never panics. *)
Lemma Div_floats {E'} (toRate fromRate : float64) :
  float64_wf toRate = true ->
  float64_wf fromRate = true ->
  float_is_zero fromRate = false ->
  exists rate,
    @Div E' (NewFromFloat toRate) (NewFromFloat fromRate) = Return rate
    /\ exp rate = - DivisionPrecision
    /\ (toQ rate ==
          round_to (cross_rate (toQ (NewFromFloat toRate)) (toQ (NewFromFloat fromRate)))
                   DivisionPrecision)%Q.
Proof.
  unfold float64_wf, float_is_zero. intros Hwt Hwf Hnz.
  apply andb_true_iff in Hwt as [_ Hwt]. apply andb_true_iff in Hwf as [_ Hwf].
  apply Z.leb_le in Hwt, Hwf. apply Z.eqb_neq in Hnz.
  assert (Het : Z.abs (exp (NewFromFloat toRate)) <= 400).
  { unfold NewFromFloat, float_is_zero. destruct (f_digits toRate =? 0); cbn; lia. }
  assert (Hef : exp (NewFromFloat fromRate) = f_exp fromRate
                /\ value (NewFromFloat fromRate) = f_digits fromRate).
  { unfold NewFromFloat, float_is_zero.
    destruct (Z.eqb_spec (f_digits fromRate) 0); [contradiction | split; reflexivity]. }
  destruct Hef as [Hef Hvf].
  unfold Div, cross_rate, DivisionPrecision.
  apply DivRound_exact; try (apply in_int32_iff); lia.
Qed.

(** What the inner loop returns, fails with, or panics with. *)
Lemma inner_loop_outcome (rates : gmap string float64) (from : string)
    (tos : list string) (result : list ExchangeRate) :
  match inner_loop (E := E) rates from tos result with
  | Return res =>
      exists l,
        res = (result ++ l)%list
        /\ (forall x, x ∈ l ->
              rate_From x = from /\ rate_To x ∈ tos /\ rate_To x <> from
              /\ calculateRate rates from (rate_To x) = Return (Rate x))
        /\ (forall to, to ∈ tos -> to <> from ->
              exists rate, calculateRate rates from to = Return rate
                           /\ mkExchangeRate from to rate ∈ l)
  | Fail e =>
      exists to err,
        e = ErrCalculate from to err /\ to ∈ tos /\ to <> from
        /\ calculateRate rates from to = Fail err
  | Panic msg =>
      exists to, to ∈ tos /\ to <> from /\ calculateRate rates from to = Panic msg
  end.
Proof.
  revert result. induction tos as [| to tos IH]; intros result; cbn [inner_loop].
  - exists []. rewrite app_nil_r. split; [reflexivity |].
    split; intros ? H; apply elem_of_nil in H; contradiction.
  - destruct (String.eqb_spec from to) as [Heq | Hne]; cbn [negb].
    + specialize (IH result). destruct (inner_loop rates from tos result) as [res | e | msg].
      * destruct IH as (l & -> & Hall & Hcov). exists l. split; [reflexivity |]. split.
        -- intros x Hx. destruct (Hall x Hx) as (? & ? & ? & ?).
           repeat split; try assumption. apply elem_of_cons. right. assumption.
        -- intros to' Hin Hne'. apply elem_of_cons in Hin as [-> | Hin];
             [congruence | apply Hcov; assumption].
      * destruct IH as (to' & err & -> & Hin & Hne' & Hc).
        exists to', err. repeat split; try assumption. apply elem_of_cons. right. assumption.
      * destruct IH as (to' & Hin & Hne' & Hc).
        exists to'. repeat split; try assumption. apply elem_of_cons. right. assumption.
    + destruct (calculateRate rates from to) as [rate | err | msg] eqn:Hcalc.
      * specialize (IH (result ++ [mkExchangeRate from to rate])%list).
        destruct (inner_loop rates from tos _) as [res | e | msg].
        -- destruct IH as (l & -> & Hall & Hcov).
           exists (mkExchangeRate from to rate :: l). split.
           { rewrite <- app_assoc. reflexivity. }
           split.
           ++ intros x Hx. apply elem_of_cons in Hx as [-> | Hx].
              ** cbn. repeat split; try congruence. apply elem_of_cons. left. reflexivity.
              ** destruct (Hall x Hx) as (? & ? & ? & ?).
                 repeat split; try assumption. apply elem_of_cons. right. assumption.
           ++ intros to' Hin Hne'. apply elem_of_cons in Hin as [-> | Hin].
              ** exists rate. split; [assumption | apply elem_of_cons; left; reflexivity].
              ** destruct (Hcov to' Hin Hne') as (rate' & ? & ?).
                 exists rate'. split; [assumption | apply elem_of_cons; right; assumption].
        -- destruct IH as (to' & err & -> & Hin & Hne' & Hc).
           exists to', err. repeat split; try assumption. apply elem_of_cons. right. assumption.
        -- destruct IH as (to' & Hin & Hne' & Hc).
           exists to'. repeat split; try assumption. apply elem_of_cons. right. assumption.
      * exists to, err. repeat split; try congruence. apply elem_of_cons. left. reflexivity.
      * exists to. repeat split; try congruence. apply elem_of_cons. left. reflexivity.
Qed.

(** The same for the nested loops. *)
Lemma outer_loop_outcome (rates : gmap string float64) (froms currencies : list string)
    (result : list ExchangeRate) :
  match outer_loop (E := E) rates froms currencies result with
  | Return res =>
      exists l,
        res = (result ++ l)%list
        /\ (forall x, x ∈ l ->
              rate_From x ∈ froms /\ rate_To x ∈ currencies /\ rate_To x <> rate_From x
              /\ calculateRate rates (rate_From x) (rate_To x) = Return (Rate x))
        /\ (forall from to, from ∈ froms -> to ∈ currencies -> to <> from ->
              exists rate, calculateRate rates from to = Return rate
                           /\ mkExchangeRate from to rate ∈ l)
  | Fail e =>
      exists from to err,
        e = ErrCalculate from to err /\ from ∈ froms /\ to ∈ currencies /\ to <> from
        /\ calculateRate rates from to = Fail err
  | Panic msg =>
      exists from to,
        from ∈ froms /\ to ∈ currencies /\ to <> from
        /\ calculateRate rates from to = Panic msg
  end.
Proof.
  revert result. induction froms as [| from froms IH]; intros result; cbn [outer_loop].
  - exists []. rewrite app_nil_r. split; [reflexivity |]. split.
    + intros ? H. apply elem_of_nil in H. contradiction.
    + intros ? ? H. apply elem_of_nil in H. contradiction.
  - pose proof (inner_loop_outcome rates from currencies result) as Hin.
    destruct (inner_loop rates from currencies result) as [r | e | msg]; cbn [obind].
    + destruct Hin as (l1 & -> & Hall1 & Hcov1).
      specialize (IH (result ++ l1)%list).
      destruct (outer_loop rates froms currencies (result ++ l1)%list) as [res | e | msg].
      * destruct IH as (l2 & -> & Hall2 & Hcov2).
        exists (l1 ++ l2)%list. split; [rewrite app_assoc; reflexivity |]. split.
        -- intros x Hx. apply elem_of_app in Hx as [Hx | Hx].
           ++ destruct (Hall1 x Hx) as (Hf & ? & ? & ?).
              rewrite Hf. repeat split; try assumption. apply elem_of_cons. left. reflexivity.
           ++ destruct (Hall2 x Hx) as (? & ? & ? & ?).
              repeat split; try assumption. apply elem_of_cons. right. assumption.
        -- intros from' to Hf Ht Hne. apply elem_of_cons in Hf as [-> | Hf].
           ++ destruct (Hcov1 to Ht Hne) as (rate & ? & ?).
              exists rate. split; [assumption | apply elem_of_app; left; assumption].
           ++ destruct (Hcov2 from' to Hf Ht Hne) as (rate & ? & ?).
              exists rate. split; [assumption | apply elem_of_app; right; assumption].
      * destruct IH as (from' & to & err & -> & Hf & Ht & Hne & Hc).
        exists from', to, err. repeat split; try assumption. apply elem_of_cons. right. assumption.
      * destruct IH as (from' & to & Hf & Ht & Hne & Hc).
        exists from', to. repeat split; try assumption. apply elem_of_cons. right. assumption.
    + destruct Hin as (to & err & -> & Ht & Hne & Hc).
      exists from, to, err. repeat split; try assumption. apply elem_of_cons. left. reflexivity.
    + destruct Hin as (to & Ht & Hne & Hc).
      exists from, to. repeat split; try assumption. apply elem_of_cons. left. reflexivity.
Qed.

Lemma check_present_outcome (rates : gmap string float64) (currencies : list string) :
  match check_present (E := E) rates currencies with
  | Return _ => forall c, c ∈ currencies -> is_Some (rates !! c)
  | Fail e => exists c, e = ErrNotAvailable c /\ c ∈ currencies /\ rates !! c = None
  | Panic _ => False
  end.
Proof.
  induction currencies as [| c cs IH]; cbn [check_present].
  - intros ? H. apply elem_of_nil in H. contradiction.
  - destruct (rates !! c) as [r |] eqn:Hc.
    + destruct (check_present rates cs) as [[] | e | msg].
      * intros c' Hin. apply elem_of_cons in Hin as [-> | Hin]; [eauto | apply IH; assumption].
      * destruct IH as (c' & -> & Hin & Hnone). exists c'.
        repeat split; try assumption. apply elem_of_cons. right. assumption.
      * contradiction.
    + exists c. repeat split; try assumption. apply elem_of_cons. left. reflexivity.
Qed.









End CrossRates.

Section CrossRateWitnesses.
Import entities GetRatesQueryHandler TestRatesRepository.






End CrossRateWitnesses.

(** ** The circuit breaker and the resilient provider *)

Section Breaker.
Import gobreaker repositories.

Lemma wrapu32_small (z : Z) : 0 <= z < 2 ^ 32 -> wrapu32 z = z.
Proof. intros H. unfold wrapu32. apply Z.mod_small. exact H. Qed.

(** No timed transition is due on a closed breaker before its counting
    interval has elapsed, nor on an open one before its cool-down has
    elapsed. *)
Lemma currentState_closed (cb : CircuitBreaker) (E now : Z) :
  state cb = StateClosed -> expiry cb = Some E -> now <= E -> currentState cb now = cb.
Proof.
  intros Hst Hexp Hnow. unfold currentState. rewrite Hst, Hexp.
  cbn [expiry_is_zero expiry_before negb andb].
  rewrite (proj2 (Z.ltb_ge E now)) by lia. reflexivity.
Qed.

Lemma currentState_open (cb : CircuitBreaker) (T now : Z) :
  state cb = StateOpen -> expiry cb = Some T -> now <= T -> currentState cb now = cb.
Proof.
  intros Hst Hexp Hnow. unfold currentState. rewrite Hst, Hexp.
  cbn [expiry_before]. rewrite (proj2 (Z.ltb_ge T now)) by lia. reflexivity.
Qed.



(** While the breaker is open and the cool-down has not elapsed, a call is
    rejected: nothing is sent and nothing changes. *)
Lemma GetRates_open_rejected (r : RatesRepositoryImpl) (T now1 now2 now3 : Z) (http : HttpOutcome)
    (currencies : list string) (net : Network) :
  OpenExchangeAPIKey (config r) <> "" ->
  state (circuitBreaker r) = StateOpen ->
  expiry (circuitBreaker r) = Some T ->
  now1 <= T ->
  GetRates r now1 now2 now3 http currencies net = (Fail ErrUnavailable, r, net).
Proof.
  intros Hkey Hst Hexp Hnow. unfold GetRates.
  apply String.eqb_neq in Hkey. rewrite Hkey.
  unfold Execute, beforeRequest.
  rewrite (currentState_open _ T) by assumption.
  rewrite Hst. destruct r; reflexivity.
Qed.

(** A call on a closed breaker whose counting interval has not elapsed. *)
Lemma GetRates_closed (r : RatesRepositoryImpl) (E now1 now2 now3 : Z) (http : HttpOutcome)
    (currencies : list string) (net : Network) :
  OpenExchangeAPIKey (config r) <> "" ->
  state (circuitBreaker r) = StateClosed ->
  expiry (circuitBreaker r) = Some E ->
  now1 <= E -> now2 <= E ->
  GetRates r now1 now2 now3 http currencies net =
    let cb1 := with_counts (circuitBreaker r) (counts_onRequest (counts (circuitBreaker r))) in
    match fetchRatesFromAPI (config r) http currencies net with
    | (Return rates, net') =>
        (Return (rates, liveInfo),
         mkRatesRepositoryImpl (config r)
           (currentState (with_counts cb1 (counts_onSuccess (counts cb1))) now3), net')
    | (Fail e, net') =>
        (Fail (ErrFetch e),
         mkRatesRepositoryImpl (config r)
           (currentState
              (let cb2 := with_counts cb1 (counts_onFailure (counts cb1)) in
               if readyToTrip cb2 (counts cb2) then setState cb2 StateOpen now2 else cb2)
              now3),
         net')
    | (Panic msg, net') =>
        (Panic msg,
         mkRatesRepositoryImpl (config r)
           (let cb2 := with_counts cb1 (counts_onFailure (counts cb1)) in
            if readyToTrip cb2 (counts cb2) then setState cb2 StateOpen now2 else cb2),
         net')
    end.
Proof.
  intros Hkey Hst Hexp Hn1 Hn2. unfold GetRates.
  apply String.eqb_neq in Hkey. rewrite Hkey.
  unfold Execute, beforeRequest.
  rewrite (currentState_closed _ E) by assumption. rewrite Hst.
  destruct (fetchRatesFromAPI (config r) http currencies net) as [[rates | e | msg] net'];
    unfold afterRequest, CircuitBreaker_State;
    (rewrite (currentState_closed _ E now2);
     [| destruct (circuitBreaker r); assumption
      | destruct (circuitBreaker r); assumption | assumption]);
    (replace (generation (with_counts (circuitBreaker r)
                (counts_onRequest (counts (circuitBreaker r)))))
       with (generation (circuitBreaker r)) by (destruct (circuitBreaker r); reflexivity));
    rewrite Z.eqb_refl; cbn [negb];
    unfold onSuccess, onFailure;
    (replace (state (with_counts (circuitBreaker r)
                (counts_onRequest (counts (circuitBreaker r)))))
       with StateClosed by (destruct (circuitBreaker r); cbn in *; congruence));
    reflexivity.
Qed.

(** One counted failure on a closed breaker: the third in a row opens it. *)
Lemma closed_failure_step (r : RatesRepositoryImpl) (E n now1 now2 now3 : Z) (http : HttpOutcome)
    (currencies : list string) (net : Network) (e : fetch_error) :
  OpenExchangeAPIKey (config r) <> "" ->
  configured (circuitBreaker r) ->
  state (circuitBreaker r) = StateClosed ->
  expiry (circuitBreaker r) = Some E ->
  ConsecutiveFailures (counts (circuitBreaker r)) = n ->
  0 <= n <= 2 ->
  now1 <= E -> now2 <= E -> now3 <= E -> now3 <= now2 + 30 * second ->
  fst (fetchRatesFromAPI (config r) http currencies net) = Fail e ->
  exists r' net',
    GetRates r now1 now2 now3 http currencies net = (Fail (ErrFetch e), r', net')
    /\ config r' = config r
    /\ configured (circuitBreaker r')
    /\ (if n =? 2
        then state (circuitBreaker r') = StateOpen
             /\ expiry (circuitBreaker r') = Some (now2 + 30 * second)
        else state (circuitBreaker r') = StateClosed
             /\ expiry (circuitBreaker r') = Some E
             /\ ConsecutiveFailures (counts (circuitBreaker r')) = n + 1).
Proof.
  intros Hkey Hcfg Hst Hexp Hcf Hn Hn1 Hn2 Hn3 Hn3' Hfetch.
  rewrite (GetRates_closed r E now1 now2 now3) by assumption. cbv zeta.
  destruct (fetchRatesFromAPI (config r) http currencies net) as [o net'].
  cbn [fst] in Hfetch. subst o.
  destruct r as [cfg cb]. cbn [config circuitBreaker] in *.
  destruct cb as [mr iv to rt st gen cnt ex].
  destruct Hcfg as (Hmr & Hiv & Hto & Hrt). cbn in Hmr, Hiv, Hto, Hrt, Hst, Hexp, Hcf.
  subst mr iv to rt st ex.
  destruct cnt as [rq ts tf cs cf]. cbn in Hcf. subst cf.
  eexists _, net'. split; [reflexivity |]. split; [reflexivity |].
  unfold with_counts, counts_onRequest, counts_onFailure. cbn.
  rewrite (wrapu32_small (n + 1)) by lia.
  destruct (Z.eqb_spec n 2) as [-> | Hne].
  - cbn. rewrite (currentState_open _ (now2 + 30 * second)) by (cbn; try reflexivity; lia).
    unfold configured. cbn. repeat split; reflexivity.
  - destruct (Z.leb_spec 3 (n + 1)) as [? | _]; [lia |].
    rewrite (currentState_closed _ E) by (cbn; try reflexivity; lia).
    unfold configured. cbn. repeat split; reflexivity.
Qed.

(** C2.  On a closed breaker with no failure counted, three calls that fail
    one after the other, all of whose clock readings fall before the counting
    interval elapses, leave the breaker open with a cool-down of 30 seconds
    from the third failure; and every call that arrives before the cool-down
    has elapsed fails with the "service protection active" error, sends
    nothing to the network and leaves the breaker as it is. *)
Theorem breaker_opens_after_three_failures_and_fails_fast :
  forall (r0 : RatesRepositoryImpl) (E : Z) (c1 c2 c3 : Call) (net0 : Network),
    OpenExchangeAPIKey (config r0) <> "" ->
    configured (circuitBreaker r0) ->
    state (circuitBreaker r0) = StateClosed ->
    expiry (circuitBreaker r0) = Some E ->
    ConsecutiveFailures (counts (circuitBreaker r0)) = 0 ->
    (forall c, c ∈ [c1; c2; c3] ->
       call_now1 c <= E /\ call_now2 c <= E /\ call_now3 c <= E
       /\ call_now3 c <= call_now2 c + 30 * second
       /\ forall net, exists e,
            fst (fetchRatesFromAPI (config r0) (call_http c) (call_currencies c) net)
            = Fail e) ->
    exists e1 e2 e3 r3 net3,
      GetRates_seq r0 net0 [c1; c2; c3]
      = ([Fail (ErrFetch e1); Fail (ErrFetch e2); Fail (ErrFetch e3)], r3, net3)
      /\ state (circuitBreaker r3) = StateOpen
      /\ expiry (circuitBreaker r3) = Some (call_now2 c3 + 30 * second)
      /\ forall (now1 now2 now3 : Z) (http : HttpOutcome) (currencies : list string)
                (net : Network),
           now1 <= call_now2 c3 + 30 * second ->
           GetRates r3 now1 now2 now3 http currencies net = (Fail ErrUnavailable, r3, net).
Proof.
  intros r0 E c1 c2 c3 net0 Hkey Hcfg Hst Hexp Hcf Hcalls.
  destruct (Hcalls c1 ltac:(repeat constructor)) as (H1a & H1b & H1c & H1d & H1f).
  destruct (Hcalls c2 ltac:(repeat constructor)) as (H2a & H2b & H2c & H2d & H2f).
  destruct (Hcalls c3 ltac:(repeat constructor)) as (H3a & H3b & H3c & H3d & H3f).
  destruct (H1f net0) as (e1 & He1).
  destruct (closed_failure_step r0 E 0 _ _ _ _ _ net0 e1 Hkey Hcfg Hst Hexp Hcf
              ltac:(lia) H1a H1b H1c H1d He1)
    as (r1 & net1 & HG1 & Hc1 & Hcfg1 & Hst1 & Hexp1 & Hcf1).
  cbn in Hcf1.
  destruct (H2f net1) as (e2 & He2). rewrite <- Hc1 in He2.
  destruct (closed_failure_step r1 E 1 _ _ _ _ _ net1 e2 ltac:(congruence) Hcfg1 Hst1 Hexp1
              Hcf1 ltac:(lia) H2a H2b H2c H2d He2)
    as (r2 & net2 & HG2 & Hc2 & Hcfg2 & Hst2 & Hexp2 & Hcf2).
  cbn in Hcf2.
  destruct (H3f net2) as (e3 & He3). rewrite <- Hc1, <- Hc2 in He3.
  destruct (closed_failure_step r2 E 2 _ _ _ _ _ net2 e3 ltac:(congruence) Hcfg2 Hst2 Hexp2
              Hcf2 ltac:(lia) H3a H3b H3c H3d He3)
    as (r3 & net3 & HG3 & Hc3 & Hcfg3 & Hst3 & Hexp3).
  exists e1, e2, e3, r3, net3. cbn [GetRates_seq].
  rewrite HG1, HG2, HG3. split; [reflexivity |].
  split; [exact Hst3 |]. split; [exact Hexp3 |].
  intros now1 now2 now3 http currencies net Hnow.
  apply (GetRates_open_rejected r3 (call_now2 c3 + 30 * second)); try assumption.
  congruence.
Qed.

(** Once the cool-down has elapsed, the next call finds the breaker
    half-open, in a new generation with cleared counts. *)
Lemma GetRates_open_elapsed (r : RatesRepositoryImpl) (T now1 now2 now3 : Z) (http : HttpOutcome)
    (currencies : list string) (net : Network) :
  OpenExchangeAPIKey (config r) <> "" ->
  state (circuitBreaker r) = StateOpen ->
  expiry (circuitBreaker r) = Some T ->
  T < now1 ->
  GetRates r now1 now2 now3 http currencies net
  = GetRates (mkRatesRepositoryImpl (config r) (setState (circuitBreaker r) StateHalfOpen now1))
             now1 now2 now3 http currencies net.
Proof.
  intros Hkey Hst Hexp Hnow. unfold GetRates. cbn [config circuitBreaker].
  apply String.eqb_neq in Hkey. rewrite Hkey.
  unfold Execute, beforeRequest.
  assert (Hcur : currentState (circuitBreaker r) now1
                 = setState (circuitBreaker r) StateHalfOpen now1).
  { unfold currentState. rewrite Hst, Hexp. cbn [expiry_before].
    rewrite (proj2 (Z.ltb_lt T now1)) by lia. reflexivity. }
  assert (Hcur' : currentState (setState (circuitBreaker r) StateHalfOpen now1) now1
                  = setState (circuitBreaker r) StateHalfOpen now1).
  { unfold currentState, setState. rewrite Hst. reflexivity. }
  rewrite Hcur, Hcur'. reflexivity.
Qed.

(** A trial call on a half-open breaker with fewer than three requests
    admitted so far. *)
Lemma GetRates_half_open (r : RatesRepositoryImpl) (k s now1 now2 now3 : Z) (http : HttpOutcome)
    (currencies : list string) (net : Network) :
  OpenExchangeAPIKey (config r) <> "" ->
  configured (circuitBreaker r) ->
  state (circuitBreaker r) = StateHalfOpen ->
  Requests (counts (circuitBreaker r)) = k -> 0 <= k < 3 ->
  ConsecutiveSuccesses (counts (circuitBreaker r)) = s -> 0 <= s < 3 ->
  exists r',
    config r' = config r
    /\ configured (circuitBreaker r')
    /\ match fetchRatesFromAPI (config r) http currencies net with
       | (Return rates, net') =>
           GetRates r now1 now2 now3 http currencies net
           = (Return (rates, liveInfo), r', net')
           /\ (if s =? 2
               then state (circuitBreaker r') = StateClosed
               else state (circuitBreaker r') = StateHalfOpen
                    /\ Requests (counts (circuitBreaker r')) = k + 1
                    /\ ConsecutiveSuccesses (counts (circuitBreaker r')) = s + 1)
       | (Fail e, net') =>
           GetRates r now1 now2 now3 http currencies net = (Fail (ErrFetch e), r', net')
           /\ (now3 <= now2 + 30 * second ->
               state (circuitBreaker r') = StateOpen
               /\ expiry (circuitBreaker r') = Some (now2 + 30 * second))
       | (Panic msg, net') =>
           GetRates r now1 now2 now3 http currencies net = (Panic msg, r', net')
           /\ state (circuitBreaker r') = StateOpen
       end.
Proof.
  intros Hkey Hcfg Hst Hk Hkr Hs Hsr. unfold GetRates.
  apply String.eqb_neq in Hkey. rewrite Hkey.
  destruct r as [cfg cb]. cbn [config circuitBreaker] in *.
  destruct cb as [mr iv to rt st gen cnt ex].
  destruct Hcfg as (Hmr & Hiv & Hto & Hrt). cbn in Hmr, Hiv, Hto, Hrt, Hst, Hk, Hs.
  subst mr iv to rt st.
  destruct cnt as [rq ts tf cs cf]. cbn in Hk, Hs. subst rq cs.
  unfold Execute, beforeRequest, currentState, with_counts. cbn.
  destruct (Z.leb_spec 3 k) as [? | _]; [lia |]. cbn.
  destruct (fetchRatesFromAPI cfg http currencies net) as [[rates | e | msg] net'];
    unfold afterRequest, CircuitBreaker_State, currentState, with_counts; cbn;
    rewrite Z.eqb_refl; cbn.
  - rewrite (wrapu32_small (s + 1)) by lia.
    destruct (Z.eqb_spec s 2) as [-> | Hne].
    + change (3 <=? 2 + 1) with true. cbn.
      change (60 * second =? 0) with false. cbn.
      destruct (now2 + 60 * second <? now3).
      * eexists. split; [| split; [| split; [reflexivity |]]];
          [reflexivity | unfold configured; cbn; repeat split; reflexivity |].
        reflexivity.
      * eexists. split; [| split; [| split; [reflexivity |]]];
          [reflexivity | unfold configured; cbn; repeat split; reflexivity |].
        reflexivity.
    + destruct (Z.leb_spec 3 (s + 1)) as [? | _]; [lia |]. cbn.
      eexists. split; [| split; [| split; [reflexivity |]]];
        [reflexivity | unfold configured; cbn; repeat split; reflexivity |].
      unfold with_counts, counts_onSuccess, counts_onRequest. cbn.
      rewrite (wrapu32_small (s + 1)) by lia. rewrite (wrapu32_small (k + 1)) by lia.
      repeat split; reflexivity.
  - destruct (Z.ltb_spec (now2 + 30 * second) now3) as [Hlt | Hge].
    + eexists. split; [| split; [| split; [reflexivity |]]];
        [reflexivity | unfold configured; cbn; repeat split; reflexivity |].
      intros ?. lia.
    + eexists. split; [| split; [| split; [reflexivity |]]];
        [reflexivity | unfold configured; cbn; repeat split; reflexivity |].
      intros _. cbn. split; reflexivity.
  - eexists. split; [| split; [| split; [reflexivity |]]];
      [reflexivity | unfold configured; cbn; repeat split; reflexivity |].
    reflexivity.
Qed.

(** With three requests admitted, the half-open breaker rejects the next. *)
Lemma GetRates_half_open_full (r : RatesRepositoryImpl) (now1 now2 now3 : Z) (http : HttpOutcome)
    (currencies : list string) (net : Network) :
  OpenExchangeAPIKey (config r) <> "" ->
  configured (circuitBreaker r) ->
  state (circuitBreaker r) = StateHalfOpen ->
  3 <= Requests (counts (circuitBreaker r)) ->
  GetRates r now1 now2 now3 http currencies net = (Fail ErrRateLimited, r, net).
Proof.
  intros Hkey (Hmr & _) Hst Hreq. unfold GetRates.
  apply String.eqb_neq in Hkey. rewrite Hkey.
  destruct r as [cfg cb]. cbn [config circuitBreaker] in *.
  destruct cb as [mr iv to rt st gen cnt ex]. cbn in Hmr, Hst, Hreq. subst mr st.
  unfold Execute, beforeRequest, currentState. cbn.
  destruct (Z.leb_spec 3 (Requests cnt)) as [_ | ?]; [| lia].
  reflexivity.
Qed.

(** C3 (as amended).  After the cool-down has elapsed the next call is let
    through as a trial and the breaker is half-open.  It stays half-open
    after one and after two successful trials and is closed after the third
    in a row; a trial that fails opens it again for 30 seconds; and once
    three trials have been admitted, a further call is rejected with the
    "too many requests" error and sends nothing. *)
Theorem half_open_admits_three_trials_and_closes_after_three_successes :
  (forall (r0 : RatesRepositoryImpl) (T : Z) (c1 c2 c3 : Call) (net0 : Network),
      OpenExchangeAPIKey (config r0) <> "" ->
      configured (circuitBreaker r0) ->
      state (circuitBreaker r0) = StateOpen ->
      expiry (circuitBreaker r0) = Some T ->
      T < call_now1 c1 ->
      (forall c, c ∈ [c1; c2; c3] ->
         forall net, exists rates,
           fst (fetchRatesFromAPI (config r0) (call_http c) (call_currencies c) net)
           = Return rates) ->
      exists o1 o2 o3 r1 r2 r3 net1 net2 net3,
        GetRates_seq r0 net0 [c1] = ([Return o1], r1, net1)
        /\ state (circuitBreaker r1) = StateHalfOpen
        /\ GetRates_seq r0 net0 [c1; c2] = ([Return o1; Return o2], r2, net2)
        /\ state (circuitBreaker r2) = StateHalfOpen
        /\ GetRates_seq r0 net0 [c1; c2; c3] = ([Return o1; Return o2; Return o3], r3, net3)
        /\ state (circuitBreaker r3) = StateClosed)
  /\ (forall (r : RatesRepositoryImpl) (now1 now2 now3 : Z) (http : HttpOutcome)
             (currencies : list string) (net : Network) (e : fetch_error),
         OpenExchangeAPIKey (config r) <> "" ->
         configured (circuitBreaker r) ->
         state (circuitBreaker r) = StateHalfOpen ->
         0 <= Requests (counts (circuitBreaker r)) < 3 ->
         0 <= ConsecutiveSuccesses (counts (circuitBreaker r)) < 3 ->
         now3 <= now2 + 30 * second ->
         fst (fetchRatesFromAPI (config r) http currencies net) = Fail e ->
         exists r' net',
           GetRates r now1 now2 now3 http currencies net = (Fail (ErrFetch e), r', net')
           /\ state (circuitBreaker r') = StateOpen
           /\ expiry (circuitBreaker r') = Some (now2 + 30 * second))
  /\ (forall (r : RatesRepositoryImpl) (now1 now2 now3 : Z) (http : HttpOutcome)
             (currencies : list string) (net : Network),
         OpenExchangeAPIKey (config r) <> "" ->
         configured (circuitBreaker r) ->
         state (circuitBreaker r) = StateHalfOpen ->
         3 <= Requests (counts (circuitBreaker r)) ->
         GetRates r now1 now2 now3 http currencies net = (Fail ErrRateLimited, r, net)).
Proof.
  split; [| split].
  - intros r0 T c1 c2 c3 net0 Hkey Hcfg Hst Hexp Hnow Hcalls.
    pose proof (Hcalls c1 ltac:(repeat constructor)) as H1f.
    pose proof (Hcalls c2 ltac:(repeat constructor)) as H2f.
    pose proof (Hcalls c3 ltac:(repeat constructor)) as H3f.
    cbn [GetRates_seq].
    rewrite (GetRates_open_elapsed r0 T) by assumption.
    set (rh := mkRatesRepositoryImpl (config r0) (setState (circuitBreaker r0) StateHalfOpen (call_now1 c1))).
    assert (Hrh : OpenExchangeAPIKey (config rh) <> ""
                  /\ configured (circuitBreaker rh)
                  /\ state (circuitBreaker rh) = StateHalfOpen
                  /\ Requests (counts (circuitBreaker rh)) = 0
                  /\ ConsecutiveSuccesses (counts (circuitBreaker rh)) = 0).
    { subst rh. destruct r0 as [cfg cb]. cbn [config circuitBreaker] in *.
      destruct cb as [mr iv to rt st gen cnt ex].
      destruct Hcfg as (Hmr & Hiv & Hto & Hrt). cbn in Hmr, Hiv, Hto, Hrt, Hst.
      subst mr iv to rt st. cbn. unfold configured. cbn. repeat split; try reflexivity.
      exact Hkey. }
    destruct Hrh as (Hkey0 & Hcfg0 & Hst0 & Hk0 & Hs0).
    destruct (GetRates_half_open rh 0 0 (call_now1 c1) (call_now2 c1) (call_now3 c1)
                (call_http c1) (call_currencies c1) net0 Hkey0 Hcfg0 Hst0 Hk0
                ltac:(lia) Hs0 ltac:(lia))
      as (r1 & Hc1 & Hcfg1 & HG1).
    destruct (H1f net0) as (o1 & Ho1). change (config rh) with (config r0) in HG1, Hc1.
    destruct (fetchRatesFromAPI (config r0) (call_http c1) (call_currencies c1) net0)
      as [x1 net1]. cbn [fst] in Ho1. subst x1.
    destruct HG1 as (HG1 & Hst1 & Hk1 & Hs1). cbn in Hk1, Hs1.
    destruct (GetRates_half_open r1 1 1 (call_now1 c2) (call_now2 c2) (call_now3 c2)
                (call_http c2) (call_currencies c2) net1 ltac:(congruence) Hcfg1 Hst1 Hk1
                ltac:(lia) Hs1 ltac:(lia))
      as (r2 & Hc2 & Hcfg2 & HG2).
    destruct (H2f net1) as (o2 & Ho2). rewrite Hc1 in HG2.
    destruct (fetchRatesFromAPI (config r0) (call_http c2) (call_currencies c2) net1)
      as [x2 net2]. cbn [fst] in Ho2. subst x2.
    destruct HG2 as (HG2 & Hst2 & Hk2 & Hs2). cbn in Hk2, Hs2.
    destruct (GetRates_half_open r2 2 2 (call_now1 c3) (call_now2 c3) (call_now3 c3)
                (call_http c3) (call_currencies c3) net2 ltac:(congruence) Hcfg2 Hst2 Hk2
                ltac:(lia) Hs2 ltac:(lia))
      as (r3 & Hc3 & Hcfg3 & HG3).
    destruct (H3f net2) as (o3 & Ho3). rewrite Hc2, Hc1 in HG3.
    destruct (fetchRatesFromAPI (config r0) (call_http c3) (call_currencies c3) net2)
      as [x3 net3]. cbn [fst] in Ho3. subst x3.
    destruct HG3 as (HG3 & Hst3).
    exists (o1, liveInfo), (o2, liveInfo), (o3, liveInfo), r1, r2, r3, net1, net2, net3.
    rewrite HG1, HG2, HG3. repeat split; assumption.
  - intros r now1 now2 now3 http currencies net e Hkey Hcfg Hst Hk Hs Hn3 Hfetch.
    destruct (GetRates_half_open r _ _ now1 now2 now3 http currencies net Hkey Hcfg Hst
                eq_refl Hk eq_refl Hs) as (r' & _ & _ & HG).
    destruct (fetchRatesFromAPI (config r) http currencies net) as [x net'].
    cbn [fst] in Hfetch. subst x. exists r', net'.
    destruct HG as [HG Hopen]. split; [exact HG | exact (Hopen Hn3)].
  - intros r now1 now2 now3 http currencies net Hkey Hcfg Hst Hreq.
    apply GetRates_half_open_full; assumption.
Qed.

(** The statement above for a new repository and a server that answers
    500. *)
Lemma breaker_opens_after_three_failures_and_fails_fast_witness :
  exists e1 e2 e3 r3 net3,
    GetRates_seq (NewRatesRepositoryImpl test_config 0) []
      [ mkCall (1 * second) (1 * second) (1 * second) server_error ["USD"; "EUR"];
        mkCall (2 * second) (2 * second) (2 * second) server_error ["USD"; "EUR"];
        mkCall (3 * second) (3 * second) (3 * second) server_error ["USD"; "EUR"] ]
    = ([Fail (ErrFetch e1); Fail (ErrFetch e2); Fail (ErrFetch e3)], r3, net3)
    /\ state (circuitBreaker r3) = StateOpen
    /\ expiry (circuitBreaker r3) = Some (3 * second + 30 * second)
    /\ forall (now1 now2 now3 : Z) (http : HttpOutcome) (currencies : list string)
              (net : Network),
         now1 <= 3 * second + 30 * second ->
         GetRates r3 now1 now2 now3 http currencies net = (Fail ErrUnavailable, r3, net).
Proof.
  apply (breaker_opens_after_three_failures_and_fails_fast
           (NewRatesRepositoryImpl test_config 0) (60 * second)).
  - discriminate.
  - unfold configured. cbn. repeat split; reflexivity.
  - reflexivity.
  - reflexivity.
  - reflexivity.
  - intros c Hc.
    repeat (apply elem_of_cons in Hc as [-> | Hc];
            [cbn [call_now1 call_now2 call_now3 call_http call_currencies]; unfold second;
             split; [lia | split; [lia | split; [lia | split; [lia |
               intros net; eexists; reflexivity]]]] |]).
    apply elem_of_nil in Hc. contradiction.
Defined.

(** The statement above for an open breaker whose cool-down ended at 33
    seconds. *)
Lemma half_open_admits_three_trials_and_closes_after_three_successes_witness :
  exists o1 o2 o3 r1 r2 r3 net1 net2 net3,
    GetRates_seq
      (mkRatesRepositoryImpl test_config
         (mkCircuitBreaker 3 (60 * second) (30 * second)
            (fun counts => 3 <=? ConsecutiveFailures counts)
            StateOpen 2 counts_clear (Some (33 * second))))
      []
      [ mkCall (34 * second) (34 * second) (34 * second) server_eur ["USD"; "EUR"] ]
    = ([Return o1], r1, net1)
    /\ state (circuitBreaker r1) = StateHalfOpen
    /\ GetRates_seq
         (mkRatesRepositoryImpl test_config
            (mkCircuitBreaker 3 (60 * second) (30 * second)
               (fun counts => 3 <=? ConsecutiveFailures counts)
               StateOpen 2 counts_clear (Some (33 * second))))
         []
         [ mkCall (34 * second) (34 * second) (34 * second) server_eur ["USD"; "EUR"];
           mkCall (35 * second) (35 * second) (35 * second) server_eur ["USD"; "EUR"] ]
       = ([Return o1; Return o2], r2, net2)
    /\ state (circuitBreaker r2) = StateHalfOpen
    /\ GetRates_seq
         (mkRatesRepositoryImpl test_config
            (mkCircuitBreaker 3 (60 * second) (30 * second)
               (fun counts => 3 <=? ConsecutiveFailures counts)
               StateOpen 2 counts_clear (Some (33 * second))))
         []
         [ mkCall (34 * second) (34 * second) (34 * second) server_eur ["USD"; "EUR"];
           mkCall (35 * second) (35 * second) (35 * second) server_eur ["USD"; "EUR"];
           mkCall (36 * second) (36 * second) (36 * second) server_eur ["USD"; "EUR"] ]
       = ([Return o1; Return o2; Return o3], r3, net3)
    /\ state (circuitBreaker r3) = StateClosed.
Proof.
  apply (proj1 half_open_admits_three_trials_and_closes_after_three_successes
           (mkRatesRepositoryImpl test_config
              (mkCircuitBreaker 3 (60 * second) (30 * second)
                 (fun counts => 3 <=? ConsecutiveFailures counts)
                 StateOpen 2 counts_clear (Some (33 * second))))
           (33 * second)).
  - discriminate.
  - unfold configured. cbn. repeat split; reflexivity.
  - reflexivity.
  - reflexivity.
  - cbn [call_now1]. unfold second. lia.
  - intros c Hc.
    repeat (apply elem_of_cons in Hc as [-> | Hc];
            [intros net; eexists; reflexivity |]).
    apply elem_of_nil in Hc. contradiction.
Defined.

(** C3 as stated fails.  Three failures, then a successful call after the
    cool-down: the breaker is half-open, not closed, and the next call is a
    second trial that reaches the network. *)
Lemma one_successful_trial_does_not_close :
  state (circuitBreaker (snd (fst
    (GetRates_seq (NewRatesRepositoryImpl test_config 0) []
       [ mkCall (1 * second) (1 * second) (1 * second) server_error ["USD"; "EUR"];
         mkCall (2 * second) (2 * second) (2 * second) server_error ["USD"; "EUR"];
         mkCall (3 * second) (3 * second) (3 * second) server_error ["USD"; "EUR"];
         mkCall (34 * second) (34 * second) (34 * second) server_eur ["USD"; "EUR"] ]))))
  = StateHalfOpen
  /\ exists rates r5 net5,
       GetRates_seq (NewRatesRepositoryImpl test_config 0) []
         [ mkCall (1 * second) (1 * second) (1 * second) server_error ["USD"; "EUR"];
           mkCall (2 * second) (2 * second) (2 * second) server_error ["USD"; "EUR"];
           mkCall (3 * second) (3 * second) (3 * second) server_error ["USD"; "EUR"];
           mkCall (34 * second) (34 * second) (34 * second) server_eur ["USD"; "EUR"];
           mkCall (35 * second) (35 * second) (35 * second) server_eur ["USD"; "EUR"] ]
       = ([ Fail (ErrFetch (ErrStatus 500)); Fail (ErrFetch (ErrStatus 500));
            Fail (ErrFetch (ErrStatus 500));
            Return (rates, liveInfo); Return (rates, liveInfo) ], r5, net5)
       /\ length net5 = 5%nat
       /\ state (circuitBreaker r5) = StateHalfOpen.
Proof.
  split; [vm_compute; reflexivity |].
  eexists _, _, _. split; [vm_compute; reflexivity |].
  split; vm_compute; reflexivity.
Qed.

End Breaker.

Section ResponseMapping.
Import gobreaker repositories.

Lemma base_loop_spec (currencies : list string) (result : gmap string float64) :
  base_loop currencies result
  = if decide ("USD" ∈ currencies) then <["USD" := mkFloat 1 0]> result else result.
Proof.
  induction currencies as [| c cs IH]; cbn [base_loop].
  - destruct (decide ("USD" ∈ [])) as [H | _]; [| reflexivity].
    apply elem_of_nil in H. contradiction.
  - destruct (String.eqb_spec c "USD") as [-> | Hne].
    + destruct (decide ("USD" ∈ "USD" :: cs)) as [_ | H]; [reflexivity |].
      exfalso. apply H. apply elem_of_cons. left. reflexivity.
    + rewrite IH.
      destruct (decide ("USD" ∈ cs)) as [H | H];
        destruct (decide ("USD" ∈ c :: cs)) as [H' | H']; try reflexivity.
      * exfalso. apply H'. apply elem_of_cons. right. exact H.
      * exfalso. apply elem_of_cons in H' as [H' | H']; [congruence | contradiction].
Qed.

(** The second loop of the mapping: all found, or the first one missing. *)
Lemma rates_loop_outcome (upstream : gmap string float64) (currencies : list string)
    (result : gmap string float64) :
  match rates_loop upstream currencies result with
  | Return res =>
      (forall c, c ∈ currencies -> c <> "USD" -> is_Some (upstream !! c))
      /\ (forall c, res !! c = if decide (c ∈ currencies /\ c <> "USD")
                               then upstream !! c else result !! c)
  | Fail e =>
      exists pre c post,
        currencies = (pre ++ c :: post)%list
        /\ e = ErrNotSupportedByProvider c
        /\ c <> "USD"
        /\ upstream !! c = None
        /\ (forall c', c' ∈ pre -> c' <> "USD" -> is_Some (upstream !! c'))
  | Panic _ => False
  end.
Proof.
  revert result. induction currencies as [| c cs IH]; intros result; cbn [rates_loop].
  - split.
    + intros c H. apply elem_of_nil in H. contradiction.
    + intros c. destruct (decide (c ∈ [] /\ c <> "USD")) as [[H _] | _]; [| reflexivity].
      apply elem_of_nil in H. contradiction.
  - destruct (String.eqb_spec c "USD") as [-> | Hne]; cbn [negb].
    + specialize (IH result). destruct (rates_loop upstream cs result) as [res | e | msg].
      * destruct IH as [Hall Hres]. split.
        -- intros c Hin Hc. apply elem_of_cons in Hin as [-> | Hin];
             [congruence | apply Hall; assumption].
        -- intros c. rewrite Hres.
           destruct (decide (c ∈ cs /\ c <> "USD")) as [[H1 H2] | H];
             destruct (decide (c ∈ "USD" :: cs /\ c <> "USD")) as [[H1' H2'] | H'];
             try reflexivity.
           ++ exfalso. apply H'. split; [apply elem_of_cons; right |]; assumption.
           ++ exfalso. apply elem_of_cons in H1' as [-> | H1']; [congruence |].
              apply H. split; assumption.
      * destruct IH as (pre & c & post & -> & -> & Hc & Hnone & Hpre).
        exists ("USD" :: pre), c, post. repeat split; try assumption.
        intros c' Hin Hc'. apply elem_of_cons in Hin as [-> | Hin];
          [congruence | apply Hpre; assumption].
      * contradiction.
    + destruct (upstream !! c) as [rate |] eqn:Hup.
      * specialize (IH (<[c := rate]> result)).
        destruct (rates_loop upstream cs (<[c := rate]> result)) as [res | e | msg].
        -- destruct IH as [Hall Hres]. split.
           ++ intros c' Hin Hc'. apply elem_of_cons in Hin as [-> | Hin];
                [eauto | apply Hall; assumption].
           ++ intros c'. rewrite Hres.
              destruct (decide (c' ∈ cs /\ c' <> "USD")) as [[H1 H2] | H];
                destruct (decide (c' ∈ c :: cs /\ c' <> "USD")) as [[H1' H2'] | H'];
                try reflexivity.
              ** exfalso. apply H'. split; [apply elem_of_cons; right |]; assumption.
              ** apply elem_of_cons in H1' as [-> | H1'].
                 --- rewrite lookup_insert_eq. symmetry. exact Hup.
                 --- exfalso. apply H. split; assumption.
              ** destruct (decide (c = c')) as [-> | Hcc].
                 --- destruct (decide (c' = "USD")) as [-> | Hu]; [congruence |].
                     exfalso. apply H'. split; [apply elem_of_cons; left; reflexivity | exact Hu].
                 --- apply lookup_insert_ne. exact Hcc.
        -- destruct IH as (pre & c' & post & -> & -> & Hc & Hnone & Hpre).
           exists (c :: pre), c', post. repeat split; try assumption.
           intros c'' Hin Hc''. apply elem_of_cons in Hin as [-> | Hin];
             [eauto | apply Hpre; assumption].
        -- contradiction.
      * exists [], c, cs. repeat split; try assumption.
        intros c' H. apply elem_of_nil in H. contradiction.
Qed.

Lemma first_unique {A : Type} (P : A -> Prop) (pre0 : list A) (c0 : A) (post0 : list A)
    (pre : list A) (c : A) (post : list A) :
  (pre0 ++ c0 :: post0 = pre ++ c :: post)%list ->
  P c0 -> P c ->
  (forall x, x ∈ pre0 -> ~ P x) ->
  (forall x, x ∈ pre -> ~ P x) ->
  c0 = c.
Proof.
  revert pre. induction pre0 as [| a pre0 IH]; intros pre Heq Hc0 Hc Hpre0 Hpre.
  - destruct pre as [| b pre]; cbn in Heq.
    + congruence.
    + injection Heq as -> _. exfalso. apply (Hpre b); [apply elem_of_cons; left; reflexivity |].
      exact Hc0.
  - destruct pre as [| b pre]; cbn in Heq.
    + injection Heq as -> _. exfalso.
      apply (Hpre0 c); [apply elem_of_cons; left; reflexivity | exact Hc].
    + injection Heq as -> Heq. apply (IH pre Heq Hc0 Hc).
      * intros x Hx. apply Hpre0. apply elem_of_cons. right. exact Hx.
      * intros x Hx. apply Hpre. apply elem_of_cons. right. exact Hx.
Qed.

(** C6.  With a credential configured and the call admitted by the breaker,
    a decoded response is mapped as follows.  If every requested currency
    other than USD is in the upstream rates, the call returns a mapping that
    gives USD the rate 1.0 exactly when USD was requested and gives every
    other code its upstream rate exactly when it was requested.  If one is
    absent, the call fails with the error naming the first absent one, and
    no mapping is returned. *)
Theorem provider_response_mapping :
  forall (r : RatesRepositoryImpl) (now1 now2 now3 : Z) (currencies : list string)
         (upstream : gmap string float64) (net : Network) (gen : Z) (cb1 : CircuitBreaker),
    OpenExchangeAPIKey (config r) <> "" ->
    beforeRequest (circuitBreaker r) now1 = (Return gen, cb1) ->
    exists o r',
      GetRates r now1 now2 now3 (Response StatusOK (Some upstream)) currencies net
      = (o, r', (net ++ [request_url (config r) currencies])%list)
      /\ ((forall c, c ∈ currencies -> c <> "USD" -> is_Some (upstream !! c)) ->
          exists rates,
            o = Return (rates, liveInfo)
            /\ rates !! "USD"
               = (if decide ("USD" ∈ currencies) then Some (mkFloat 1 0) else None)
            /\ forall c, c <> "USD" ->
                 rates !! c = if decide (c ∈ currencies) then upstream !! c else None)
      /\ (forall pre c post,
            currencies = (pre ++ c :: post)%list ->
            c <> "USD" ->
            upstream !! c = None ->
            (forall c', c' ∈ pre -> c' <> "USD" -> is_Some (upstream !! c')) ->
            o = Fail (ErrFetch (ErrNotSupportedByProvider c)))
      /\ ((exists c, c ∈ currencies /\ c <> "USD" /\ upstream !! c = None) ->
          exists c, c ∈ currencies /\ c <> "USD" /\ upstream !! c = None
                    /\ o = Fail (ErrFetch (ErrNotSupportedByProvider c))).
Proof.
  intros r now1 now2 now3 currencies upstream net gen cb1 Hkey Hbefore.
  unfold GetRates. apply String.eqb_neq in Hkey. rewrite Hkey.
  unfold Execute. rewrite Hbefore. unfold fetchRatesFromAPI.
  rewrite Z.eqb_refl. cbn [negb].
  pose proof (rates_loop_outcome upstream currencies (base_loop currencies ∅)) as Hloop.
  destruct (rates_loop upstream currencies (base_loop currencies ∅)) as [res | e | msg].
  - destruct Hloop as [Hall Hres]. eexists _, _. split; [reflexivity |]. split; [| split].
    + intros _. exists res. split; [reflexivity |]. split.
      * rewrite Hres.
        destruct (decide ("USD" ∈ currencies /\ "USD" <> "USD")) as [[_ H] | _];
          [congruence |].
        rewrite base_loop_spec.
        destruct (decide ("USD" ∈ currencies)); [apply lookup_insert_eq | apply lookup_empty].
      * intros c Hc. rewrite Hres.
        destruct (decide (c ∈ currencies /\ c <> "USD")) as [[H1 _] | H];
          destruct (decide (c ∈ currencies)) as [H' | H']; try reflexivity.
        -- contradiction.
        -- exfalso. apply H. split; assumption.
        -- rewrite base_loop_spec.
           destruct (decide ("USD" ∈ currencies));
             [rewrite lookup_insert_ne by congruence |]; apply lookup_empty.
    + intros pre c post -> Hc Hnone _. exfalso.
      destruct (Hall c) as [x Hx]; [apply elem_of_app; right; apply elem_of_cons; left;
                                    reflexivity | exact Hc |].
      congruence.
    + intros (c & Hin & Hc & Hnone). exfalso.
      destruct (Hall c Hin Hc) as [x Hx]. congruence.
  - destruct Hloop as (pre0 & c0 & post0 & Hcs & -> & Hc0 & Hnone0 & Hpre0).
    eexists _, _. split; [reflexivity |]. split; [| split].
    + intros Hall. exfalso.
      destruct (Hall c0) as [x Hx]; [rewrite Hcs; apply elem_of_app; right;
                                     apply elem_of_cons; left; reflexivity | exact Hc0 |].
      congruence.
    + intros pre c post Hcs' Hc Hnone Hpre. rewrite Hcs in Hcs'.
      assert (c0 = c) as ->; [| reflexivity].
      apply (first_unique (fun x => x <> "USD" /\ upstream !! x = None)
               pre0 c0 post0 pre c post Hcs'); try (split; assumption).
      * intros x Hx [Hx1 Hx2]. destruct (Hpre0 x Hx Hx1) as [y Hy]. congruence.
      * intros x Hx [Hx1 Hx2]. destruct (Hpre x Hx Hx1) as [y Hy]. congruence.
    + intros _. exists c0. repeat split; try assumption.
      rewrite Hcs. apply elem_of_app. right. apply elem_of_cons. left. reflexivity.
  - contradiction.
Qed.

(** The statement above for the response of the tests and a code it lacks. *)
Lemma provider_response_mapping_witness :
  exists o r',
    GetRates (NewRatesRepositoryImpl test_config 0) 1 2 3
      (Response StatusOK (Some (<["EUR" := mkFloat 85 (-2)]> ∅))) ["USD"; "EUR"; "INVALID"] []
    = (o, r', ([] ++ [request_url test_config ["USD"; "EUR"; "INVALID"]])%list)
    /\ o = Fail (ErrFetch (ErrNotSupportedByProvider "INVALID")).
Proof.
  destruct (provider_response_mapping
              (NewRatesRepositoryImpl test_config 0) 1 2 3 ["USD"; "EUR"; "INVALID"]
              (<["EUR" := mkFloat 85 (-2)]> ∅) [] 1
              (with_counts (circuitBreaker (NewRatesRepositoryImpl test_config 0))
                           (counts_onRequest counts_clear))
              ltac:(discriminate) ltac:(vm_compute; reflexivity))
    as (o & r' & HG & _ & Hfail & _).
  exists o, r'. split; [exact HG |].
  apply (Hfail ["USD"; "EUR"] "INVALID" []).
  - reflexivity.
  - discriminate.
  - vm_compute. reflexivity.
  - intros c' Hc' Hne.
    apply elem_of_cons in Hc' as [-> | Hc']; [congruence |].
    apply elem_of_cons in Hc' as [-> | Hc']; [vm_compute; eexists; reflexivity |].
    apply elem_of_nil in Hc'. contradiction.
Defined.

End ResponseMapping.

(** ** The repository's tests hold in the embedding *)

Section RepositoryTests.
Import entities repositories Tests.

Example test_exchange_amounts :
  exchange_gives "WBTC" "USDT" "1.0" "57094.314314" = true
  /\ exchange_gives "USDT" "BEER" "1.0" "40593.2547744819179195" = true
  /\ exchange_gives "BEER" "FLOKI" "1000.0" "172.3389355742296919" = true
  /\ exchange_gives "GATE" "WBTC" "100.0" "0.01204477" = true
  /\ exchange_gives "BEER" "WBTC" "100000.0" "0.00004315" = true
  /\ exchange_gives "USDT" "USDT" "100.0" "100.000000" = true.
Proof. repeat split; vm_compute; reflexivity. Qed.

Example test_exchange_same_currency :
  forallb (fun c => exchange_gives c c "10.0" "10.0") ["BEER"; "FLOKI"; "GATE"; "USDT"; "WBTC"]
  = true.
Proof. vm_compute. reflexivity. Qed.

Example test_round_to_decimal_places :
  rounding_gives 6 "57094.314314159" "57094.314314" = true
  /\ rounding_gives 8 "1.123456789" "1.12345679" = true
  /\ rounding_gives 18 "40593.254769230769230769999" "40593.254769230769230770" = true
  /\ rounding_gives 6 "100.0" "100.000000" = true.
Proof. repeat split; vm_compute; reflexivity. Qed.

Example test_registry_is_valid :
  map_Forall (fun code c => Code c = code /\ IsValid c = true) CryptoCurrencies.
Proof.
  intros code c H. unfold CryptoCurrencies in H.
  apply elem_of_list_to_map_2 in H.
  repeat (apply elem_of_cons in H as [H | H];
          [injection H as -> ->; split; vm_compute; reflexivity |]).
  apply elem_of_nil in H. contradiction.
Qed.

Example test_cross_rates :
  rate_gives TestRatesRepository.usd_eur_gbp ["USD"; "EUR"; "GBP"] "USD" "EUR" "0.85" = true
  /\ rate_gives TestRatesRepository.usd_eur_gbp ["USD"; "EUR"; "GBP"] "USD" "GBP" "0.73" = true
  /\ rate_gives TestRatesRepository.usd_eur_gbp ["USD"; "EUR"; "GBP"]
       "EUR" "USD" "1.1764705882352941" = true
  /\ rate_gives TestRatesRepository.usd_eur_gbp ["USD"; "EUR"; "GBP"]
       "EUR" "GBP" "0.8588235294117647" = true
  /\ rate_gives TestRatesRepository.usd_eur_gbp ["USD"; "EUR"; "GBP"]
       "GBP" "USD" "1.3698630136986301" = true
  /\ rate_gives TestRatesRepository.usd_eur_gbp ["USD"; "EUR"; "GBP"]
       "GBP" "EUR" "1.1643835616438356" = true
  /\ rate_gives TestRatesRepository.usd_eur_gbp ["usd"; "eur"] "EUR" "USD" "1.1764705882352941"
     = true.
Proof. repeat split; vm_compute; reflexivity. Qed.

Example test_mock_rates :
  dom (getMockRates ["USD"; "UNKNOWN"; "EUR"]) = {["USD"; "EUR"]}
  /\ getMockRates ["UNKNOWN1"; "UNKNOWN2"] = ∅
  /\ getMockRates ["USD"; "EUR"; "GBP"; "JPY"] !! "JPY" = Some (mkFloat 11 1).
Proof. repeat split; vm_compute; reflexivity. Qed.

(** After three failures the fourth call is stopped by the breaker, and the
    server has seen three requests. *)
Example test_circuit_breaker :
  fst (fst circuit_breaker_run)
  = [ Fail (ErrFetch (ErrStatus 500)); Fail (ErrFetch (ErrStatus 500));
      Fail (ErrFetch (ErrStatus 500)); Fail ErrUnavailable; Fail ErrUnavailable ]
  /\ length (snd circuit_breaker_run) = 3%nat.
Proof. split; vm_compute; reflexivity. Qed.

End RepositoryTests.

(** ** Splitting the query parameter and joining the symbols *)

Section SplitJoin.
Import Strings repositories.

Lemma IndexByte_None (s : string) (sep : ascii) :
  IndexByte s sep = None -> Count s sep = 0%nat.
Proof.
  induction s as [| c s IH]; cbn [IndexByte Count]; [reflexivity |].
  destruct (Ascii.eqb c sep); [discriminate |].
  destruct (IndexByte s sep); [discriminate |]. intros _. apply IH. reflexivity.
Qed.

(** The cut [Index] finds: the text before the first separator, which holds
    none, and the text after it. *)
Lemma IndexByte_Some (s : string) (sep : ascii) (m : nat) :
  IndexByte s sep = Some m ->
  s = substring 0 m s ++ String sep (substring (m + 1) (String.length s - (m + 1)) s)
  /\ Count (substring 0 m s) sep = 0%nat
  /\ Count s sep = S (Count (substring (m + 1) (String.length s - (m + 1)) s) sep).
Proof.
  revert m. induction s as [| c s IH]; intros m; cbn [IndexByte]; [discriminate |].
  destruct (Ascii.eqb_spec c sep) as [-> | Hne].
  - intros [= <-]. cbn [substring Nat.add String.length Nat.sub].
    rewrite Nat.sub_0_r.
    assert (Hall : forall t, substring 0 (String.length t) t = t).
    { induction t as [| a t IHt]; cbn; [reflexivity | rewrite IHt; reflexivity]. }
    rewrite Hall. cbn [Count]. rewrite Ascii.eqb_refl. repeat split; reflexivity.
  - destruct (IndexByte s sep) as [m' |] eqn:Hi; [| discriminate].
    cbn. intros [= <-]. destruct (IH m' eq_refl) as (H1 & H2 & H3).
    cbn [substring Nat.add String.length Nat.sub Count].
    destruct (Ascii.eqb_spec c sep) as [? | _]; [contradiction |].
    split; [| split].
    + change (String c s = String c (substring 0 m' s ++
               String sep (substring (m' + 1) (String.length s - (m' + 1)) s))).
      f_equal. exact H1.
    + exact H2.
    + exact H3.
Qed.

Lemma split_loop_nonempty (n : nat) (s : string) (sep : ascii) :
  split_loop n s sep <> [].
Proof. destruct n; cbn; [discriminate |]. destruct (IndexByte s sep); discriminate. Qed.

Lemma Join_cons (x : string) (l : list string) (sep : string) :
  l <> [] -> Join (x :: l) sep = x ++ sep ++ Join l sep.
Proof. destruct l; [contradiction | reflexivity]. Qed.

(** Joining the fields of a text with the separator it was split at gives
    the text back; there is one field more than there are separators, and no
    field holds the separator. *)
Lemma Split_Join (s : string) (sep : ascii) :
  Join (Split s sep) (String sep "") = s
  /\ length (Split s sep) = S (Count s sep)
  /\ Forall (fun field => Count field sep = 0%nat) (Split s sep).
Proof.
  unfold Split. remember (Count s sep) as n eqn:Hn. revert s Hn.
  induction n as [| n IH]; intros s Hn; cbn [split_loop].
  - cbn. repeat split. constructor; [congruence | constructor].
  - destruct (IndexByte s sep) as [m |] eqn:Hi.
    + destruct (IndexByte_Some s sep m Hi) as (Hs & Hpre & Hcnt).
      rewrite <- Hn in Hcnt. injection Hcnt as Hcnt.
      destruct (IH _ Hcnt) as (HJ & HL & HF).
      rewrite Join_cons by apply split_loop_nonempty. rewrite HJ.
      cbn [length]. rewrite HL. repeat split.
      * symmetry. exact Hs.
      * constructor; assumption.
    + apply IndexByte_None in Hi. congruence.
Qed.

End SplitJoin.

(** ** Reading the port number *)

Section Atoi.
Import Strings Strconv.

Lemma byte_of_range (c : ascii) : 0 <= byte_of c < 256.
Proof.
  unfold byte_of. pose proof (nat_ascii_bounded c). lia.
Qed.

Lemma byte_of_inj (c d : ascii) : byte_of c = byte_of d -> c = d.
Proof.
  unfold byte_of. intros H. apply Nat2Z.inj in H.
  rewrite <- (ascii_nat_embedding c), <- (ascii_nat_embedding d). congruence.
Qed.

(** The byte test of the fast path is the digit test. *)
Lemma atoi_digit (c : ascii) :
  (9 <? (byte_of c - 48) mod 256) = negb (is_digit c)
  /\ (is_digit c = true -> (byte_of c - 48) mod 256 = byte_of c - 48).
Proof.
  pose proof (byte_of_range c) as Hc. unfold is_digit.
  destruct (Z.leb_spec 48 (byte_of c)) as [H1 | H1].
  - rewrite (Z.mod_small (byte_of c - 48)) by lia.
    destruct (Z.leb_spec (byte_of c) 57); destruct (Z.ltb_spec 9 (byte_of c - 48));
      cbn; split; try reflexivity; lia.
  - replace ((byte_of c - 48) mod 256) with (byte_of c + 208).
    + destruct (Z.ltb_spec 9 (byte_of c + 208)); cbn; [split; [reflexivity | discriminate] | lia].
    + apply (Z.mod_unique _ _ (-1)); lia.
Qed.

Lemma atoi_loop_parse_digits (s : string) (n : Z) : atoi_loop n s = parse_digits n s.
Proof.
  revert n. induction s as [| c s IH]; intros n; cbn [atoi_loop parse_digits]; [reflexivity |].
  destruct (atoi_digit c) as [H1 H2]. cbv zeta. rewrite H1.
  destruct (is_digit c); cbn [negb]; [| reflexivity].
  rewrite H2 by reflexivity. rewrite IH. f_equal. lia.
Qed.

(** Digits read after [n] give a value between [n * 10^len] and
    [(n + 1) * 10^len - 1]. *)
Lemma parse_digits_bounds (s : string) (n v : Z) :
  0 <= n -> parse_digits n s = Some v ->
  n * 10 ^ Z.of_nat (String.length s) <= v < (n + 1) * 10 ^ Z.of_nat (String.length s).
Proof.
  revert n. induction s as [| c s IH]; intros n Hn; cbn [parse_digits String.length].
  - intros [= <-]. change (10 ^ Z.of_nat 0) with 1. lia.
  - destruct (is_digit c) eqn:Hd; [| discriminate]. intros H.
    unfold is_digit in Hd. apply andb_true_iff in Hd as [Hd1 Hd2].
    apply Z.leb_le in Hd1, Hd2.
    apply IH in H; [| lia].
    rewrite Nat2Z.inj_succ, Z.pow_succ_r by lia.
    assert (0 < 10 ^ Z.of_nat (String.length s)) by (apply Z.pow_pos_nonneg; lia).
    nia.
Qed.

(** The loop of [ParseUint] reads the digits and accepts the value exactly
    when it fits 64 bits. *)
Lemma parse_uint_loop_digits (s : string) (n v : Z) :
  0 <= n < 2 ^ 64 ->
  parse_digits n s = Some v ->
  parse_uint_loop (2 ^ 64 - 1) n s = if v <? 2 ^ 64 then inr v else inl ErrRange.
Proof.
  revert n. induction s as [| c s IH]; intros n Hn; cbn [parse_uint_loop parse_digits].
  - intros [= <-]. destruct (Z.ltb_spec n (2 ^ 64)); [reflexivity | lia].
  - destruct (is_digit c) eqn:Hd; [| discriminate].
    pose proof Hd as Hd'. unfold is_digit in Hd'. apply andb_true_iff in Hd' as [Hd1 Hd2].
    apply Z.leb_le in Hd1, Hd2. cbv zeta. intros Hp.
    assert (Hb := parse_digits_bounds s (10 * n + (byte_of c - 48)) v ltac:(lia) Hp).
    assert (0 < 10 ^ Z.of_nat (String.length s)) by (apply Z.pow_pos_nonneg; lia).
    change ((2 ^ 64 - 1) / 10 + 1) with 1844674407370955162.
    change (2 ^ 64) with 18446744073709551616 in *.
    destruct (Z.leb_spec 1844674407370955162 n) as [Hc | Hc].
    + destruct (Z.ltb_spec v 18446744073709551616) as [Hv | Hv]; [| reflexivity].
      exfalso. nia.
    + destruct (Z.leb_spec 18446744073709551616 (n * 10 + (byte_of c - 48))) as [Hc2 | Hc2];
        cbn [orb].
      * destruct (Z.ltb_spec v 18446744073709551616) as [Hv | Hv]; [| reflexivity].
        exfalso. nia.
      * destruct (Z.ltb_spec (18446744073709551616 - 1) (n * 10 + (byte_of c - 48)))
          as [? | _]; [lia |].
        apply IH; [lia |].
        replace (n * 10 + (byte_of c - 48)) with (10 * n + (byte_of c - 48)) by lia.
        exact Hp.
Qed.

Lemma parse_uint_loop_not_digits (s : string) (n : Z) :
  parse_digits n s = None -> exists e, parse_uint_loop (2 ^ 64 - 1) n s = inl e.
Proof.
  revert n. induction s as [| c s IH]; intros n; cbn [parse_uint_loop parse_digits].
  - discriminate.
  - destruct (is_digit c); [| eauto]. cbv zeta. intros Hp.
    destruct ((2 ^ 64 - 1) / 10 + 1 <=? n); [eauto |].
    destruct ((2 ^ 64 <=? n * 10 + (byte_of c - 48))
              || (2 ^ 64 - 1 <? n * 10 + (byte_of c - 48))); [eauto |].
    apply IH.
    replace (n * 10 + (byte_of c - 48)) with (10 * n + (byte_of c - 48)) by lia.
    exact Hp.
Qed.

(** On a text too short to overflow, the loop of [ParseUint] fails only with
    a syntax error. *)
Lemma parse_uint_loop_short (s : string) (n : Z) :
  0 <= n ->
  (n + 1) * 10 ^ Z.of_nat (String.length s) <= 2 ^ 63 ->
  parse_uint_loop (2 ^ 64 - 1) n s =
    match parse_digits n s with
    | Some v => inr v
    | None => inl ErrSyntax
    end.
Proof.
  revert n. induction s as [| c s IH]; intros n Hn Hlen;
    cbn [parse_uint_loop parse_digits]; [reflexivity |].
  destruct (is_digit c) eqn:Hd; [| reflexivity].
  unfold is_digit in Hd. apply andb_true_iff in Hd as [Hd1 Hd2].
  apply Z.leb_le in Hd1, Hd2. cbv zeta.
  cbn [String.length] in Hlen. rewrite Nat2Z.inj_succ, Z.pow_succ_r in Hlen by lia.
  assert (0 < 10 ^ Z.of_nat (String.length s)) by (apply Z.pow_pos_nonneg; lia).
  change ((2 ^ 64 - 1) / 10 + 1) with 1844674407370955162.
  change (2 ^ 64) with 18446744073709551616.
  change (2 ^ 63) with 9223372036854775808 in Hlen.
  destruct (Z.leb_spec 1844674407370955162 n) as [Hc | Hc]; [nia |].
  destruct (Z.leb_spec 18446744073709551616 (n * 10 + (byte_of c - 48))) as [Hc2 | Hc2];
    [nia |].
  destruct (Z.ltb_spec (18446744073709551616 - 1) (n * 10 + (byte_of c - 48)))
    as [? | _]; [lia |].
  cbn [orb]. replace (n * 10 + (byte_of c - 48)) with (10 * n + (byte_of c - 48)) by lia.
  apply IH; [lia |]. change (2 ^ 63) with 9223372036854775808. nia.
Qed.

Lemma pow10_le_18 (s : string) :
  (String.length s < 19)%nat -> 10 ^ Z.of_nat (String.length s) <= 10 ^ 18.
Proof. intros H. apply Z.pow_le_mono_r; lia. Qed.

(** The fast path of [Atoi] returns what [ParseInt] returns. *)
Lemma Atoi_ParseInt (s : string) : Atoi s = ParseInt s 64.
Proof.
  unfold Atoi. cbv zeta.
  destruct ((0 <? String.length s)%nat && (String.length s <? 19)%nat) eqn:Hfast;
    [| reflexivity].
  apply andb_true_iff in Hfast as [_ Hlen]. apply Nat.ltb_lt in Hlen.
  destruct s as [| c0 rest]; [reflexivity |].
  cbn [String.length] in Hlen.
  assert (Hshort : forall t, (String.length t < 19)%nat ->
            ParseUint t 64 = match t with
                             | EmptyString => inl ErrSyntax
                             | _ => match parse_digits 0 t with
                                    | Some v => inr v
                                    | None => inl ErrSyntax
                                    end
                             end
            /\ forall v, parse_digits 0 t = Some v -> 0 <= v < 2 ^ 63).
  { intros t Ht. pose proof (pow10_le_18 t Ht) as Hp.
    change (10 ^ 18) with 1000000000000000000 in Hp.
    split.
    - destruct t as [| c t]; [reflexivity |]. unfold ParseUint.
      change (2 ^ 64 - 1) with (2 ^ 64 - 1).
      apply parse_uint_loop_short; [lia |].
      change (2 ^ 63) with 9223372036854775808. lia.
    - intros v Hv. apply parse_digits_bounds in Hv; [| lia].
      change (2 ^ 63) with 9223372036854775808. lia. }
  unfold ParseInt.
  destruct (Z.eqb_spec (byte_of c0) 43) as [H43 | H43].
  - (* '+' *)
    destruct (Z.eqb_spec (byte_of c0) 45) as [? | _]; [lia |]. cbn [orb andb].
    destruct (Hshort rest ltac:(lia)) as [HP Hv]. rewrite HP.
    destruct rest as [| c1 rest']; [reflexivity |].
    cbn [String.length Nat.ltb Nat.leb]. rewrite atoi_loop_parse_digits.
    destruct (parse_digits 0 (String c1 rest')) as [v |] eqn:Hd; [| reflexivity].
    specialize (Hv v eq_refl). cbn [negb andb].
    destruct (Z.leb_spec (2 ^ (64 - 1)) v) as [Hc | _];
      [change (2 ^ (64 - 1)) with (2 ^ 63) in Hc; lia | reflexivity].
  - destruct (Z.eqb_spec (byte_of c0) 45) as [H45 | H45].
    + (* '-' *)
      cbn [orb andb].
      destruct (Hshort rest ltac:(lia)) as [HP Hv]. rewrite HP.
      destruct rest as [| c1 rest']; [reflexivity |].
      cbn [String.length Nat.ltb Nat.leb]. rewrite atoi_loop_parse_digits.
      destruct (parse_digits 0 (String c1 rest')) as [v |] eqn:Hd; [| reflexivity].
      specialize (Hv v eq_refl). cbn [negb andb].
      destruct (Z.ltb_spec (2 ^ (64 - 1)) v) as [Hc | _];
        [change (2 ^ (64 - 1)) with (2 ^ 63) in Hc; lia | reflexivity].
    + cbn [orb andb].
      destruct (Hshort (String c0 rest) ltac:(cbn [String.length]; lia)) as [HP Hv].
      rewrite HP. rewrite atoi_loop_parse_digits.
      destruct (parse_digits 0 (String c0 rest)) as [v |] eqn:Hd; [| reflexivity].
      specialize (Hv v eq_refl). cbn [negb andb].
      destruct (Z.leb_spec (2 ^ (64 - 1)) v) as [Hc | _];
        [change (2 ^ (64 - 1)) with (2 ^ 63) in Hc; lia | reflexivity].
Qed.

Ltac app_nil :=
  repeat match goal with
         | H : context [append EmptyString ?x] |- _ =>
             change (append EmptyString x) with x in H
         | |- context [append EmptyString ?x] =>
             change (append EmptyString x) with x
         end.

Ltac byte_lia :=
  change (byte_of "+") with 43 in *; change (byte_of "-") with 45 in *; lia.

Lemma ParseUint_digits (s : string) (v : Z) :
  ParseUint s 64 = inr v <-> s <> "" /\ parse_digits 0 s = Some v /\ v < 2 ^ 64.
Proof.
  unfold ParseUint. destruct s as [| c s].
  - split; [discriminate | intros [H _]; contradiction].
  - destruct (parse_digits 0 (String c s)) as [w |] eqn:Hd.
    + rewrite (parse_uint_loop_digits _ 0 w) by (try assumption; lia).
      destruct (Z.ltb_spec w (2 ^ 64)); split.
      * intros [= <-]. repeat split; [discriminate | assumption].
      * intros (_ & [= <-] & _). reflexivity.
      * discriminate.
      * intros (_ & [= <-] & ?). lia.
    + destruct (parse_uint_loop_not_digits _ 0 Hd) as [e He]. rewrite He.
      split; [discriminate | intros (_ & ? & _); discriminate].
Qed.

Lemma parse_digits_first (c : ascii) (s : string) (n v : Z) :
  parse_digits n (String c s) = Some v -> 48 <= byte_of c <= 57.
Proof.
  cbn [parse_digits]. destruct (is_digit c) eqn:Hd; [| discriminate]. intros _.
  unfold is_digit in Hd. apply andb_true_iff in Hd as [H1 H2].
  apply Z.leb_le in H1, H2. lia.
Qed.

(** [ParseInt] accepts the decimal numerals of the 64-bit integers. *)
Lemma ParseInt_numeral (s : string) (n : Z) :
  ParseInt s 64 = inr n <-> numeral s n /\ - 2 ^ 63 <= n < 2 ^ 63.
Proof.
  assert (Hplus : forall c, byte_of c = 43 -> c = "+"%char)
    by (intros c H; apply byte_of_inj; exact H).
  assert (Hminus : forall c, byte_of c = 45 -> c = "-"%char)
    by (intros c H; apply byte_of_inj; exact H).
  change (2 ^ 63) with 9223372036854775808.
  unfold ParseInt, numeral. destruct s as [| c s].
  - split; [discriminate |].
    intros [(ds & v & Hne & _ & [[[H | H] _] | [H _]]) _];
      destruct ds; try discriminate; contradiction.
  - change (2 ^ (64 - 1)) with 9223372036854775808.
    destruct (Z.eqb_spec (byte_of c) 43) as [H43 | H43];
      [| destruct (Z.eqb_spec (byte_of c) 45) as [H45 | H45]].
    + apply Hplus in H43. subst c.
      destruct (ParseUint s 64) as [e | un] eqn:HP.
      * split; [discriminate |].
        intros [(ds & v & Hne & Hd & [[[H | H] ->] | [H ->]]) Hr].
        -- subst ds. apply parse_digits_first in Hd. byte_lia.
        -- injection H as ->; app_nil.
           assert (ParseUint ds 64 = inr v)
             by (apply ParseUint_digits; repeat split; try assumption;
                 change (2 ^ 64) with 18446744073709551616; lia).
           congruence.
        -- discriminate H.
      * apply ParseUint_digits in HP as (Hne & Hd & Hlt). cbn [negb andb].
        destruct (Z.leb_spec 9223372036854775808 un) as [Hc | Hc]; split.
        -- discriminate.
        -- intros [(ds & v & _ & Hd' & [[[H | H] ->] | [H ->]]) Hr].
           ++ subst ds. apply parse_digits_first in Hd'. byte_lia.
           ++ injection H as ->; app_nil. rewrite Hd in Hd'. injection Hd' as ->. lia.
           ++ discriminate H.
        -- intros [= <-]. apply parse_digits_bounds in Hd as Hb; [| lia].
           assert (0 < 10 ^ Z.of_nat (String.length s)) by (apply Z.pow_pos_nonneg; lia).
           split; [| lia]. exists s, un. repeat split; try assumption.
           left. split; [right |]; reflexivity.
        -- intros [(ds & v & _ & Hd' & [[[H | H] ->] | [H ->]]) Hr].
           ++ subst ds. apply parse_digits_first in Hd'. byte_lia.
           ++ injection H as ->; app_nil. rewrite Hd in Hd'. injection Hd' as ->. reflexivity.
           ++ discriminate H.
    + apply Hminus in H45. subst c.
      destruct (ParseUint s 64) as [e | un] eqn:HP.
      * split; [discriminate |].
        intros [(ds & v & Hne & Hd & [[[H | H] ->] | [H ->]]) Hr].
        -- subst ds. apply parse_digits_first in Hd. byte_lia.
        -- discriminate H.
        -- injection H as ->; app_nil.
           assert (ParseUint ds 64 = inr v)
             by (apply ParseUint_digits; repeat split; try assumption;
                 change (2 ^ 64) with 18446744073709551616; lia).
           congruence.
      * apply ParseUint_digits in HP as (Hne & Hd & Hlt). cbn [negb andb].
        destruct (Z.ltb_spec 9223372036854775808 un) as [Hc | Hc]; split.
        -- discriminate.
        -- intros [(ds & v & _ & Hd' & [[[H | H] ->] | [H ->]]) Hr].
           ++ subst ds. apply parse_digits_first in Hd'. byte_lia.
           ++ discriminate H.
           ++ injection H as ->; app_nil. rewrite Hd in Hd'. injection Hd' as ->. lia.
        -- intros [= <-]. apply parse_digits_bounds in Hd as Hb; [| lia].
           assert (0 < 10 ^ Z.of_nat (String.length s)) by (apply Z.pow_pos_nonneg; lia).
           split; [| lia]. exists s, un. repeat split; try assumption.
           right. split; reflexivity.
        -- intros [(ds & v & _ & Hd' & [[[H | H] ->] | [H ->]]) Hr].
           ++ subst ds. apply parse_digits_first in Hd'. byte_lia.
           ++ discriminate H.
           ++ injection H as ->; app_nil. rewrite Hd in Hd'. injection Hd' as ->. reflexivity.
    + destruct (ParseUint (String c s) 64) as [e | un] eqn:HP.
      * split; [discriminate |].
        intros [(ds & v & Hne & Hd & [[[H | H] ->] | [H ->]]) Hr].
        -- subst ds.
           assert (ParseUint (String c s) 64 = inr v)
             by (apply ParseUint_digits; repeat split; try assumption;
                 change (2 ^ 64) with 18446744073709551616; lia).
           congruence.
        -- injection H as -> _; app_nil; byte_lia.
        -- injection H as -> _; app_nil; byte_lia.
      * apply ParseUint_digits in HP as (Hne & Hd & Hlt). cbn [negb andb].
        destruct (Z.leb_spec 9223372036854775808 un) as [Hc | Hc]; split.
        -- discriminate.
        -- intros [(ds & v & _ & Hd' & [[[H | H] ->] | [H ->]]) Hr].
           ++ subst ds. rewrite Hd in Hd'. injection Hd' as ->. lia.
           ++ injection H as -> _; app_nil; byte_lia.
           ++ injection H as -> _; app_nil; byte_lia.
        -- intros [= <-]. apply parse_digits_bounds in Hd as Hb; [| lia].
           assert (0 < 10 ^ Z.of_nat (String.length (String c s)))
             by (apply Z.pow_pos_nonneg; lia).
           split; [| lia]. exists (String c s), un. repeat split; try assumption.
           left. split; [left |]; reflexivity.
        -- intros [(ds & v & _ & Hd' & [[[H | H] ->] | [H ->]]) Hr].
           ++ subst ds. rewrite Hd in Hd'. injection Hd' as ->. reflexivity.
           ++ injection H as -> _; app_nil; byte_lia.
           ++ injection H as -> _; app_nil; byte_lia.
Qed.

End Atoi.

(** ** The configuration *)

Section Config.
Import Strconv config.

Lemma getEnv_nonempty (env : Environ) (key defaultValue : string) :
  defaultValue <> "" -> getEnv env key defaultValue <> "".
Proof.
  intros Hd. unfold getEnv. cbv zeta.
  destruct (String.eqb_spec (Getenv env key) ""); cbn [negb]; assumption.
Qed.

Lemma Getenv_empty_unset (env : Environ) (k key : string) :
  Getenv (<[k := ""]> env) key = Getenv (delete k env) key.
Proof.
  unfold Getenv, Environ in *. rewrite lookup_insert, lookup_delete.
  destruct (decide (k = key)); reflexivity.
Qed.

(** X1.  [Validate] accepts a configuration exactly when the Gin mode is
    one of debug, release and test, the log level is not empty, and the port
    is a decimal numeral, with an optional sign, of an integer that fits 64
    bits.  The port is not compared with the range of TCP ports. *)
Theorem validate_accepts_any_int64_port (c : Config) :
  Validate c = None <->
    (GinMode c = "debug" \/ GinMode c = "release" \/ GinMode c = "test")
    /\ LogLevel c <> ""
    /\ exists n, numeral (Port c) n /\ - 2 ^ 63 <= n < 2 ^ 63.
Proof.
  unfold Validate. rewrite Atoi_ParseInt.
  destruct (String.eqb_spec (Port c) "") as [Hp | Hp].
  { split; [discriminate |]. intros (_ & _ & n & (ds & v & Hne & _ & H) & _).
    rewrite Hp in H. destruct H as [[[H | H] _] | [H _]];
      destruct ds; try discriminate; contradiction. }
  destruct (String.eqb_spec (GinMode c) "debug") as [Hg1 | Hg1];
    destruct (String.eqb_spec (GinMode c) "release") as [Hg2 | Hg2];
    destruct (String.eqb_spec (GinMode c) "test") as [Hg3 | Hg3];
    cbn [negb andb];
    try (split; [discriminate | intros ([? | [? | ?]] & _); contradiction]);
    (destruct (String.eqb_spec (LogLevel c) "") as [Hl | Hl];
     [split; [discriminate | intros (_ & ? & _); contradiction] |]);
    (destruct (ParseInt (Port c) 64) as [e | n] eqn:HP;
     [ split; [discriminate |];
       intros (_ & _ & n & Hn); apply ParseInt_numeral in Hn; congruence
     | split; [| reflexivity]; intros _;
       split; [tauto |]; split; [assumption |];
       exists n; apply ParseInt_numeral; exact HP ]).
Qed.

(** The statement above at the port -1, which is accepted. *)
Lemma validate_accepts_any_int64_port_witness :
  Validate (mkConfig "-1" "release" "info" "" "" "" "production") = None.
Proof.
  apply validate_accepts_any_int64_port. cbn [GinMode LogLevel Port].
  split; [right; left; reflexivity |]. split; [discriminate |].
  exists (-1). split; [| lia].
  exists "1", 1. split; [discriminate |]. split; [reflexivity |].
  right. split; reflexivity.
Defined.

(** X2.  [Load] replaces a variable that is not set, or set to the empty
    text, by its default.  So a variable set to the empty text behaves as
    one that is not set; [Load] never fails because the port or the log level
    is empty; its only failures are a Gin mode outside the three accepted
    ones and a port that is not a number; and when it succeeds the
    configuration passes [Validate]. *)
Theorem load_fills_in_defaults (env : Environ) :
  (forall k, Load (<[k := ""]> env) = Load (delete k env))
  /\ match Load env with
     | Return cfg => Validate cfg = None /\ Port cfg <> "" /\ LogLevel cfg <> ""
     | Fail (ErrValidation e) => e = ErrGinMode \/ exists cause, e = ErrPortNumber cause
     | Panic _ => False
     end.
Proof.
  split.
  - intros k. unfold Load, getEnv. cbv zeta. rewrite !Getenv_empty_unset. reflexivity.
  - unfold Load. cbv zeta.
    set (cfg := mkConfig _ _ _ _ _ _ _).
    assert (HP : Port cfg <> "") by (apply getEnv_nonempty; discriminate).
    assert (HL : LogLevel cfg <> "") by (apply getEnv_nonempty; discriminate).
    destruct (Validate cfg) as [e |] eqn:HV; [| repeat split; assumption].
    unfold Validate in HV.
    apply String.eqb_neq in HP, HL. rewrite HP, HL in HV.
    destruct (negb (GinMode cfg =? "debug")%string && negb (GinMode cfg =? "release")%string
              && negb (GinMode cfg =? "test")%string).
    + injection HV as <-. left. reflexivity.
    + destruct (Atoi (Port cfg)); [| discriminate].
      injection HV as <-. right. eauto.
Qed.

End Config.

(** ** The logger *)

Section Logger.
Import Strings logger.

(** X3.  Whatever text the logger is built with, a record of [Error] is
    written, with the attribute "error" first, and so is the record of
    [Fatal], which ends the process with status 1.  A record of [Warn] is
    dropped only at the level error, one of [Info] only at the levels warn
    and error, and one of [Debug] is written only at the level debug; a text
    that is none of the four names gives the level info. *)
Theorem logger_never_drops_errors (level msg err : string) (args : list string)
    (out : list Entry) :
  let l := New level in
  let name := ToLower level in
  Error l msg err args out = (out ++ [mkEntry LevelError msg ("error" :: err :: args)])%list
  /\ Fatal l msg err out = ((out ++ [mkEntry LevelError msg ["error"; err]])%list, 1)
  /\ Warn l msg args out
     = (if String.eqb name "error" then out
        else (out ++ [mkEntry LevelWarn msg args])%list)
  /\ Info l msg args out
     = (if String.eqb name "warn" || String.eqb name "error" then out
        else (out ++ [mkEntry LevelInfo msg args])%list)
  /\ Debug l msg args out
     = (if String.eqb name "debug" then (out ++ [mkEntry LevelDebug msg args])%list
        else out).
Proof.
  cbv zeta. unfold Error, Fatal, Warn, Info, Debug, log, New. cbn [slogLevel].
  destruct (String.eqb_spec (ToLower level) "debug") as [H1 | H1];
    [rewrite H1; repeat split |].
  destruct (String.eqb_spec (ToLower level) "info") as [H2 | H2];
    [rewrite H2; repeat split |].
  destruct (String.eqb_spec (ToLower level) "warn") as [H3 | H3];
    [rewrite H3; repeat split |].
  destruct (String.eqb_spec (ToLower level) "error") as [H4 | H4]; repeat split.
Qed.

End Logger.

(** ** Properties of the rounding *)

Section RoundingFacts.

Lemma Qnum_sign (q : Q) :
  (0 < Qnum q -> (0 < q)%Q) /\ (Qnum q = 0 -> (q == 0)%Q) /\ (Qnum q < 0 -> (q < 0)%Q).
Proof.
  destruct q as [n d]. unfold Qlt, Qeq. cbn. repeat split; intros; lia.
Qed.

Lemma round_half_away_cases (q : Q) :
  ((0 < q)%Q /\ round_half_away q = Qfloor (q + (1 # 2)))
  \/ ((q == 0)%Q /\ round_half_away q = 0)
  \/ ((q < 0)%Q /\ round_half_away q = - Qfloor (- q + (1 # 2))).
Proof.
  unfold round_half_away. destruct (Qnum_sign q) as (Hp & Hz & Hn).
  destruct (Z.lt_trichotomy (Qnum q) 0) as [H | [H | H]].
  - right. right. split; [auto |]. rewrite Z.sgn_neg by assumption.
    rewrite (Qfloor_comp (Qabs q + (1 # 2)) (- q + (1 # 2))); [lia |].
    rewrite Qabs_neg; [reflexivity | apply Qlt_le_weak; auto].
  - right. left. split; [auto |]. rewrite H. reflexivity.
  - left. split; [auto |]. rewrite Z.sgn_pos by lia.
    rewrite (Qfloor_comp (Qabs q + (1 # 2)) (q + (1 # 2))); [lia |].
    rewrite Qabs_pos; [reflexivity | apply Qlt_le_weak; auto].
Qed.

Lemma Qfloor_bounds (x : Q) : (inject_Z (Qfloor x) <= x /\ x < inject_Z (Qfloor x) + 1)%Q.
Proof.
  split; [apply Qfloor_le |]. pose proof (Qlt_floor x) as H.
  rewrite inject_Z_plus in H. exact H.
Qed.

(** The nearest integer is within a half of the number. *)
Lemma round_half_away_error (q : Q) :
  (q - (1 # 2) <= inject_Z (round_half_away q) <= q + (1 # 2))%Q.
Proof.
  destruct (round_half_away_cases q) as [[Hq ->] | [[Hq ->] | [Hq ->]]].
  - destruct (Qfloor_bounds (q + (1 # 2))). split; lra.
  - change (inject_Z 0) with 0%Q. split; lra.
  - rewrite inject_Z_opp. destruct (Qfloor_bounds (- q + (1 # 2))). split; lra.
Qed.

Lemma Qfloor_nonneg (x : Q) : (0 <= x)%Q -> 0 <= Qfloor x.
Proof. intros H. change 0 with (Qfloor 0). apply Qfloor_resp_le. exact H. Qed.

(** The rounding keeps the order. *)
Lemma round_half_away_mono (p q : Q) :
  (p <= q)%Q -> round_half_away p <= round_half_away q.
Proof.
  intros Hpq.
  destruct (round_half_away_cases p) as [[Hp ->] | [[Hp ->] | [Hp ->]]];
    destruct (round_half_away_cases q) as [[Hq ->] | [[Hq ->] | [Hq ->]]];
    try lra.
  - apply Qfloor_resp_le. lra.
  - apply Qfloor_nonneg. lra.
  - lia.
  - assert (0 <= Qfloor (- p + (1 # 2))) by (apply Qfloor_nonneg; lra).
    assert (0 <= Qfloor (q + (1 # 2))) by (apply Qfloor_nonneg; lra). lia.
  - assert (0 <= Qfloor (- p + (1 # 2))) by (apply Qfloor_nonneg; lra). lia.
  - assert (Qfloor (- q + (1 # 2)) <= Qfloor (- p + (1 # 2)))
      by (apply Qfloor_resp_le; lra). lia.
Qed.

Lemma ten_pow_pos (z : Z) : (0 < ten ^ z)%Q.
Proof. apply Qpower_0_lt. reflexivity. Qed.

Lemma round_to_mono (p q : Q) (places : Z) :
  (p <= q)%Q -> (round_to p places <= round_to q places)%Q.
Proof.
  intros Hpq. unfold round_to. pose proof (ten_pow_pos places) as Hpos.
  apply Qmult_le_compat_r.
  - rewrite <- Zle_Qle. apply round_half_away_mono.
    apply Qmult_le_compat_r; [assumption | lra].
  - apply Qlt_le_weak, Qinv_lt_0_compat. assumption.
Qed.

(** Rounding at [places] decimal places moves a number by at most half a
    unit of the last place. *)
Lemma round_to_error (q : Q) (places : Z) :
  (Qabs (round_to q places - q) <= (1 # 2) / ten ^ places)%Q.
Proof.
  unfold round_to. pose proof (ten_pow_pos places) as Hpos.
  pose proof (round_half_away_error (q * ten ^ places)) as [H1 H2].
  set (r := inject_Z (round_half_away (q * ten ^ places))) in *.
  assert (Hinv : (0 < / ten ^ places)%Q) by (apply Qinv_lt_0_compat; assumption).
  assert (Heq : (r / ten ^ places - q == (r - q * ten ^ places) * / ten ^ places)%Q)
    by (field; lra).
  rewrite Heq. rewrite Qabs_Qmult. rewrite (Qabs_pos (/ ten ^ places)) by lra.
  unfold Qdiv. apply Qmult_le_compat_r; [| lra].
  apply Qabs_Qle_condition. split; lra.
Qed.

Lemma round_to_nonneg (q : Q) (places : Z) : (0 <= q)%Q -> (0 <= round_to q places)%Q.
Proof.
  intros Hq.
  assert (H0 : (round_to 0 places == 0)%Q).
  { unfold round_to. rewrite (round_half_away_comp (0 * ten ^ places) 0) by ring.
    change (round_half_away 0) with 0. unfold Qdiv. ring. }
  rewrite <- H0. apply round_to_mono. exact Hq.
Qed.

End RoundingFacts.

(** ** The rounding of the registry and the converter, continued *)

Section RoundToDecimalPlaces.
Import entities.

(** X4.  [RoundToDecimalPlaces] gives its result the exponent
    [- DecimalPlaces], and returns a value that has this exponent as it is;
    so rounding twice is rounding once. *)
Theorem rounding_is_idempotent (c : Currency) (amount : Decimal) :
  Z.abs (DecimalPlaces c) < 2 ^ 31 ->
  exp (RoundToDecimalPlaces c amount) = - DecimalPlaces c
  /\ (forall d, exp d = - DecimalPlaces c -> RoundToDecimalPlaces c d = d)
  /\ RoundToDecimalPlaces c (RoundToDecimalPlaces c amount) = RoundToDecimalPlaces c amount.
Proof.
  intros Hp. unfold RoundToDecimalPlaces.
  assert (Hfix : forall d, exp d = - DecimalPlaces c -> Round d (DecimalPlaces c) = d).
  { intros d Hd. unfold Round. rewrite wrap32_id by lia.
    rewrite Hd, Z.eqb_refl. reflexivity. }
  split; [apply Round_exp; assumption |]. split; [exact Hfix |].
  apply Hfix. apply Round_exp. assumption.
Qed.

Lemma rounding_is_idempotent_witness :
  let c := mkCurrency "USDT" 6 (NewFromFloat (mkFloat 999 (-3))) in
  let amount := mkDecimal 57094314314159 (-9) in
  exp (RoundToDecimalPlaces c amount) = - 6
  /\ (forall d, exp d = - 6 -> RoundToDecimalPlaces c d = d)
  /\ RoundToDecimalPlaces c (RoundToDecimalPlaces c amount) = RoundToDecimalPlaces c amount.
Proof.
  exact (rounding_is_idempotent (mkCurrency "USDT" 6 (NewFromFloat (mkFloat 999 (-3))))
           (mkDecimal 57094314314159 (-9)) ltac:(cbn; lia)).
Defined.

(** X5.  [RoundToDecimalPlaces] moves an amount by at most half a unit of
    the last decimal place it keeps, and it keeps the order of amounts. *)
Theorem rounding_is_close_and_monotone (c : Currency) (a b : Decimal) :
  Z.abs (DecimalPlaces c) < 2 ^ 31 ->
  (Qabs (toQ (RoundToDecimalPlaces c a) - toQ a) <= (1 # 2) / ten ^ DecimalPlaces c)%Q
  /\ ((toQ a <= toQ b)%Q ->
      (toQ (RoundToDecimalPlaces c a) <= toQ (RoundToDecimalPlaces c b))%Q).
Proof.
  intros Hp. unfold RoundToDecimalPlaces. rewrite !Round_exact by assumption. split.
  - apply round_to_error.
  - apply round_to_mono.
Qed.

Lemma rounding_is_close_and_monotone_witness :
  let c := mkCurrency "WBTC" 8 (NewFromFloat (mkFloat 5703722 (-2))) in
  let a := mkDecimal 1123456789 (-9) in
  let b := mkDecimal 2 0 in
  (Qabs (toQ (RoundToDecimalPlaces c a) - toQ a) <= (1 # 2) / ten ^ 8)%Q
  /\ (toQ (RoundToDecimalPlaces c a) <= toQ (RoundToDecimalPlaces c b))%Q.
Proof.
  destruct (rounding_is_close_and_monotone
              (mkCurrency "WBTC" 8 (NewFromFloat (mkFloat 5703722 (-2))))
              (mkDecimal 1123456789 (-9)) (mkDecimal 2 0) ltac:(cbn; lia)) as [H1 H2].
  split; [exact H1 |]. apply H2. vm_compute. discriminate.
Defined.

End RoundToDecimalPlaces.

Section ConverterBounds.
Import Strings entities ExchangeQueryHandler.

Lemma NewFromString_exp (s : string) (a : Decimal) :
  NewFromString s = Return a -> in_int32 (exp a) = true.
Proof.
  assert (Hm : forall t e, parse_mantissa t e = Return a -> in_int32 (exp a) = true).
  { intros t e. unfold parse_mantissa.
    destruct (if (String.length t <=? 18)%nat then _ else _) as [v |]; [| discriminate].
    destruct (in_int32 e) eqn:He; [| discriminate]. intros [= <-]. exact He. }
  unfold NewFromString. destruct (cut_exponent s) as [mant etxt].
  destruct etxt as [t |].
  - destruct (Strconv.ParseInt t 32) as [[] | expInt]; cbn [obind]; try discriminate.
    destruct (cut_point mant) as [ip [fp |]]; [| apply Hm].
    destruct (has_point fp); [discriminate | apply Hm].
  - cbn [obind]. destruct (cut_point mant) as [ip [fp |]]; [| apply Hm].
    destruct (has_point fp); [discriminate | apply Hm].
Qed.

Lemma toQ_pos (d : Decimal) : 0 < value d <-> (0 < toQ d)%Q.
Proof.
  unfold toQ. pose proof (ten_pow_pos (exp d)) as Hp. split.
  - intros H. apply Qmult_lt_0_compat; [| assumption].
    rewrite Zlt_Qlt in H. exact H.
  - intros H. destruct (Z.lt_trichotomy (value d) 0) as [Hn | [Hz | ?]]; [| | assumption].
    + exfalso. rewrite Zlt_Qlt in Hn. change (inject_Z 0) with 0%Q in Hn.
      assert (inject_Z (value d) * ten ^ exp d <= 0 * ten ^ exp d)%Q
        by (apply Qmult_le_compat_r; lra). lra.
    + exfalso. rewrite Hz in H. change (inject_Z 0) with 0%Q in H. lra.
Qed.

(** The converter on the whole range of exponents on which it does not
    panic. *)
Lemma Handle_converts_in_range (q : ExchangeQuery) (amount : Decimal) (fc tc : Currency) :
  NewFromString (q_Amount q) = Return amount ->
  0 < value amount ->
  CryptoCurrencies !! normalize (q_From q) = Some fc ->
  CryptoCurrencies !! normalize (q_To q) = Some tc ->
  - 2 ^ 31 <= exp amount + exp (RateToUSD fc) ->
  exp amount + exp (RateToUSD fc) - exp (RateToUSD tc) + DivisionPrecision <= 2 ^ 31 - 1 ->
  exists res,
    Handle q = Return (mkExchangeResult (normalize (q_From q)) (normalize (q_To q))
                         (Round res (DecimalPlaces tc)))
    /\ exp res = - DivisionPrecision
    /\ (toQ res ==
          round_to (toQ amount * toQ (RateToUSD fc) / toQ (RateToUSD tc))
                   DivisionPrecision)%Q.
Proof.
  intros Hparse Hpos Hf Ht Hlo Hhi.
  rewrite (Handle_arith q amount fc tc) by assumption.
  destruct (registry_facts _ _ Hf) as (_ & Hfv & Hfe & _).
  destruct (registry_facts _ _ Ht) as (_ & Htv & Hte & _).
  pose proof (NewFromString_exp _ _ Hparse) as Hexp. apply in_int32_iff in Hexp.
  unfold DivisionPrecision in Hhi.
  rewrite Mul_value by (apply in_int32_iff; lia). cbn [obind].
  unfold Div, DivisionPrecision.
  destruct (DivRound_exact (E := error)
              (mkDecimal (value amount * value (RateToUSD fc))
                         (exp amount + exp (RateToUSD fc)))
              (RateToUSD tc) 16) as (res & Hdiv & Hrexp & Hres);
    cbn [value exp]; try (apply in_int32_iff; lia); try lia.
  exists res. rewrite Hdiv. cbn [obind]. split; [reflexivity |]. split; [exact Hrexp |].
  rewrite Hres. apply round_to_comp.
  rewrite toQ_mul, !Decimal_eta. reflexivity.
Qed.

(** X6.  For two currencies of the registry and a positive amount, the
    converter panics exactly when an exponent leaves the range of [int32]:
    in the product of the amount and the source rate, or in the division at
    16 places by the target rate.  Everywhere else it returns a result. *)
Theorem convert_panics_on_exponent_overflow :
  forall (q : ExchangeQuery) (amount : Decimal) (fc tc : Currency),
    NewFromString (q_Amount q) = Return amount ->
    0 < value amount ->
    CryptoCurrencies !! normalize (q_From q) = Some fc ->
    CryptoCurrencies !! normalize (q_To q) = Some tc ->
    let e1 := exp amount + exp (RateToUSD fc) in
    let e2 := e1 - exp (RateToUSD tc) + DivisionPrecision in
    (e1 < - 2 ^ 31 \/ 2 ^ 31 - 1 < e2 -> exists msg, Handle q = Panic msg)
    /\ (- 2 ^ 31 <= e1 /\ e2 <= 2 ^ 31 - 1 -> exists r, Handle q = Return r).
Proof.
  intros q amount fc tc Hparse Hpos Hf Ht. cbv zeta.
  destruct (registry_facts _ _ Hf) as (_ & Hfv & Hfe & _).
  destruct (registry_facts _ _ Ht) as (_ & Htv & Hte & _).
  pose proof (NewFromString_exp _ _ Hparse) as Hexp. apply in_int32_iff in Hexp.
  unfold DivisionPrecision.
  split.
  - rewrite (Handle_arith q amount fc tc) by assumption.
    destruct (Z.lt_ge_cases (exp amount + exp (RateToUSD fc)) (- 2 ^ 31)) as [Hlo | Hlo].
    + intros _. unfold Mul.
      assert (Hno : in_int32 (exp amount + exp (RateToUSD fc)) = false).
      { destruct (in_int32 _) eqn:H; [| reflexivity]. apply in_int32_iff in H. lia. }
      rewrite Hno. eauto.
    + intros [? | Hhi]; [lia |].
      rewrite Mul_value by (apply in_int32_iff; lia). cbn [obind].
      unfold Div, DivRound, QuoRem, DivisionPrecision. cbn [value exp].
      destruct (Z.eqb_spec (value (RateToUSD tc)) 0) as [? | _]; [lia |].
      rewrite (wrap32_id (Z.opp 16)) by lia.
      assert (Hno : in_int32 (exp amount + exp (RateToUSD fc) - exp (RateToUSD tc)
                              - Z.opp 16) = false).
      { destruct (in_int32 _) eqn:H; [| reflexivity]. apply in_int32_iff in H. lia. }
      rewrite Hno. cbn. eauto.
  - intros [Hlo Hhi].
    destruct (Handle_converts_in_range q amount fc tc) as (res & HH & _);
      try assumption. eauto.
Qed.

(** The statement above at an amount of 10^-2147483648 BEER. *)
Lemma convert_panics_on_exponent_overflow_witness :
  exists msg, Handle (mkExchangeQuery "BEER" "USDT" "1e-2147483648") = Panic msg.
Proof.
  refine (proj1 (convert_panics_on_exponent_overflow
                   (mkExchangeQuery "BEER" "USDT" "1e-2147483648")
                   (mkDecimal 1 (- 2147483648))
                   (mkCurrency "BEER" 18 (NewFromFloat (mkFloat 2461 (-8))))
                   (mkCurrency "USDT" 6 (NewFromFloat (mkFloat 999 (-3))))
                   _ _ _ _) _).
  - vm_compute. reflexivity.
  - cbn. lia.
  - vm_compute. reflexivity.
  - vm_compute. reflexivity.
  - left. cbn. lia.
Defined.

(** X7.  Between two currencies of the registry the converter keeps the
    order of amounts: a larger amount never converts to less. *)
Theorem convert_is_monotone :
  forall (q1 q2 : ExchangeQuery) (a1 a2 : Decimal) (fc tc : Currency),
    NewFromString (q_Amount q1) = Return a1 ->
    NewFromString (q_Amount q2) = Return a2 ->
    0 < value a1 ->
    (toQ a1 <= toQ a2)%Q ->
    - 2 ^ 31 + 8 <= exp a1 <= 2 ^ 31 - 23 ->
    - 2 ^ 31 + 8 <= exp a2 <= 2 ^ 31 - 23 ->
    normalize (q_From q2) = normalize (q_From q1) ->
    normalize (q_To q2) = normalize (q_To q1) ->
    CryptoCurrencies !! normalize (q_From q1) = Some fc ->
    CryptoCurrencies !! normalize (q_To q1) = Some tc ->
    exists r1 r2,
      Handle q1 = Return r1 /\ Handle q2 = Return r2
      /\ (toQ (Amount r1) <= toQ (Amount r2))%Q.
Proof.
  intros q1 q2 a1 a2 fc tc Hp1 Hp2 Hpos Hle He1 He2 Hfrom Hto Hf Ht.
  assert (Hpos2 : 0 < value a2).
  { apply toQ_pos. apply toQ_pos in Hpos. lra. }
  destruct (registry_facts _ _ Hf) as (_ & Hfv & _).
  destruct (registry_facts _ _ Ht) as (_ & Htv & _ & Hdp & _).
  assert (Hdp' : Z.abs (DecimalPlaces tc) < 2 ^ 31) by lia.
  destruct (Handle_converts q1 a1 fc tc Hp1 Hpos He1 Hf Ht) as (res1 & H1 & _ & Hr1).
  rewrite <- Hfrom in Hf. rewrite <- Hto in Ht.
  destruct (Handle_converts q2 a2 fc tc Hp2 Hpos2 He2 Hf Ht) as (res2 & H2 & _ & Hr2).
  eexists _, _. split; [exact H1 |]. split; [exact H2 |]. cbn [Amount].
  rewrite !Round_exact by assumption. apply round_to_mono.
  rewrite Hr1, Hr2. apply round_to_mono.
  apply toQ_pos in Hfv, Htv.
  unfold Qdiv. apply Qmult_le_compat_r.
  - apply Qmult_le_compat_r; [assumption | lra].
  - apply Qlt_le_weak, Qinv_lt_0_compat. assumption.
Qed.

(** The statement above at 1 and 2 WBTC in USDT. *)
Lemma convert_is_monotone_witness :
  exists r1 r2,
    Handle (mkExchangeQuery "WBTC" "USDT" "1.0") = Return r1
    /\ Handle (mkExchangeQuery "wbtc" " usdt " "2") = Return r2
    /\ (toQ (Amount r1) <= toQ (Amount r2))%Q.
Proof.
  refine (convert_is_monotone
            (mkExchangeQuery "WBTC" "USDT" "1.0") (mkExchangeQuery "wbtc" " usdt " "2")
            (mkDecimal 10 (-1)) (mkDecimal 2 0)
            (mkCurrency "WBTC" 8 (NewFromFloat (mkFloat 5703722 (-2))))
            (mkCurrency "USDT" 6 (NewFromFloat (mkFloat 999 (-3))))
            _ _ _ _ _ _ _ _ _ _).
  - vm_compute. reflexivity.
  - vm_compute. reflexivity.
  - cbn. lia.
  - vm_compute. discriminate.
  - cbn. lia.
  - cbn. lia.
  - vm_compute. reflexivity.
  - vm_compute. reflexivity.
  - vm_compute. reflexivity.
  - vm_compute. reflexivity.
Defined.

(** X8.  The amount the converter returns is never negative, and it is
    within half a unit of the 16th decimal place plus half a unit of the
    last decimal place of the target currency of the exact quotient
    [amount * rateToUSD[from] / rateToUSD[to]]. *)
Theorem convert_is_close_to_the_quotient :
  forall (q : ExchangeQuery) (amount : Decimal) (fc tc : Currency),
    NewFromString (q_Amount q) = Return amount ->
    0 < value amount ->
    - 2 ^ 31 + 8 <= exp amount <= 2 ^ 31 - 23 ->
    CryptoCurrencies !! normalize (q_From q) = Some fc ->
    CryptoCurrencies !! normalize (q_To q) = Some tc ->
    exists r,
      Handle q = Return r
      /\ (0 <= toQ (Amount r))%Q
      /\ (Qabs (toQ (Amount r) - toQ amount * toQ (RateToUSD fc) / toQ (RateToUSD tc))
          <= (1 # 2) / ten ^ DivisionPrecision + (1 # 2) / ten ^ DecimalPlaces tc)%Q.
Proof.
  intros q amount fc tc Hparse Hpos Hexp Hf Ht.
  destruct (registry_facts _ _ Hf) as (_ & Hfv & _).
  destruct (registry_facts _ _ Ht) as (_ & Htv & _ & Hdp & _).
  assert (Hdp' : Z.abs (DecimalPlaces tc) < 2 ^ 31) by lia.
  destruct (Handle_converts q amount fc tc Hparse Hpos Hexp Hf Ht) as (res & HH & _ & Hres).
  eexists. split; [exact HH |]. cbn [Amount].
  rewrite Round_exact by assumption.
  set (x := (toQ amount * toQ (RateToUSD fc) / toQ (RateToUSD tc))%Q) in *.
  assert (Hx : (0 <= x)%Q).
  { apply toQ_pos in Hpos, Hfv, Htv. unfold x, Qdiv.
    apply Qmult_le_0_compat; [apply Qmult_le_0_compat; lra |].
    apply Qlt_le_weak, Qinv_lt_0_compat. assumption. }
  split.
  - apply round_to_nonneg. rewrite Hres. apply round_to_nonneg. exact Hx.
  - pose proof (round_to_error (toQ res) (DecimalPlaces tc)) as E1.
    pose proof (round_to_error x DivisionPrecision) as E2.
    rewrite <- Hres in E2.
    apply Qabs_Qle_condition in E1 as [E1a E1b].
    apply Qabs_Qle_condition in E2 as [E2a E2b].
    apply Qabs_Qle_condition. split; lra.
Qed.

(** The statement above at one USDT in GATE. *)
Lemma convert_is_close_to_the_quotient_witness :
  exists r,
    Handle (mkExchangeQuery "USDT" "GATE" "1") = Return r
    /\ (0 <= toQ (Amount r))%Q
    /\ (Qabs (toQ (Amount r) - toQ (mkDecimal 1 0) * toQ (mkDecimal 999 (-3))
                               / toQ (mkDecimal 687 (-2)))
        <= (1 # 2) / ten ^ 16 + (1 # 2) / ten ^ 18)%Q.
Proof.
  refine (convert_is_close_to_the_quotient
            (mkExchangeQuery "USDT" "GATE" "1") (mkDecimal 1 0)
            (mkCurrency "USDT" 6 (NewFromFloat (mkFloat 999 (-3))))
            (mkCurrency "GATE" 18 (NewFromFloat (mkFloat 687 (-2))))
            _ _ _ _ _).
  - vm_compute. reflexivity.
  - cbn. lia.
  - cbn. lia.
  - vm_compute. reflexivity.
  - vm_compute. reflexivity.
Defined.

End ConverterBounds.

(** ** The cross rates, continued *)

Section CrossRateList.
Import entities GetRatesQueryHandler.
Context {E : Type}.

Lemma inner_loop_pairs (rates : gmap string float64) (from : string)
    (tos : list string) (result res : list ExchangeRate) :
  inner_loop (E := E) rates from tos result = Return res ->
  map (fun x => (rate_From x, rate_To x)) res
  = (map (fun x => (rate_From x, rate_To x)) result
     ++ map (pair from) (List.filter (fun to => negb (String.eqb from to)) tos))%list.
Proof.
  revert result. induction tos as [| to tos IH]; intros result; cbn [inner_loop List.filter].
  - intros [= <-]. cbn. rewrite app_nil_r. reflexivity.
  - destruct (negb (from =? to)%string).
    + destruct (calculateRate rates from to) as [rate | |]; try discriminate.
      intros H. apply IH in H. rewrite H, map_app. cbn [map].
      rewrite <- app_assoc. reflexivity.
    + apply IH.
Qed.

Lemma outer_loop_pairs (rates : gmap string float64) (froms currencies : list string)
    (result res : list ExchangeRate) :
  outer_loop (E := E) rates froms currencies result = Return res ->
  map (fun x => (rate_From x, rate_To x)) res
  = (map (fun x => (rate_From x, rate_To x)) result
     ++ flat_map (fun from => map (pair from)
                    (List.filter (fun to => negb (String.eqb from to)) currencies)) froms)%list.
Proof.
  revert result. induction froms as [| from froms IH]; intros result; cbn [outer_loop flat_map].
  - intros [= <-]. rewrite app_nil_r. reflexivity.
  - destruct (inner_loop rates from currencies result) as [r | |] eqn:Hin; try discriminate.
    cbn [obind]. intros H. apply IH in H. rewrite H.
    rewrite (inner_loop_pairs _ _ _ _ _ Hin), <- app_assoc. reflexivity.
Qed.






End CrossRateList.

Section CrossRateListWitnesses.
Import entities GetRatesQueryHandler TestRatesRepository.



End CrossRateListWitnesses.

(** ** The provider, continued *)

Section MockProvider.
Import gobreaker repositories.

Lemma mock_loop_lookup (currencies : list string) (result : gmap string float64) (c : string) :
  mock_loop currencies result !! c
  = if decide (c ∈ currencies /\ is_Some (mockRates !! c)) then mockRates !! c
    else result !! c.
Proof.
  revert result. induction currencies as [| x xs IH]; intros result; cbn [mock_loop].
  - destruct (decide (c ∈ [] /\ _)) as [[H _] | _]; [| reflexivity].
    apply elem_of_nil in H. contradiction.
  - destruct (mockRates !! x) as [rate |] eqn:Hx.
    + rewrite IH.
      destruct (decide (c ∈ xs /\ is_Some (mockRates !! c))) as [[H1 H2] | H];
        destruct (decide (c ∈ x :: xs /\ is_Some (mockRates !! c))) as [[H1' H2'] | H'];
        try reflexivity.
      * exfalso. apply H'. split; [right |]; assumption.
      * apply elem_of_cons in H1' as [-> | H1']; [| exfalso; apply H; split; assumption].
        rewrite lookup_insert_eq. symmetry. exact Hx.
      * rewrite lookup_insert_ne; [reflexivity |]. intros ->.
        apply H'. split; [left | rewrite Hx; eauto].
    + rewrite IH.
      destruct (decide (c ∈ xs /\ is_Some (mockRates !! c))) as [[H1 H2] | H];
        destruct (decide (c ∈ x :: xs /\ is_Some (mockRates !! c))) as [[H1' H2'] | H'];
        try reflexivity.
      * exfalso. apply H'. split; [right |]; assumption.
      * exfalso. apply elem_of_cons in H1' as [-> | H1'].
        -- rewrite Hx in H2'. destruct H2' as [? ?]. discriminate.
        -- apply H. split; assumption.
Qed.

(** What the mock table answers for a request. *)
Lemma getMockRates_lookup (currencies : list string) (c : string) :
  getMockRates currencies !! c = if decide (c ∈ currencies) then mockRates !! c else None.
Proof.
  unfold getMockRates. rewrite mock_loop_lookup, lookup_empty.
  destruct (decide (c ∈ currencies /\ is_Some (mockRates !! c))) as [[H1 H2] | H];
    destruct (decide (c ∈ currencies)) as [H' | H']; try reflexivity; try contradiction.
  destruct (mockRates !! c) eqn:Hc; [| reflexivity].
  exfalso. apply H. split; [assumption | eauto].
Qed.

(** X11.  Without a credential [GetRates] always succeeds, whatever state
    the breaker is in: it answers from the mock table, with the rate of
    every requested code the table holds and nothing for the others, and it
    changes neither the breaker nor the network. *)
Theorem mock_rates_are_the_table_restricted_to_the_request :
  forall (r : RatesRepositoryImpl) (now1 now2 now3 : Z) (http : HttpOutcome)
         (currencies : list string) (net : Network),
    OpenExchangeAPIKey (config r) = "" ->
    exists rates,
      GetRates r now1 now2 now3 http currencies net = (Return (rates, mockInfo), r, net)
      /\ forall c, rates !! c = if decide (c ∈ currencies) then mockRates !! c else None.
Proof.
  intros r now1 now2 now3 http currencies net Hkey.
  exists (getMockRates currencies). split.
  - unfold GetRates. rewrite Hkey. reflexivity.
  - apply getMockRates_lookup.
Qed.

Lemma mock_rates_are_the_table_restricted_to_the_request_witness :
  exists rates,
    GetRates (NewRatesRepositoryImpl (mkConfig "" "http://127.0.0.1") 0) 1 2 3
             RoundTripFailed ["USD"; "XXX"; "EUR"] []
    = (Return (rates, mockInfo), NewRatesRepositoryImpl (mkConfig "" "http://127.0.0.1") 0, [])
    /\ forall c, rates !! c = if decide (c ∈ ["USD"; "XXX"; "EUR"]) then mockRates !! c
                              else None.
Proof.
  exact (mock_rates_are_the_table_restricted_to_the_request
           (NewRatesRepositoryImpl (mkConfig "" "http://127.0.0.1") 0) 1 2 3
           RoundTripFailed ["USD"; "XXX"; "EUR"] [] eq_refl).
Defined.

End MockProvider.

Section BreakerInvariants.
Import gobreaker repositories Invariants.

(** A call hands one request to the HTTP client when it is admitted and the
    request can be built, and none otherwise. *)
Lemma GetRates_network (r : RatesRepositoryImpl) (now1 now2 now3 : Z) (http : HttpOutcome)
    (currencies : list string) (net : Network) :
  snd (GetRates r now1 now2 now3 http currencies net)
  = if String.eqb (OpenExchangeAPIKey (config r)) "" then net
    else match fst (beforeRequest (circuitBreaker r) now1), http with
         | Return _, RoundTripFailed | Return _, Response _ _ =>
             (net ++ [request_url (config r) currencies])%list
         | _, _ => net
         end.
Proof.
  unfold GetRates. destruct (String.eqb (OpenExchangeAPIKey (config r)) ""); [reflexivity |].
  unfold Execute.
  destruct (beforeRequest (circuitBreaker r) now1) as [[gen | e | msg] cb1]; cbn [fst].
  - unfold fetchRatesFromAPI.
    destruct http as [| | status body]; cbn [snd]; try reflexivity.
    destruct (negb (status =? StatusOK)); [reflexivity |].
    destruct body as [upstream |]; [| reflexivity].
    destruct (rates_loop upstream currencies (base_loop currencies ∅)); reflexivity.
  - destruct e; destruct http; reflexivity.
  - destruct http; reflexivity.
Qed.

Lemma toNewGeneration_configured (cb : CircuitBreaker) (now : Z) :
  configured cb -> configured (toNewGeneration cb now).
Proof. intros H. exact H. Qed.

Lemma setState_configured (cb : CircuitBreaker) (s : State) (now : Z) :
  configured cb -> configured (setState cb s now).
Proof. intros H. unfold setState. destruct (State_eqb (state cb) s); exact H. Qed.

Lemma currentState_trials_counted (cb : CircuitBreaker) (now : Z) :
  trials_counted cb -> trials_counted (currentState cb now).
Proof.
  intros [Hcfg Hho]. unfold currentState.
  destruct (state cb) eqn:Hst.
  - destruct (negb (expiry_is_zero (expiry cb)) && expiry_before (expiry cb) now).
    + split; [exact Hcfg |]. cbn [toNewGeneration state]. rewrite Hst. discriminate.
    + split; [exact Hcfg |]. rewrite Hst. discriminate.
  - split; [exact Hcfg |]. intros _. apply Hho. reflexivity.
  - destruct (expiry_before (expiry cb) now).
    + unfold setState. rewrite Hst. cbn [State_eqb].
      split; [exact Hcfg |]. intros _. cbn. lia.
    + split; [exact Hcfg |]. rewrite Hst. discriminate.
Qed.

(** One call keeps the count of trials in step, and is not turned away for
    too many requests. *)
Lemma GetRates_trials_counted (r : RatesRepositoryImpl) (now1 now2 now3 : Z)
    (http : HttpOutcome) (currencies : list string) (net : Network) :
  trials_counted (circuitBreaker r) ->
  let '(o, r', _) := GetRates r now1 now2 now3 http currencies net in
  trials_counted (circuitBreaker r') /\ o <> Fail ErrRateLimited.
Proof.
  intros Hinv. unfold GetRates.
  destruct (String.eqb (OpenExchangeAPIKey (config r)) ""); [split; [exact Hinv | discriminate] |].
  unfold Execute, beforeRequest. cbv zeta.
  pose proof (currentState_trials_counted _ now1 Hinv) as Hinv1.
  set (cb1 := currentState (circuitBreaker r) now1) in *.
  destruct Hinv1 as [Hcfg1 Hho1]. clearbody cb1.
  destruct (state cb1) eqn:Hst1.
  - (* closed: admitted *)
    set (cb2 := with_counts cb1 (counts_onRequest (counts cb1))).
    assert (Hst2 : state cb2 = StateClosed) by exact Hst1.
    assert (Hcfg2 : configured cb2) by exact Hcfg1.
    assert (Hafter : forall ok, trials_counted (afterRequest cb2 (generation cb1) ok now2)).
    { intros ok. unfold afterRequest.
      assert (Hc : trials_counted (currentState cb2 now2)).
      { apply currentState_trials_counted. split; [exact Hcfg2 |]. rewrite Hst2. discriminate. }
      assert (Hs : state (currentState cb2 now2) = StateClosed).
      { unfold currentState. rewrite Hst2.
        destruct (negb (expiry_is_zero (expiry cb2)) && expiry_before (expiry cb2) now2);
          [cbn [toNewGeneration state] |]; exact Hst2. }
      set (cb3 := currentState cb2 now2) in *.
      destruct (negb (generation cb3 =? generation cb1)); [exact Hc |].
      destruct Hc as [Hcfg3 _].
      destruct ok.
      - unfold onSuccess. rewrite Hs. split; [exact Hcfg3 |]. cbn [with_counts state].
        rewrite Hs. discriminate.
      - unfold onFailure. rewrite Hs. cbv zeta.
        destruct (readyToTrip _ _).
        + unfold setState. cbn [with_counts state]. rewrite Hs. cbn [State_eqb].
          split; [exact Hcfg3 |]. cbn. discriminate.
        + split; [exact Hcfg3 |]. cbn [with_counts state]. rewrite Hs. discriminate. }
    destruct (fetchRatesFromAPI (config r) http currencies net) as [[rates | e | msg] n1];
      unfold CircuitBreaker_State; cbn [circuitBreaker];
      (split; [| discriminate]);
      try apply currentState_trials_counted; apply Hafter.
  - (* half-open: a trial *)
    destruct (Hho1 eq_refl) as [Heq Hrange].
    destruct Hcfg1 as (Hmr & Hiv & Hto & Hrt).
    destruct (Z.leb_spec (maxRequests cb1) (Requests (counts cb1))) as [? | _]; [lia |].
    set (cb2 := with_counts cb1 (counts_onRequest (counts cb1))).
    assert (Hafter : forall ok, trials_counted (afterRequest cb2 (generation cb1) ok now2)).
    { intros ok. unfold afterRequest.
      assert (Hcur : currentState cb2 now2 = cb2).
      { unfold currentState, cb2. cbn [with_counts state]. rewrite Hst1. reflexivity. }
      rewrite Hcur. unfold cb2. cbn [with_counts generation]. rewrite Z.eqb_refl. cbn [negb].
      destruct ok.
      - unfold onSuccess. cbn [with_counts state]. rewrite Hst1.
        cbn [with_counts maxRequests counts counts_onSuccess counts_onRequest
             ConsecutiveSuccesses Requests].
        rewrite Hmr. rewrite <- Heq.
        rewrite (wrapu32_small (Requests (counts cb1) + 1)) by lia.
        destruct (Z.leb_spec 3 (Requests (counts cb1) + 1)) as [Hc | Hc].
        + unfold setState. cbn [with_counts state]. rewrite Hst1. cbn [State_eqb].
          split; [repeat split; assumption |]. cbn. discriminate.
        + split; [repeat split; assumption |]. intros _.
          cbn [with_counts counts Requests ConsecutiveSuccesses counts_onSuccess
               counts_onRequest].
          rewrite <- Heq. rewrite (wrapu32_small (Requests (counts cb1) + 1)) by lia. lia.
      - unfold onFailure. cbn [with_counts state]. rewrite Hst1.
        unfold setState. cbn [with_counts state]. rewrite Hst1. cbn [State_eqb].
        split; [repeat split; assumption |]. cbn. discriminate. }
    destruct (fetchRatesFromAPI (config r) http currencies net) as [[rates | e | msg] n1];
      unfold CircuitBreaker_State; cbn [circuitBreaker];
      (split; [| discriminate]);
      try apply currentState_trials_counted; apply Hafter.
  - (* open: turned away *)
    cbn [circuitBreaker]. split; [| discriminate].
    split; [exact Hcfg1 | rewrite Hst1; discriminate].
Qed.

Lemma NewRatesRepositoryImpl_trials_counted (cfg : Config) (now : Z) :
  trials_counted (circuitBreaker (NewRatesRepositoryImpl cfg now)).
Proof.
  split; [| discriminate]. unfold configured. cbn. repeat split.
Qed.

(** X13.  When calls do not overlap, none of them is turned away with the
    "rate limited" error: from the repository [NewRatesRepositoryImpl]
    builds, and whatever the clock and the network do, a half-open breaker
    has always counted as many requests as successes and fewer than three. *)
Theorem calls_in_turn_are_never_rate_limited :
  forall (cfg : Config) (now : Z) (net : Network) (calls : list Call),
    let '(os, r, _) := GetRates_seq (NewRatesRepositoryImpl cfg now) net calls in
    Forall (fun o => o <> Fail ErrRateLimited) os /\ trials_counted (circuitBreaker r).
Proof.
  intros cfg now net calls.
  assert (H : forall calls r net, trials_counted (circuitBreaker r) ->
            let '(os, r', _) := GetRates_seq r net calls in
            Forall (fun o => o <> Fail ErrRateLimited) os
            /\ trials_counted (circuitBreaker r')).
  { clear. induction calls as [| c calls IH]; intros r net Hinv; cbn [GetRates_seq].
    - split; [constructor | exact Hinv].
    - pose proof (GetRates_trials_counted r (call_now1 c) (call_now2 c) (call_now3 c)
                    (call_http c) (call_currencies c) net Hinv) as Hstep.
      destruct (GetRates r (call_now1 c) (call_now2 c) (call_now3 c) (call_http c)
                  (call_currencies c) net) as [[o r1] net1].
      destruct Hstep as [Hinv1 Ho].
      specialize (IH r1 net1 Hinv1).
      destruct (GetRates_seq r1 net1 calls) as [[os r2] net2].
      destruct IH as [Hos Hinv2]. split; [| exact Hinv2].
      constructor; assumption. }
  apply H. apply NewRatesRepositoryImpl_trials_counted.
Qed.

End BreakerInvariants.

Section BreakerCounting.
Import gobreaker repositories.

(** The timed transition of a closed breaker leaves it closed; it keeps
    the count of consecutive failures or clears it. *)
Lemma currentState_closed_keeps (cb : CircuitBreaker) (now : Z) :
  state cb = StateClosed ->
  state (currentState cb now) = StateClosed
  /\ readyToTrip (currentState cb now) = readyToTrip cb
  /\ (ConsecutiveFailures (counts (currentState cb now)) = ConsecutiveFailures (counts cb)
      \/ ConsecutiveFailures (counts (currentState cb now)) = 0).
Proof.
  intros Hst. unfold currentState. rewrite Hst.
  destruct (negb (expiry_is_zero (expiry cb)) && expiry_before (expiry cb) now).
  - cbn. rewrite Hst. repeat split. right. reflexivity.
  - rewrite Hst. repeat split. left. reflexivity.
Qed.

(** X14.  A closed breaker counts failures in a row: a call that succeeds
    before the counting interval has elapsed sets the count of consecutive
    failures back to zero and leaves the breaker closed, however many
    failures were counted before it. *)
Theorem a_success_resets_the_failure_count :
  forall (r : RatesRepositoryImpl) (E now1 now2 now3 : Z) (http : HttpOutcome)
         (currencies : list string) (net : Network) (rates : gmap string float64),
    OpenExchangeAPIKey (config r) <> "" ->
    configured (circuitBreaker r) ->
    state (circuitBreaker r) = StateClosed ->
    expiry (circuitBreaker r) = Some E ->
    now1 <= E -> now2 <= E ->
    fst (fetchRatesFromAPI (config r) http currencies net) = Return rates ->
    exists r' net',
      GetRates r now1 now2 now3 http currencies net = (Return (rates, liveInfo), r', net')
      /\ state (circuitBreaker r') = StateClosed
      /\ ConsecutiveFailures (counts (circuitBreaker r')) = 0.
Proof.
  intros r E now1 now2 now3 http currencies net rates Hkey Hcfg Hst Hexp Hn1 Hn2 Hfetch.
  rewrite (GetRates_closed r E now1 now2 now3) by assumption. cbv zeta.
  destruct (fetchRatesFromAPI (config r) http currencies net) as [o net'].
  cbn [fst] in Hfetch. subst o.
  destruct r as [cfg cb]. cbn [config circuitBreaker] in *.
  destruct cb as [mr iv to rt st gen cnt ex]. cbn in Hst, Hexp. subst st ex.
  eexists _, net'. split; [reflexivity |].
  unfold currentState, with_counts. cbn [state expiry circuitBreaker].
  cbn [expiry_is_zero negb andb expiry_before].
  destruct (E <? now3); cbn; split; reflexivity.
Qed.

Lemma a_success_resets_the_failure_count_witness :
  exists r' net',
    GetRates (mkRatesRepositoryImpl test_config
                (mkCircuitBreaker 3 (60 * second) (30 * second)
                   (fun counts => 3 <=? ConsecutiveFailures counts)
                   StateClosed 1 (mkCounts 2 0 2 0 2) (Some (60 * second))))
             (10 * second) (11 * second) (11 * second) server_eur ["EUR"] []
    = (Return (<["EUR" := mkFloat 85 (-2)]> ∅, liveInfo), r', net')
    /\ state (circuitBreaker r') = StateClosed
    /\ ConsecutiveFailures (counts (circuitBreaker r')) = 0.
Proof.
  refine (a_success_resets_the_failure_count
            (mkRatesRepositoryImpl test_config
               (mkCircuitBreaker 3 (60 * second) (30 * second)
                  (fun counts => 3 <=? ConsecutiveFailures counts)
                  StateClosed 1 (mkCounts 2 0 2 0 2) (Some (60 * second))))
            (60 * second) (10 * second) (11 * second) (11 * second) server_eur ["EUR"] []
            (<["EUR" := mkFloat 85 (-2)]> ∅) _ _ _ _ _ _ _).
  - discriminate.
  - unfold configured. cbn. repeat split.
  - reflexivity.
  - reflexivity.
  - unfold second. lia.
  - unfold second. lia.
  - vm_compute. reflexivity.
Defined.

(** X15.  A closed breaker counts failures of one counting interval only:
    when the interval has elapsed before a call, the failures counted in it
    are dropped, so that a call that fails then leaves the breaker closed
    with at most one failure counted, however many were counted before. *)
Theorem failures_of_an_elapsed_interval_are_dropped :
  forall (r : RatesRepositoryImpl) (E now1 now2 now3 : Z) (http : HttpOutcome)
         (currencies : list string) (net : Network) (e : fetch_error),
    OpenExchangeAPIKey (config r) <> "" ->
    configured (circuitBreaker r) ->
    state (circuitBreaker r) = StateClosed ->
    expiry (circuitBreaker r) = Some E ->
    E < now1 ->
    fst (fetchRatesFromAPI (config r) http currencies net) = Fail e ->
    exists r' net',
      GetRates r now1 now2 now3 http currencies net = (Fail (ErrFetch e), r', net')
      /\ state (circuitBreaker r') = StateClosed
      /\ 0 <= ConsecutiveFailures (counts (circuitBreaker r')) <= 1.
Proof.
  intros r E now1 now2 now3 http currencies net e Hkey Hcfg Hst Hexp Hn1 Hfetch.
  unfold GetRates. apply String.eqb_neq in Hkey. rewrite Hkey.
  destruct (fetchRatesFromAPI (config r) http currencies net) as [o net'] eqn:HF.
  cbn [fst] in Hfetch. subst o.
  destruct Hcfg as (_ & _ & _ & Hrt).
  unfold Execute, beforeRequest. cbv zeta.
  (* the interval has elapsed: a new generation with cleared counts *)
  assert (H1 : currentState (circuitBreaker r) now1 = toNewGeneration (circuitBreaker r) now1).
  { unfold currentState. rewrite Hst, Hexp.
    cbn [expiry_is_zero negb andb expiry_before].
    rewrite (proj2 (Z.ltb_lt E now1)) by assumption. reflexivity. }
  rewrite H1. cbn [toNewGeneration state]. rewrite Hst. rewrite HF.
  set (cb2 := with_counts _ _).
  assert (Hst2 : state cb2 = StateClosed) by exact Hst.
  assert (Hrt2 : readyToTrip cb2 = (fun counts => 3 <=? ConsecutiveFailures counts)) by exact Hrt.
  assert (Hcf2 : ConsecutiveFailures (counts cb2) = 0) by reflexivity.
  clearbody cb2.
  destruct (currentState_closed_keeps cb2 now2 Hst2) as (Hst3 & Hrt3 & Hcf3).
  rewrite Hrt2 in Hrt3. rewrite Hcf2 in Hcf3.
  assert (Hcf3' : ConsecutiveFailures (counts (currentState cb2 now2)) = 0) by tauto.
  clear Hcf3. unfold afterRequest. set (cb3 := currentState cb2 now2) in *. clearbody cb3.
  assert (Hafter : let cb4 :=
                     if negb (generation cb3
                              =? generation (toNewGeneration (circuitBreaker r) now1))
                     then cb3 else onFailure cb3 now2 in
                   state cb4 = StateClosed
                   /\ 0 <= ConsecutiveFailures (counts cb4) <= 1).
  { cbv zeta. destruct (negb _); [split; [assumption | lia] |].
    unfold onFailure. rewrite Hst3. cbv zeta. cbn [with_counts readyToTrip counts].
    rewrite Hrt3. cbn [counts_onFailure ConsecutiveFailures]. rewrite Hcf3'.
    rewrite (wrapu32_small (0 + 1)) by lia. change (3 <=? 0 + 1) with false. cbv iota.
    cbn [state with_counts counts counts_onFailure ConsecutiveFailures].
    rewrite Hcf3', (wrapu32_small (0 + 1)) by lia. split; [assumption | lia]. }
  cbv zeta in Hafter. cbn [toNewGeneration generation] in Hafter |- *.
  set (cb4 := if negb _ then cb3 else onFailure cb3 now2) in *. clearbody cb4.
  destruct Hafter as [Hst4 Hcf4].
  destruct (currentState_closed_keeps cb4 now3 Hst4) as (Hst5 & _ & Hcf5).
  eexists _, net'. unfold CircuitBreaker_State. split; [reflexivity |].
  cbn [circuitBreaker]. split; [assumption | lia].
Qed.

Lemma failures_of_an_elapsed_interval_are_dropped_witness :
  exists r' net',
    GetRates (mkRatesRepositoryImpl test_config
                (mkCircuitBreaker 3 (60 * second) (30 * second)
                   (fun counts => 3 <=? ConsecutiveFailures counts)
                   StateClosed 1 (mkCounts 2 0 2 0 2) (Some (60 * second))))
             (61 * second) (62 * second) (62 * second) server_error ["USD"; "EUR"] []
    = (Fail (ErrFetch (ErrStatus 500)), r', net')
    /\ state (circuitBreaker r') = StateClosed
    /\ 0 <= ConsecutiveFailures (counts (circuitBreaker r')) <= 1.
Proof.
  refine (failures_of_an_elapsed_interval_are_dropped
            (mkRatesRepositoryImpl test_config
               (mkCircuitBreaker 3 (60 * second) (30 * second)
                  (fun counts => 3 <=? ConsecutiveFailures counts)
                  StateClosed 1 (mkCounts 2 0 2 0 2) (Some (60 * second))))
            (60 * second) (61 * second) (62 * second) (62 * second) server_error
            ["USD"; "EUR"] [] (ErrStatus 500) _ _ _ _ _ _).
  - discriminate.
  - unfold configured. cbn. repeat split.
  - reflexivity.
  - reflexivity.
  - unfold second. lia.
  - vm_compute. reflexivity.
Defined.

End BreakerCounting.

Section LiveProvider.
Import Strings gobreaker repositories GetRatesQueryHandler.

(** A mapping the live path returns holds every requested code. *)
Lemma fetchRatesFromAPI_complete (cfg : Config) (http : HttpOutcome)
    (currencies : list string) (net : Network) (rates : gmap string float64) :
  fst (fetchRatesFromAPI cfg http currencies net) = Return rates ->
  forall c, c ∈ currencies -> is_Some (rates !! c).
Proof.
  unfold fetchRatesFromAPI. destruct http as [| | status body]; cbn [fst]; try discriminate.
  destruct (negb (status =? StatusOK)); [discriminate |].
  destruct body as [upstream |]; [| discriminate]. cbn [fst].
  pose proof (rates_loop_outcome upstream currencies (base_loop currencies ∅)) as Hloop.
  destruct (rates_loop upstream currencies (base_loop currencies ∅)) as [res | e | msg];
    try discriminate.
  intros [= <-] c Hc. destruct Hloop as [Hall Hres]. rewrite Hres.
  destruct (decide (c ∈ currencies /\ c <> "USD")) as [[_ Hne] | Hn].
  - apply Hall; assumption.
  - assert (c = "USD") as ->.
    { destruct (decide (c = "USD")); [assumption | exfalso; apply Hn; split; assumption]. }
    rewrite base_loop_spec. destruct (decide ("USD" ∈ currencies)); [| contradiction].
    rewrite lookup_insert_eq. eauto.
Qed.

Lemma GetRates_live_complete (r : RatesRepositoryImpl) (now1 now2 now3 : Z)
    (http : HttpOutcome) (currencies : list string) (net : Network)
    (rates : gmap string float64) (info : string) :
  OpenExchangeAPIKey (config r) <> "" ->
  fst (fst (GetRates r now1 now2 now3 http currencies net)) = Return (rates, info) ->
  info = liveInfo /\ forall c, c ∈ currencies -> is_Some (rates !! c).
Proof.
  intros Hkey. unfold GetRates. apply String.eqb_neq in Hkey. rewrite Hkey.
  unfold Execute.
  destruct (beforeRequest (circuitBreaker r) now1) as [[gen | e | msg] cb1].
  - pose proof (fetchRatesFromAPI_complete (config r) http currencies net) as Hc.
    destruct (fetchRatesFromAPI (config r) http currencies net) as [[rs | e | msg] n1];
      unfold CircuitBreaker_State; cbn [fst]; try discriminate.
    intros [= <- <-]. split; [reflexivity |]. apply Hc. reflexivity.
  - destruct e; discriminate.
  - discriminate.
Qed.

(** X16.  With a credential configured, the calculator never reports a
    code as "not supported or not available": a mapping that comes back from
    the live path holds every requested code, so a code the upstream does not
    know is reported by the provider, and the completeness check of [Handle]
    always passes. *)
Theorem live_rates_are_never_incomplete :
  forall (r : RatesRepositoryImpl) (now1 now2 now3 : Z) (http : HttpOutcome)
         (net : Network) (query : list string) (c : string),
    OpenExchangeAPIKey (config r) <> "" ->
    Handle (server.ratesRepo r now1 now2 now3 http net) query <> Fail (ErrNotAvailable c).
Proof.
  intros r now1 now2 now3 http net query c Hkey. unfold Handle.
  destruct (length query <? 2)%nat; [discriminate |].
  unfold server.ratesRepo.
  pose proof (GetRates_live_complete r now1 now2 now3 http (map normalize query) net) as Hc.
  destruct (fst (fst (GetRates r now1 now2 now3 http (map normalize query) net)))
    as [[rates info] | e | msg]; try discriminate.
  destruct (Hc rates info Hkey eq_refl) as [_ Hall].
  pose proof (check_present_outcome (E := repositories.error) rates
                (map normalize query)) as Hcheck.
  destruct (check_present rates (map normalize query)) as [[] | e | msg].
  - cbn [obind].
    pose proof (outer_loop_outcome (E := repositories.error) rates (map normalize query)
                  (map normalize query) []) as Hloop.
    destruct (outer_loop rates (map normalize query) (map normalize query) [])
      as [res | e | msg]; cbn [obind]; try discriminate.
    destruct Hloop as (from & to & err & -> & _). discriminate.
  - destruct Hcheck as (c' & -> & Hin & Hnone).
    destruct (Hall c' Hin) as [x Hx]. congruence.
  - contradiction.
Qed.

Lemma live_rates_are_never_incomplete_witness :
  Handle (server.ratesRepo (NewRatesRepositoryImpl test_config 0) 1 2 3 server_eur [])
         ["EUR"; "GBP"]
  = Fail (ErrGetRates (ErrFetch (ErrNotSupportedByProvider "GBP")))
  /\ Handle (server.ratesRepo (NewRatesRepositoryImpl test_config 0) 1 2 3 server_eur [])
            ["EUR"; "GBP"]
     <> Fail (ErrNotAvailable "GBP").
Proof.
  split; [vm_compute; reflexivity |].
  exact (live_rates_are_never_incomplete (NewRatesRepositoryImpl test_config 0) 1 2 3
           server_eur [] ["EUR"; "GBP"] "GBP" ltac:(discriminate)).
Defined.

(** X17.  The URL of the upstream request is built from the fields of the
    [currencies] parameter, trimmed and in upper case, joined by commas again
    and not escaped.  So for a parameter without a byte above 127 whose
    fields are already in that form, the request that an admitted call hands
    to the HTTP client is built from the text
    [<base>/latest.json?app_id=<key>&symbols=<parameter>], the parameter
    being there as the client wrote it. *)
Theorem the_request_url_holds_the_parameter_unescaped :
  forall (r : RatesRepositoryImpl) (now1 now2 now3 : Z) (http : HttpOutcome)
         (currenciesParam : string) (net : Network) (gen : Z) (cb1 : CircuitBreaker),
    OpenExchangeAPIKey (config r) <> "" ->
    beforeRequest (circuitBreaker r) now1 = (Return gen, cb1) ->
    http <> RequestNotCreated ->
    isASCII currenciesParam = true ->
    Forall (fun field => normalize field = field) (Split currenciesParam ",") ->
    snd (GetRates r now1 now2 now3 http (map normalize (Split currenciesParam ",")) net)
    = (net ++ [(OpenExchangeBaseURL (config r) ++ "/latest.json?app_id="
                  ++ OpenExchangeAPIKey (config r) ++ "&symbols=" ++ currenciesParam)%string])%list.
Proof.
  intros r now1 now2 now3 http p net gen cb1 Hkey Hbefore Hhttp _ Hnorm.
  rewrite GetRates_network. apply String.eqb_neq in Hkey. rewrite Hkey, Hbefore. cbn [fst].
  assert (Hmap : map normalize (Split p ",") = Split p ",").
  { induction Hnorm as [| f fs Hf _ IH]; cbn [map]; [reflexivity |]. rewrite Hf, IH.
    reflexivity. }
  rewrite Hmap. unfold request_url.
  destruct (Split_Join p ",") as [HJ _]. rewrite HJ.
  destruct http; [contradiction | reflexivity | reflexivity].
Qed.

Lemma the_request_url_holds_the_parameter_unescaped_witness :
  snd (GetRates (NewRatesRepositoryImpl test_config 0) 1 2 3 server_eur
         (map normalize (Split "USD,EUR&X=1" ",")) [])
  = ["http://127.0.0.1/latest.json?app_id=test-api-key&symbols=USD,EUR&X=1"].
Proof.
  refine (the_request_url_holds_the_parameter_unescaped
            (NewRatesRepositoryImpl test_config 0) 1 2 3
            server_eur "USD,EUR&X=1" [] 1
            (with_counts (NewCircuitBreaker settings 0)
               (counts_onRequest (counts (NewCircuitBreaker settings 0)))) _ _ _ _ _).
  - discriminate.
  - vm_compute. reflexivity.
  - discriminate.
  - reflexivity.
  - apply (bool_decide_unpack _). vm_compute. exact I.
Defined.

End LiveProvider.

(** ** The HTTP handlers *)

Section Handlers.
Import Strings entities repositories handlers.

(** [Handle] succeeds when the provider has a finite rate other than zero
    for every requested code. *)
Lemma Handle_succeeds {E} (ratesRepo : GetRatesQueryHandler.RatesRepository E)
    (query : list string) (rates : gmap string float64) (info : string) :
  ratesRepo (map GetRatesQueryHandler.normalize query) = Return (rates, info) ->
  (2 <= length query)%nat ->
  (forall c, c ∈ map GetRatesQueryHandler.normalize query ->
     exists r, rates !! c = Some r /\ float64_wf r = true /\ float_is_zero r = false) ->
  exists res,
    GetRatesQueryHandler.Handle ratesRepo query = Return (res, info)
    /\ map (fun x => (rate_From x, rate_To x)) res
       = ordered_pairs (map GetRatesQueryHandler.normalize query).
Proof.
  intros Hrepo Hlen Hall. unfold GetRatesQueryHandler.Handle.
  destruct (Nat.ltb_spec (length query) 2) as [? | _]; [lia |]. rewrite Hrepo.
  pose proof (check_present_outcome (E := E) rates
                (map GetRatesQueryHandler.normalize query)) as Hcheck.
  destruct (GetRatesQueryHandler.check_present rates
              (map GetRatesQueryHandler.normalize query)) as [[] | e | msg].
  - cbn [obind].
    pose proof (outer_loop_outcome (E := E) rates
                  (map GetRatesQueryHandler.normalize query)
                  (map GetRatesQueryHandler.normalize query) []) as Hloop.
    destruct (GetRatesQueryHandler.outer_loop rates
                (map GetRatesQueryHandler.normalize query)
                (map GetRatesQueryHandler.normalize query) []) as [res | e | msg] eqn:Hout.
    + cbn [obind]. exists res. split; [reflexivity |].
      apply outer_loop_pairs in Hout. exact Hout.
    + exfalso. destruct Hloop as (from & to & err & _ & Hf & Ht & _ & Hcalc).
      destruct (Hall from Hf) as (fr & Hfr & Hwf & Hzf).
      destruct (Hall to Ht) as (tr & Htr & Hwt & Hzt).
      rewrite (calculateRate_present rates from to fr tr Hfr Htr) in Hcalc.
      rewrite Hzf, Hzt in Hcalc. cbn [orb] in Hcalc.
      destruct (Div_floats (E' := GetRatesQueryHandler.rate_error) tr fr Hwt Hwf Hzf)
        as (rate & Hdiv & _). rewrite Hdiv in Hcalc. discriminate.
    + exfalso. destruct Hloop as (from & to & Hf & Ht & _ & Hcalc).
      destruct (Hall from Hf) as (fr & Hfr & Hwf & Hzf).
      destruct (Hall to Ht) as (tr & Htr & Hwt & Hzt).
      rewrite (calculateRate_present rates from to fr tr Hfr Htr) in Hcalc.
      rewrite Hzf, Hzt in Hcalc. cbn [orb] in Hcalc.
      destruct (Div_floats (E' := GetRatesQueryHandler.rate_error) tr fr Hwt Hwf Hzf)
        as (rate & Hdiv & _). rewrite Hdiv in Hcalc. discriminate.
  - exfalso. destruct Hcheck as (c & _ & Hin & Hnone).
    destruct (Hall c Hin) as (x & Hx & _). congruence.
  - contradiction.
Qed.

Lemma mockRates_finite (c : string) (rate : float64) :
  mockRates !! c = Some rate -> float64_wf rate = true /\ float_is_zero rate = false.
Proof.
  revert c rate.
  change (map_Forall (fun _ rate => float64_wf rate = true /\ float_is_zero rate = false)
            mockRates).
  apply (bool_decide_unpack _). vm_compute. exact I.
Qed.

(** X18.  The rates endpoint without a credential, for a [currencies]
    parameter without a byte above 127.  An empty parameter is answered with
    400 and the example.  Any other parameter is split at its commas; if there are at least two fields and every field,
    trimmed and in upper case, is one of the ten codes of the mock table, the
    answer is 200 with the mock source and the rates of the ordered pairs of
    different fields; otherwise it is 400 with the one message that does not
    tell the cause. *)
Theorem rates_endpoint_without_credential :
  forall (r : RatesRepositoryImpl) (now1 now2 now3 : Z) (http : HttpOutcome) (net : Network)
         (currenciesParam : string),
    OpenExchangeAPIKey (config r) = "" ->
    isASCII currenciesParam = true ->
    let reply := GetRates (server.ratesRepo r now1 now2 now3 http net) currenciesParam in
    let fields := map GetRatesQueryHandler.normalize (Split currenciesParam ",") in
    (currenciesParam = "" ->
     reply = JSON 400 (inl (mkRatesErrorResponse "currencies parameter is required"
                                                  "GET /rates?currencies=USD,EUR,GBP")))
    /\ (currenciesParam <> "" ->
        (2 <= length fields)%nat ->
        Forall (fun c => is_Some (mockRates !! c)) fields ->
        exists rates,
          reply = JSON 200 (inr (mkRatesResponse mockInfo rates))
          /\ map (fun x => (rate_From x, rate_To x)) rates = ordered_pairs fields)
    /\ (currenciesParam <> "" ->
        ~ ((2 <= length fields)%nat /\ Forall (fun c => is_Some (mockRates !! c)) fields) ->
        reply = JSON 400 (inl (mkRatesErrorResponse
                 "Failed to retrieve exchange rates. Ensure currency codes are valid." ""))).
Proof.
  intros r now1 now2 now3 http net p Hkey _. cbv zeta.
  assert (Hrepo : forall cs, server.ratesRepo r now1 now2 now3 http net cs
                             = Return (getMockRates cs, mockInfo)).
  { intros cs. unfold server.ratesRepo, repositories.GetRates. rewrite Hkey. reflexivity. }
  unfold GetRates. split; [| split].
  - intros ->. reflexivity.
  - intros Hne Hlen Hknown. apply String.eqb_neq in Hne. rewrite Hne.
    rewrite length_map in Hlen.
    destruct (Handle_succeeds (server.ratesRepo r now1 now2 now3 http net) (Split p ",")
                (getMockRates (map GetRatesQueryHandler.normalize (Split p ","))) mockInfo
                (Hrepo _) Hlen) as (res & HH & Hpairs).
    { intros c Hc. rewrite Forall_forall in Hknown. destruct (Hknown c Hc) as [rate Hrate].
      exists rate. rewrite getMockRates_lookup.
      destruct (decide (c ∈ map GetRatesQueryHandler.normalize (Split p ","))); [| contradiction].
      split; [exact Hrate | apply (mockRates_finite c); exact Hrate]. }
    rewrite HH. exists res. split; [reflexivity | exact Hpairs].
  - intros Hne Hnot. apply String.eqb_neq in Hne. rewrite Hne.
    rewrite length_map in Hnot.
    enough (exists e, GetRatesQueryHandler.Handle (server.ratesRepo r now1 now2 now3 http net)
                        (Split p ",") = Fail e) as [e ->] by reflexivity.
    unfold GetRatesQueryHandler.Handle.
    destruct (Nat.ltb_spec (length (Split p ",")) 2) as [Hlt | Hge]; [eauto |].
    rewrite Hrepo.
    pose proof (check_present_outcome (E := error)
                  (getMockRates (map GetRatesQueryHandler.normalize (Split p ",")))
                  (map GetRatesQueryHandler.normalize (Split p ","))) as Hcheck.
    destruct (GetRatesQueryHandler.check_present _ _) as [[] | e | msg];
      [| cbn [obind]; eauto | contradiction].
    exfalso. apply Hnot. split; [exact Hge |]. apply Forall_forall. intros c Hc.
    destruct (Hcheck c Hc) as [rate Hrate]. rewrite getMockRates_lookup in Hrate.
    destruct (decide (c ∈ map GetRatesQueryHandler.normalize (Split p ",")));
      [eauto | discriminate].
Qed.

Lemma rates_endpoint_without_credential_witness :
  let r := NewRatesRepositoryImpl (mkConfig "" "http://127.0.0.1") 0 in
  (exists rates,
     GetRates (server.ratesRepo r 1 2 3 RoundTripFailed []) "usd, eur"
     = JSON 200 (inr (mkRatesResponse mockInfo rates))
     /\ map (fun x => (rate_From x, rate_To x)) rates = ordered_pairs ["USD"; "EUR"])
  /\ GetRates (server.ratesRepo r 1 2 3 RoundTripFailed []) "USD,XXX"
     = JSON 400 (inl (mkRatesErrorResponse
          "Failed to retrieve exchange rates. Ensure currency codes are valid." "")).
Proof.
  cbv zeta. split.
  - refine (proj1 (proj2 (rates_endpoint_without_credential
                            (NewRatesRepositoryImpl (mkConfig "" "http://127.0.0.1") 0)
                            1 2 3 RoundTripFailed [] "usd, eur" eq_refl eq_refl)) _ _ _).
    + discriminate.
    + vm_compute. lia.
    + apply (bool_decide_unpack _). vm_compute. exact I.
  - refine (proj2 (proj2 (rates_endpoint_without_credential
                            (NewRatesRepositoryImpl (mkConfig "" "http://127.0.0.1") 0)
                            1 2 3 RoundTripFailed [] "USD,XXX" eq_refl eq_refl)) _ _).
    + discriminate.
    + intros [_ H]. revert H. apply (bool_decide_unpack _). vm_compute. exact I.
Defined.

Lemma NewFromString_no_panic (s msg : string) : NewFromString s <> Panic msg.
Proof.
  assert (Hm : forall t e, parse_mantissa t e <> Panic msg).
  { intros t e. unfold parse_mantissa.
    destruct (if (String.length t <=? 18)%nat then _ else _); [| discriminate].
    destruct (in_int32 e); discriminate. }
  unfold NewFromString. destruct (cut_exponent s) as [mant etxt].
  destruct etxt as [t |].
  - destruct (Strconv.ParseInt t 32) as [[] | expInt]; cbn [obind]; try discriminate.
    destruct (cut_point mant) as [ip [fp |]]; [| apply Hm].
    destruct (has_point fp); [discriminate | apply Hm].
  - cbn [obind]. destruct (cut_point mant) as [ip [fp |]]; [| apply Hm].
    destruct (has_point fp); [discriminate | apply Hm].
Qed.

(** An exchange query either reaches the arithmetic or fails. *)
Lemma Handle_fails_before_the_arithmetic (q : ExchangeQueryHandler.ExchangeQuery) :
  ~ (exists a fc tc,
       NewFromString (ExchangeQueryHandler.q_Amount q) = Return a /\ 0 < value a
       /\ CryptoCurrencies !! ExchangeQueryHandler.normalize (ExchangeQueryHandler.q_From q)
          = Some fc
       /\ CryptoCurrencies !! ExchangeQueryHandler.normalize (ExchangeQueryHandler.q_To q)
          = Some tc) ->
  exists e, ExchangeQueryHandler.Handle q = Fail e.
Proof.
  intros Hnot. unfold ExchangeQueryHandler.Handle. cbv zeta.
  destruct (_ || _ || _); [eauto |].
  pose proof (NewFromString_no_panic (ExchangeQueryHandler.q_Amount q)) as Hnp.
  destruct (NewFromString (ExchangeQueryHandler.q_Amount q)) as [a | e | msg] eqn:Hparse;
    [| eauto | exfalso; apply (Hnp msg); reflexivity].
  rewrite LessThanOrEqual_Zero.
  destruct (Z.leb_spec (value a) 0) as [Hle | Hpos]; [eauto |].
  unfold GetCurrency.
  destruct (CryptoCurrencies !! ExchangeQueryHandler.normalize (ExchangeQueryHandler.q_From q))
    as [fc |] eqn:Hf; [| eauto].
  destruct (CryptoCurrencies !! ExchangeQueryHandler.normalize (ExchangeQueryHandler.q_To q))
    as [tc |] eqn:Ht; [| eauto].
  exfalso. apply Hnot. exists a, fc, tc. repeat split; assumption.
Qed.

(** X19.  The exchange endpoint, for [from] and [to] without a byte above
    127.  When the amount reads as a positive decimal and both codes, trimmed
    and in upper case, are in the registry, the answer is 200 with the two
    codes in that form and the amount the converter computes (the quotient
    rounded at 16 places, then at the places of the target currency), unless
    an exponent of the computation leaves the range of [int32], in which case
    the handler panics.  In every other case the answer is 400 with an empty
    object: the client is not told what was wrong. *)
Theorem exchange_endpoint_replies :
  forall (from to amount : string),
    isASCII from = true ->
    isASCII to = true ->
    let reply := Exchange from to amount in
    (forall (a : Decimal) (fc tc : Currency),
        NewFromString amount = Return a ->
        0 < value a ->
        CryptoCurrencies !! ExchangeQueryHandler.normalize from = Some fc ->
        CryptoCurrencies !! ExchangeQueryHandler.normalize to = Some tc ->
        let e1 := exp a + exp (RateToUSD fc) in
        let e2 := e1 - exp (RateToUSD tc) + DivisionPrecision in
        (- 2 ^ 31 <= e1 /\ e2 <= 2 ^ 31 - 1 ->
         exists result,
           reply = JSON 200 (Result result)
           /\ From result = ExchangeQueryHandler.normalize from
           /\ To result = ExchangeQueryHandler.normalize to
           /\ (toQ (Amount result) ==
                 round_to
                   (round_to (toQ a * toQ (RateToUSD fc) / toQ (RateToUSD tc))
                             DivisionPrecision)
                   (DecimalPlaces tc))%Q)
        /\ (e1 < - 2 ^ 31 \/ 2 ^ 31 - 1 < e2 -> exists msg, reply = Panics msg))
    /\ (~ (exists a fc tc,
             NewFromString amount = Return a /\ 0 < value a
             /\ CryptoCurrencies !! ExchangeQueryHandler.normalize from = Some fc
             /\ CryptoCurrencies !! ExchangeQueryHandler.normalize to = Some tc) ->
        reply = JSON 400 EmptyObject).
Proof.
  intros from to amount _ _. cbv zeta. unfold Exchange. cbv zeta.
  set (q := ExchangeQueryHandler.mkExchangeQuery from to amount).
  split.
  - intros a fc tc Hparse Hpos Hf Ht.
    destruct (registry_facts _ _ Hf) as (_ & Hfv & Hfe & _).
    destruct (registry_facts _ _ Ht) as (_ & Htv & Hte & Hdp & _).
    pose proof (NewFromString_exp _ _ Hparse) as Hexp. apply in_int32_iff in Hexp.
    split.
    + intros [Hlo Hhi].
      destruct (Handle_converts_in_range q a fc tc Hparse Hpos Hf Ht Hlo Hhi)
        as (res & HH & _ & Hres).
      rewrite HH. eexists. split; [reflexivity |]. cbn [From To Amount].
      split; [reflexivity |]. split; [reflexivity |].
      rewrite Round_exact by lia. apply round_to_comp. exact Hres.
    + intros Hout. rewrite (Handle_arith q a fc tc) by assumption.
      unfold DivisionPrecision in Hout.
      destruct (Z.lt_ge_cases (exp a + exp (RateToUSD fc)) (- 2 ^ 31)) as [Hlo | Hlo].
      * unfold Mul.
        assert (Hno : in_int32 (exp a + exp (RateToUSD fc)) = false).
        { destruct (in_int32 _) eqn:H; [| reflexivity]. apply in_int32_iff in H. lia. }
        rewrite Hno. cbn [obind]. eauto.
      * destruct Hout as [? | Hhi]; [lia |].
        rewrite Mul_value by (apply in_int32_iff; lia). cbn [obind].
        unfold Div, DivRound, QuoRem, DivisionPrecision. cbn [value exp].
        destruct (Z.eqb_spec (value (RateToUSD tc)) 0) as [? | _]; [lia |].
        rewrite (wrap32_id (Z.opp 16)) by lia.
        assert (Hno : in_int32 (exp a + exp (RateToUSD fc) - exp (RateToUSD tc)
                                - Z.opp 16) = false).
        { destruct (in_int32 _) eqn:H; [| reflexivity]. apply in_int32_iff in H. lia. }
        rewrite Hno. cbn. eauto.
  - intros Hnot. destruct (Handle_fails_before_the_arithmetic q Hnot) as [e ->].
    reflexivity.
Qed.

Lemma exchange_endpoint_replies_witness :
  (exists result,
     Exchange " wbtc" "usdt " "1.0" = JSON 200 (Result result)
     /\ From result = "WBTC" /\ To result = "USDT"
     /\ (toQ (Amount result) ==
           round_to (round_to (toQ (mkDecimal 10 (-1)) * toQ (mkDecimal 5703722 (-2))
                               / toQ (mkDecimal 999 (-3))) 16) 6)%Q)
  /\ Exchange "WBTC" "EURO" "1.0" = JSON 400 EmptyObject.
Proof.
  split.
  - refine (proj1 (proj1 (exchange_endpoint_replies " wbtc" "usdt " "1.0" eq_refl eq_refl)
                     (mkDecimal 10 (-1))
                     (mkCurrency "WBTC" 8 (NewFromFloat (mkFloat 5703722 (-2))))
                     (mkCurrency "USDT" 6 (NewFromFloat (mkFloat 999 (-3))))
                     _ _ _ _) _).
    + vm_compute. reflexivity.
    + cbn. lia.
    + vm_compute. reflexivity.
    + vm_compute. reflexivity.
    + cbn. unfold DivisionPrecision. lia.
  - refine (proj2 (exchange_endpoint_replies "WBTC" "EURO" "1.0" eq_refl eq_refl) _).
    intros (a & fc & tc & _ & _ & _ & Ht). vm_compute in Ht. discriminate.
Defined.

(** X24.  A [currencies] parameter without a comma is never passed on to
    the provider: whatever repository the handler was built with, the answer
    is 400, with the example when the parameter is empty and with the general
    message when it holds one field. *)
Theorem rates_endpoint_needs_a_comma :
  forall (E : Type) (ratesRepo : GetRatesQueryHandler.RatesRepository E)
         (currenciesParam : string),
    Count currenciesParam "," = 0%nat ->
    GetRates ratesRepo currenciesParam
    = JSON 400
        (inl (if String.eqb currenciesParam ""
              then mkRatesErrorResponse "currencies parameter is required"
                                        "GET /rates?currencies=USD,EUR,GBP"
              else mkRatesErrorResponse
                     "Failed to retrieve exchange rates. Ensure currency codes are valid."
                     "")).
Proof.
  intros E ratesRepo p Hcount. unfold GetRates.
  destruct (String.eqb p ""); [reflexivity |].
  unfold GetRatesQueryHandler.Handle.
  destruct (Split_Join p ",") as (_ & Hlen & _). rewrite Hlen, Hcount. reflexivity.
Qed.

Lemma rates_endpoint_needs_a_comma_witness :
  GetRates (server.ratesRepo (NewRatesRepositoryImpl test_config 0) 1 2 3 server_eur []) "EUR"
  = JSON 400
      (inl (mkRatesErrorResponse
              "Failed to retrieve exchange rates. Ensure currency codes are valid." "")).
Proof.
  exact (rates_endpoint_needs_a_comma _
           (server.ratesRepo (NewRatesRepositoryImpl test_config 0) 1 2 3 server_eur [])
           "EUR" eq_refl).
Defined.

End Handlers.

(** ** Codes in any case and with blanks around *)

Section Normalization.
Import Strings entities GetRatesQueryHandler.
Context {E : Type}.

Lemma upper_lower_byte (c : ascii) : upper_byte (lower_byte c) = upper_byte c.
Proof. destruct c as [[] [] [] [] [] [] [] []]; reflexivity. Qed.

Lemma asciiSpace_lower (c : ascii) : asciiSpace (lower_byte c) = asciiSpace c.
Proof. destruct c as [[] [] [] [] [] [] [] []]; reflexivity. Qed.

Lemma ToUpper_ToLower (s : string) : ToUpper (ToLower s) = ToUpper s.
Proof.
  induction s as [| c s IH]; cbn; [reflexivity |].
  rewrite upper_lower_byte, IH. reflexivity.
Qed.

Lemma trim_start_ToLower (s : string) : trim_start (ToLower s) = ToLower (trim_start s).
Proof.
  induction s as [| c s IH]; cbn; [reflexivity |].
  rewrite asciiSpace_lower. destruct (asciiSpace c); [exact IH | reflexivity].
Qed.

Lemma trim_stop_ToLower (s : string) : trim_stop (ToLower s) = ToLower (trim_stop s).
Proof.
  induction s as [| c s IH]; cbn; [reflexivity |].
  rewrite IH, asciiSpace_lower.
  destruct (trim_stop s) as [| c' r]; cbn.
  - destruct (asciiSpace c); reflexivity.
  - reflexivity.
Qed.

Lemma normalize_ToLower (s : string) : normalize (ToLower s) = normalize s.
Proof.
  unfold normalize, TrimSpace.
  rewrite trim_start_ToLower, trim_stop_ToLower. apply ToUpper_ToLower.
Qed.

Lemma trim_stop_blank (s : string) : trim_stop (s ++ " ") = trim_stop s.
Proof.
  induction s as [| c s IH]; [reflexivity |].
  change (String c s ++ " ") with (String c (s ++ " ")). cbn [trim_stop]. rewrite IH.
  reflexivity.
Qed.

Lemma trim_start_blank (s : string) :
  trim_start (s ++ " ") = match trim_start s with
                          | EmptyString => EmptyString
                          | t => t ++ " "
                          end.
Proof.
  induction s as [| c s IH]; [reflexivity |].
  change (String c s ++ " ") with (String c (s ++ " ")). cbn [trim_start].
  destruct (asciiSpace c); [exact IH | reflexivity].
Qed.

Lemma normalize_blanks (s : string) : normalize (" " ++ s ++ " ") = normalize s.
Proof.
  unfold normalize, TrimSpace. f_equal.
  change (" " ++ s ++ " ") with (String " " (s ++ " ")). cbn [trim_start asciiSpace].
  change (asciiSpace " ") with true. cbv iota.
  rewrite trim_start_blank. destruct (trim_start s) as [| c t]; [reflexivity |].
  apply trim_stop_blank.
Qed.

(** X20.  The calculator reads codes without regard to case and to blanks
    around them: for ASCII codes it returns the same for the codes in lower
    case, and for codes with a blank before and after, as for the codes
    themselves. *)
Theorem rates_codes_in_any_case_and_with_blanks :
  forall (ratesRepo : RatesRepository E) (query : list string),
    Forall (fun s => isASCII s = true) query ->
    Handle ratesRepo (map ToLower query) = Handle ratesRepo query
    /\ Handle ratesRepo (map (fun s => " " ++ s ++ " ") query) = Handle ratesRepo query.
Proof.
  intros ratesRepo query _. unfold Handle. rewrite !length_map, !map_map.
  rewrite (map_ext (fun s => normalize (ToLower s)) normalize normalize_ToLower).
  rewrite (map_ext (fun s => normalize (" " ++ s ++ " ")) normalize normalize_blanks).
  split; reflexivity.
Qed.

End Normalization.

Section NormalizationWitness.
Import Strings entities GetRatesQueryHandler TestRatesRepository.

Lemma rates_codes_in_any_case_and_with_blanks_witness :
  Handle (GetRates usd_eur_gbp) ["usd"; "eur"] = Handle (GetRates usd_eur_gbp) ["USD"; "EUR"]
  /\ Handle (GetRates usd_eur_gbp) [" USD "; " EUR "]
     = Handle (GetRates usd_eur_gbp) ["USD"; "EUR"].
Proof.
  exact (rates_codes_in_any_case_and_with_blanks (GetRates usd_eur_gbp) ["USD"; "EUR"]
           ltac:(repeat constructor)).
Defined.

End NormalizationWitness.

(** ** Valid currencies *)

Section Validity.
Import entities.

Lemma GreaterThan_Zero (d : Decimal) : GreaterThan d Zero = (0 <? value d).
Proof.
  unfold GreaterThan. rewrite Cmp_spec. cbn [value exp Zero New].
  rewrite Z.mul_0_l.
  pose proof (pow10_max_pos (exp d - 1)) as Hpos.
  destruct (Z.compare_spec (value d * 10 ^ Z.max 0 (exp d - 1)) 0) as [H | H | H];
    destruct (Z.ltb_spec 0 (value d)); try reflexivity; exfalso; nia.
Qed.

(** X21.  A currency is valid exactly when its code is not empty and its
    rate is a positive number, whatever the exponent the rate is written
    with; and every currency the registry returns is valid and is stored
    under its own code. *)
Theorem a_valid_currency_has_a_code_and_a_positive_rate :
  (forall c : Currency,
      IsValid c = true <-> Code c <> "" /\ (0 < toQ (RateToUSD c))%Q)
  /\ (forall (code : string) (c : Currency),
        GetCurrency code = Return c -> IsValid c = true /\ Code c = code).
Proof.
  assert (H : forall c : Currency,
            IsValid c = true <-> Code c <> "" /\ (0 < toQ (RateToUSD c))%Q).
  { intros c. unfold IsValid. rewrite GreaterThan_Zero, andb_true_iff, negb_true_iff.
    rewrite <- toQ_pos, Z.ltb_lt. split; intros [H1 H2]; split; try assumption.
    - apply String.eqb_neq. exact H1.
    - apply String.eqb_neq. exact H1. }
  split; [exact H |].
  intros code c Hc. apply GetCurrency_Return in Hc.
  destruct (registry_facts _ _ Hc) as (Hcode & Hv & _ & _ & _ & Hne).
  split; [| exact Hcode]. apply H. split; [congruence |]. apply toQ_pos. exact Hv.
Qed.

Lemma a_valid_currency_has_a_code_and_a_positive_rate_witness :
  IsValid (mkCurrency "GATE" 18 (NewFromFloat (mkFloat 687 (-2)))) = true
  /\ Code (mkCurrency "GATE" 18 (NewFromFloat (mkFloat 687 (-2)))) = "GATE".
Proof.
  exact (proj2 a_valid_currency_has_a_code_and_a_positive_rate "GATE"
           (mkCurrency "GATE" 18 (NewFromFloat (mkFloat 687 (-2))))
           ltac:(vm_compute; reflexivity)).
Defined.

End Validity.

(** ** The text of an amount *)


Section AmountText.
Import Strings Strconv entities ExchangeQueryHandler.

Lemma numeral_text_app (a b : string) :
  numeral_text (a ++ b) <-> numeral_text a /\ numeral_text b.
Proof.
  unfold numeral_text. induction a as [| c a IH].
  - split; [intros H; split; [constructor | exact H] | intros [_ H]; exact H].
  - change (String c a ++ b) with (String c (a ++ b)). cbn [list_ascii_of_string]. split.
    + intros H. inversion H; subst. apply IH in H3 as [Ha Hb].
      split; [constructor |]; assumption.
    + intros [Ha Hb]. inversion Ha; subst. constructor; [assumption |].
      apply IH. split; assumption.
Qed.

Lemma numeral_text_cons (c : ascii) (s : string) :
  numeral_text (String c s) <-> numeral_byte c = true /\ numeral_text s.
Proof.
  unfold numeral_text. cbn [list_ascii_of_string]. split.
  - intros H. inversion H; subst. split; assumption.
  - intros [H1 H2]. constructor; assumption.
Qed.

Lemma digit_numeral_byte (c : ascii) : is_digit c = true -> numeral_byte c = true.
Proof. intros H. unfold numeral_byte. rewrite H. reflexivity. Qed.

Lemma sign_numeral_byte (c : ascii) :
  byte_of c = 43 \/ byte_of c = 45 -> numeral_byte c = true.
Proof.
  intros [H | H].
  - assert (c = "+"%char) as -> by (apply byte_of_inj; exact H). reflexivity.
  - assert (c = "-"%char) as -> by (apply byte_of_inj; exact H). reflexivity.
Qed.

Lemma parse_digits_text (s : string) (n v : Z) :
  parse_digits n s = Some v -> numeral_text s.
Proof.
  revert n. induction s as [| c s IH]; intros n; cbn [parse_digits].
  - intros _. constructor.
  - destruct (is_digit c) eqn:Hd; [| discriminate]. intros H.
    apply numeral_text_cons. split; [apply digit_numeral_byte; exact Hd | eapply IH; exact H].
Qed.

Lemma parse_uint_loop_text (maxVal : Z) (s : string) (n v : Z) :
  parse_uint_loop maxVal n s = inr v -> numeral_text s.
Proof.
  revert n. induction s as [| c s IH]; intros n; cbn [parse_uint_loop].
  - intros _. constructor.
  - destruct (is_digit c) eqn:Hd; [| discriminate]. cbv zeta.
    destruct (_ <=? n); [discriminate |].
    destruct (_ || _); [discriminate |]. intros H.
    apply numeral_text_cons. split; [apply digit_numeral_byte; exact Hd | eapply IH; exact H].
Qed.

Lemma ParseUint_text (s : string) (bitSize v : Z) :
  ParseUint s bitSize = inr v -> numeral_text s.
Proof.
  unfold ParseUint. destruct s; [discriminate |]. apply parse_uint_loop_text.
Qed.

Lemma ParseInt_text (s : string) (bitSize v : Z) :
  ParseInt s bitSize = inr v -> numeral_text s.
Proof.
  unfold ParseInt. destruct s as [| c s]; [discriminate |].
  destruct (Z.eqb_spec (byte_of c) 43) as [H43 | H43];
    [| destruct (Z.eqb_spec (byte_of c) 45) as [H45 | H45]].
  - destruct (ParseUint s bitSize) as [e | un] eqn:HP; [discriminate |]. intros _.
    apply numeral_text_cons. split; [apply sign_numeral_byte; auto |].
    eapply ParseUint_text. exact HP.
  - destruct (ParseUint s bitSize) as [e | un] eqn:HP; [discriminate |]. intros _.
    apply numeral_text_cons. split; [apply sign_numeral_byte; auto |].
    eapply ParseUint_text. exact HP.
  - destruct (ParseUint (String c s) bitSize) as [e | un] eqn:HP; [discriminate |]. intros _.
    eapply ParseUint_text. exact HP.
Qed.

Lemma SetString_text (s : string) (v : Z) : SetString s = Some v -> numeral_text s.
Proof.
  unfold SetString. destruct s as [| c s]; [discriminate |].
  destruct (Z.eqb_spec (byte_of c) 43) as [H43 | H43];
    [| destruct (Z.eqb_spec (byte_of c) 45) as [H45 | H45]].
  - destruct s as [| c' s']; [discriminate |].
    destruct (parse_digits 0 (String c' s')) as [w |] eqn:Hd; [| discriminate]. intros _.
    apply numeral_text_cons. split; [apply sign_numeral_byte; auto |].
    eapply parse_digits_text. exact Hd.
  - destruct s as [| c' s']; [discriminate |].
    destruct (parse_digits 0 (String c' s')) as [w |] eqn:Hd; [| discriminate]. intros _.
    apply numeral_text_cons. split; [apply sign_numeral_byte; auto |].
    eapply parse_digits_text. exact Hd.
  - destruct (parse_digits 0 (String c s)) as [w |] eqn:Hd; [| discriminate]. intros _.
    eapply parse_digits_text. exact Hd.
Qed.

Lemma parse_mantissa_text (t : string) (e : Z) (a : Decimal) :
  parse_mantissa t e = Return a -> numeral_text t.
Proof.
  unfold parse_mantissa.
  destruct (String.length t <=? 18)%nat.
  - destruct (ParseInt t 64) as [err | v] eqn:HP; [discriminate |]. intros _.
    eapply ParseInt_text. exact HP.
  - destruct (SetString t) as [v |] eqn:HS; [| discriminate]. intros _.
    eapply SetString_text. exact HS.
Qed.

Lemma cut_exponent_text (s : string) :
  match cut_exponent s with
  | (m, None) => s = m
  | (m, Some t) => exists c, numeral_byte c = true /\ s = m ++ String c t
  end.
Proof.
  induction s as [| c s IH]; cbn [cut_exponent]; [reflexivity |].
  destruct (Z.eqb_spec (byte_of c) 69) as [H | H]; cbn [orb].
  - exists c. assert (c = "E"%char) as -> by (apply byte_of_inj; exact H).
    split; reflexivity.
  - destruct (Z.eqb_spec (byte_of c) 101) as [H' | H'].
    + exists c. assert (c = "e"%char) as -> by (apply byte_of_inj; exact H').
      split; reflexivity.
    + destruct (cut_exponent s) as [m [t |]].
      * destruct IH as (c' & Hc' & ->). exists c'. split; [exact Hc' | reflexivity].
      * subst s. reflexivity.
Qed.

Lemma cut_point_text (s : string) :
  match cut_point s with
  | (m, None) => s = m
  | (m, Some t) => s = m ++ String "." t
  end.
Proof.
  induction s as [| c s IH]; cbn [cut_point]; [reflexivity |].
  destruct (Z.eqb_spec (byte_of c) 46) as [H | H].
  - assert (c = "."%char) as -> by (apply byte_of_inj; exact H). reflexivity.
  - destruct (cut_point s) as [m [t |]]; subst s; reflexivity.
Qed.

(** A text that [NewFromString] accepts is written with digits, signs,
    points and exponent marks only. *)
Lemma NewFromString_text (s : string) (a : Decimal) :
  NewFromString s = Return a -> numeral_text s.
Proof.
  unfold NewFromString.
  pose proof (cut_exponent_text s) as Hce.
  destruct (cut_exponent s) as [mant etxt].
  assert (Hmant : forall e0, match cut_point mant with
                             | (_, None) => parse_mantissa mant e0
                             | (ip, Some fp) =>
                                 if has_point fp then Fail ErrTooManyDots
                                 else parse_mantissa (ip ++ fp)
                                        (e0 - Z.of_nat (String.length fp))
                             end = Return a -> numeral_text mant).
  { intros e0. pose proof (cut_point_text mant) as Hcp.
    destruct (cut_point mant) as [ip [fp |]].
    - destruct (has_point fp); [discriminate |]. intros H.
      apply parse_mantissa_text in H. apply numeral_text_app in H as [H1 H2].
      subst mant. apply numeral_text_app. split; [exact H1 |].
      apply numeral_text_cons. split; [reflexivity | exact H2].
    - apply parse_mantissa_text. }
  destruct etxt as [t |].
  - destruct (ParseInt t 32) as [[] | expInt] eqn:HP; cbn [obind]; try discriminate.
    intros H. apply Hmant in H. destruct Hce as (c & Hc & ->).
    apply numeral_text_app. split; [exact H |].
    apply numeral_text_cons. split; [exact Hc |]. eapply ParseInt_text. exact HP.
  - cbn [obind]. intros H. apply Hmant in H. subst s. exact H.
Qed.

(** X22.  The converter accepts an amount only if its text is written with
    digits, signs, the point and the exponent marks e and E: a blank, a
    comma, an underscore or a letter of another kind anywhere in the amount
    makes the call fail.  The amount is not trimmed as the codes are. *)
Theorem an_amount_is_a_plain_numeral :
  forall (q : ExchangeQuery) (result : ExchangeResult),
    Handle q = Return result ->
    Forall (fun c => numeral_byte c = true) (list_ascii_of_string (q_Amount q)).
Proof.
  intros q result H. unfold Handle in H. cbv zeta in H.
  destruct (_ || _ || _); [discriminate |].
  destruct (NewFromString (q_Amount q)) as [a | e | msg] eqn:Hparse; try discriminate.
  eapply NewFromString_text. exact Hparse.
Qed.

(** The statement above at an amount in scientific notation. *)
Lemma an_amount_is_a_plain_numeral_witness :
  Forall (fun c => numeral_byte c = true) (list_ascii_of_string "+1.5e-2").
Proof.
  exact (an_amount_is_a_plain_numeral (mkExchangeQuery "WBTC" "USDT" "+1.5e-2")
           (mkExchangeResult "WBTC" "USDT" (mkDecimal 856414715 (-6)))
           ltac:(vm_compute; reflexivity)).
Defined.

End AmountText.

(** ** Calls that are far apart *)


Section FarApart.
Import gobreaker repositories Invariants.

Lemma wrapu64_succ_neq (g : Z) : (wrapu64 (g + 1) =? g) = false.
Proof.
  apply Z.eqb_neq. unfold wrapu64. intros H.
  pose proof (Z.mod_pos_bound (g + 1) (2 ^ 64) ltac:(lia)) as Hb.
  destruct (Z.eq_dec g (2 ^ 64 - 1)) as [-> | Hne].
  - vm_compute in H. discriminate.
  - rewrite Z.mod_small in H by lia. lia.
Qed.

(** The timed transition of a closed breaker: nothing before the interval
    has elapsed, a new interval with cleared counts after. *)
Lemma currentState_closed_with (cb : CircuitBreaker) (E n now : Z) :
  closed_with cb E n ->
  (now <= E -> currentState cb now = cb)
  /\ (E < now ->
      closed_with (currentState cb now) (now + 60 * second) 0
      /\ generation (currentState cb now) = wrapu64 (generation cb + 1)).
Proof.
  intros ((Hmr & Hiv & Hto & Hrt) & Hst & Hexp & Hcf). split.
  - intros Hnow. apply (currentState_closed cb E); assumption.
  - intros Hnow. unfold currentState. rewrite Hst, Hexp.
    cbn [expiry_is_zero negb andb expiry_before].
    rewrite (proj2 (Z.ltb_lt E now)) by assumption.
    unfold toNewGeneration. rewrite Hst, Hiv.
    change (60 * second =? 0) with false. cbv iota.
    split; [| reflexivity].
    unfold closed_with, configured. cbn. repeat split; assumption.
Qed.

Lemma onRequest_closed_with (cb : CircuitBreaker) (E n : Z) :
  closed_with cb E n ->
  closed_with (with_counts cb (counts_onRequest (counts cb))) E n.
Proof. intros H. exact H. Qed.

Lemma onSuccess_closed_with (cb : CircuitBreaker) (E n now : Z) :
  closed_with cb E n -> closed_with (onSuccess cb now) E 0.
Proof.
  intros (Hcfg & Hst & Hexp & Hcf). unfold onSuccess. rewrite Hst.
  split; [exact Hcfg |]. split; [exact Hst |]. split; [exact Hexp | reflexivity].
Qed.

Lemma onFailure_closed_with (cb : CircuitBreaker) (E n now : Z) :
  closed_with cb E n -> 0 <= n <= 1 -> closed_with (onFailure cb now) E (n + 1).
Proof.
  intros (Hcfg & Hst & Hexp & Hcf) Hn. unfold onFailure. rewrite Hst. cbv zeta.
  destruct Hcfg as (Hmr & Hiv & Hto & Hrt).
  cbn [with_counts readyToTrip counts]. rewrite Hrt.
  cbn [counts_onFailure ConsecutiveFailures]. rewrite Hcf.
  rewrite (wrapu32_small (n + 1)) by lia.
  destruct (Z.leb_spec 3 (n + 1)) as [? | _]; [lia |].
  split; [repeat split; assumption |]. split; [exact Hst |]. split; [exact Hexp |].
  cbn [with_counts counts counts_onFailure ConsecutiveFailures]. rewrite Hcf.
  apply wrapu32_small. lia.
Qed.

(** The outcome of an admitted request, counted on a closed breaker. *)
Lemma afterRequest_closed_with (cb : CircuitBreaker) (E n t2 : Z) (ok : bool) :
  closed_with cb E n -> 0 <= n <= 1 ->
  exists E' n',
    closed_with
      (afterRequest (with_counts cb (counts_onRequest (counts cb))) (generation cb) ok t2)
      E' n'
    /\ ((n' = 0 /\ (E' = E \/ E' = t2 + 60 * second))
        \/ (n' = n + 1 /\ E' = E)).
Proof.
  intros Hcb Hn. apply onRequest_closed_with in Hcb.
  set (cb2 := with_counts cb (counts_onRequest (counts cb))) in *.
  assert (Hgen : generation cb2 = generation cb) by reflexivity. clearbody cb2.
  unfold afterRequest. cbv zeta.
  destruct (currentState_closed_with cb2 E n t2 Hcb) as [Hsame Hnew].
  destruct (Z.lt_ge_cases E t2) as [Hlt | Hge].
  - destruct (Hnew Hlt) as [Hcb3 Hg3]. rewrite Hg3, Hgen, wrapu64_succ_neq. cbn [negb].
    exists (t2 + 60 * second), 0. split; [exact Hcb3 |]. left. split; [reflexivity | right; reflexivity].
  - rewrite (Hsame ltac:(lia)), Hgen, Z.eqb_refl. cbn [negb]. destruct ok.
    + exists E, 0. split; [eapply onSuccess_closed_with; exact Hcb |].
      left. split; [reflexivity | left; reflexivity].
    + exists E, (n + 1). split; [apply onFailure_closed_with; assumption |].
      right. split; reflexivity.
Qed.

Lemma fetchRatesFromAPI_no_panic (cfg : Config) (http : HttpOutcome)
    (currencies : list string) (net : Network) (msg : string) :
  fst (fetchRatesFromAPI cfg http currencies net) <> Panic msg.
Proof.
  unfold fetchRatesFromAPI. destruct http as [| | status body]; cbn [fst]; try discriminate.
  destruct (negb (status =? StatusOK)); [discriminate |].
  destruct body as [upstream |]; [| discriminate]. cbn [fst].
  pose proof (rates_loop_outcome upstream currencies (base_loop currencies ∅)) as Hloop.
  destruct (rates_loop upstream currencies (base_loop currencies ∅)) as [res | e | m];
    [discriminate | discriminate | contradiction].
Qed.

(** One call on a closed breaker that has counted sparsely. *)
Lemma GetRates_counted_sparsely (r : RatesRepositoryImpl) (earliest : Z) (c : Call)
    (net : Network) :
  counted_sparsely (circuitBreaker r) earliest ->
  earliest <= call_now1 c -> call_now1 c <= call_now2 c -> call_now2 c <= call_now3 c ->
  let '(o, r', _) := GetRates r (call_now1 c) (call_now2 c) (call_now3 c) (call_http c)
                       (call_currencies c) net in
  counted_sparsely (circuitBreaker r')
    (Z.max (call_now3 c) (call_now1 c + 30 * second + 1))
  /\ o <> Fail ErrUnavailable /\ o <> Fail ErrRateLimited.
Proof.
  destruct c as [t1 t2 t3 http currencies].
  cbn [call_now1 call_now2 call_now3 call_http call_currencies].
  intros (E & n & Hcb & Hcount) H1 H2 H3.
  unfold GetRates.
  destruct (String.eqb (OpenExchangeAPIKey (config r)) "").
  { split; [| split; discriminate]. exists E, n. split; [exact Hcb |].
    unfold second in *. lia. }
  (* before the request *)
  unfold Execute, beforeRequest. cbv zeta.
  assert (Hb : exists E1 n1,
             closed_with (currentState (circuitBreaker r) t1) E1 n1
             /\ ((n1 = 0 /\ E1 <= t1 + 60 * second) \/ (n1 = 1 /\ E1 < t1 + 30 * second))).
  { destruct (currentState_closed_with _ E n t1 Hcb) as [Hsame Hnew].
    destruct (Z.lt_ge_cases E t1) as [Hlt | Hge].
    - destruct (Hnew Hlt) as [Hcb1 _]. exists (t1 + 60 * second), 0.
      split; [exact Hcb1 |]. left. split; [reflexivity | lia].
    - rewrite (Hsame ltac:(lia)). exists E, n. split; [exact Hcb |].
      unfold second in *. lia. }
  destruct Hb as (E1 & n1 & Hcb1 & Hc1).
  set (cb1 := currentState (circuitBreaker r) t1) in *. clearbody cb1.
  assert (Hst1 : state cb1 = StateClosed) by apply Hcb1. rewrite Hst1.
  (* after the request *)
  assert (Hafter : forall ok, exists E5 n5,
             closed_with
               (currentState
                  (afterRequest (with_counts cb1 (counts_onRequest (counts cb1)))
                     (generation cb1) ok t2) t3) E5 n5
             /\ ((n5 = 0 /\ E5 <= t3 + 60 * second)
                 \/ (n5 = 1 /\ E5 <= t1 + 60 * second)
                 \/ (n5 = 2 /\ E5 < t1 + 30 * second))).
  { intros ok.
    destruct (afterRequest_closed_with cb1 E1 n1 t2 ok Hcb1 ltac:(lia))
      as (E4 & n4 & Hcb4 & Hc4).
    set (cb4 := afterRequest _ _ _ _) in *. clearbody cb4.
    destruct (currentState_closed_with cb4 E4 n4 t3 Hcb4) as [Hsame Hnew].
    destruct (Z.lt_ge_cases E4 t3) as [Hlt | Hge].
    - destruct (Hnew Hlt) as [Hcb5 _]. exists (t3 + 60 * second), 0.
      split; [exact Hcb5 |]. left. split; [reflexivity | lia].
    - rewrite (Hsame ltac:(lia)). exists E4, n4. split; [exact Hcb4 |].
      unfold second in *. lia. }
  assert (Hfinal : forall cb5,
            (exists E5 n5, closed_with cb5 E5 n5
               /\ ((n5 = 0 /\ E5 <= t3 + 60 * second)
                   \/ (n5 = 1 /\ E5 <= t1 + 60 * second)
                   \/ (n5 = 2 /\ E5 < t1 + 30 * second))) ->
            counted_sparsely cb5 (Z.max t3 (t1 + 30 * second + 1))).
  { intros cb5 (E5 & n5 & Hcb5 & Hc5). exists E5, n5. split; [exact Hcb5 |].
    unfold second in *. lia. }
  pose proof (fetchRatesFromAPI_no_panic (config r) http currencies net) as Hnp.
  destruct (fetchRatesFromAPI (config r) http currencies net) as [[rates | e | msg] net'];
    unfold CircuitBreaker_State; cbn [circuitBreaker fst] in *.
  - split; [| split; discriminate]. apply Hfinal, Hafter.
  - split; [| split; discriminate]. apply Hfinal, Hafter.
  - exfalso. apply (Hnp msg). reflexivity.
Qed.

(** X23.  The breaker counts the failures of one 60-second interval only,
    so calls that are far apart never open it: when each call starts after
    the one before has returned and more than 30 seconds after the one before
    has started, every call is admitted and the breaker stays closed,
    whatever the upstream answers. *)
Theorem calls_far_apart_never_open_the_breaker :
  forall (cfg : Config) (now : Z) (net : Network) (calls : list Call),
    spaced now calls ->
    let '(os, r, _) := GetRates_seq (NewRatesRepositoryImpl cfg now) net calls in
    state (circuitBreaker r) = StateClosed
    /\ Forall (fun o => o <> Fail ErrUnavailable /\ o <> Fail ErrRateLimited) os.
Proof.
  intros cfg now net calls Hsp.
  assert (H : forall calls r earliest net,
            counted_sparsely (circuitBreaker r) earliest ->
            spaced earliest calls ->
            let '(os, r', _) := GetRates_seq r net calls in
            state (circuitBreaker r') = StateClosed
            /\ Forall (fun o => o <> Fail ErrUnavailable /\ o <> Fail ErrRateLimited) os).
  { clear. induction calls as [| c calls IH]; intros r earliest net Hinv Hsp;
      cbn [GetRates_seq].
    - split; [| constructor]. destruct Hinv as (E & n & Hcb & _). apply Hcb.
    - destruct Hsp as (H1 & H2 & H3 & Hrest).
      pose proof (GetRates_counted_sparsely r earliest c net Hinv H1 H2 H3) as Hstep.
      destruct (GetRates r (call_now1 c) (call_now2 c) (call_now3 c) (call_http c)
                  (call_currencies c) net) as [[o r1] net1].
      destruct Hstep as (Hinv1 & Ho1 & Ho2).
      specialize (IH r1 _ net1 Hinv1 Hrest).
      destruct (GetRates_seq r1 net1 calls) as [[os r2] net2].
      destruct IH as [Hst Hos]. split; [exact Hst |].
      constructor; [split; assumption | exact Hos]. }
  apply (H calls _ now); [| exact Hsp].
  exists (now + 60 * second), 0. split.
  - unfold closed_with, configured. cbn. repeat split.
  - left. split; [reflexivity | lia].
Qed.

(** The statement above at a server that answers 500 to a call every 31
    seconds. *)
Lemma calls_far_apart_never_open_the_breaker_witness :
  let calls :=
    map (fun i => mkCall (i * 31 * second) (i * 31 * second) (i * 31 * second)
                         server_error ["USD"; "EUR"])
        [1; 2; 3; 4; 5; 6] in
  let '(os, r, _) := GetRates_seq (NewRatesRepositoryImpl test_config 0) [] calls in
  state (circuitBreaker r) = StateClosed
  /\ Forall (fun o => o <> Fail ErrUnavailable /\ o <> Fail ErrRateLimited) os.
Proof.
  cbv zeta.
  refine (calls_far_apart_never_open_the_breaker test_config 0 []
            (map (fun i => mkCall (i * 31 * second) (i * 31 * second) (i * 31 * second)
                                  server_error ["USD"; "EUR"])
                 [1; 2; 3; 4; 5; 6]) _).
  cbn [map spaced call_now1 call_now2 call_now3]. unfold second. repeat split; lia.
Defined.

End FarApart.

(** ** Amounts too small for the scale *)

Section Dust.
Import Strings entities ExchangeQueryHandler.

Lemma round_half_away_small (q : Q) : (0 <= q < 1 # 2)%Q -> round_half_away q = 0.
Proof.
  intros [H0 H1].
  destruct (round_half_away_cases q) as [[Hq ->] | [[Hq ->] | [Hq _]]];
    [| reflexivity | lra].
  destruct (Qfloor_bounds (q + (1 # 2))) as [Hlo Hhi].
  assert (Hz : (inject_Z (Qfloor (q + (1 # 2))) < inject_Z 1)%Q)
    by (change (inject_Z 1) with 1%Q; lra).
  assert (Hz' : (inject_Z (- 1) < inject_Z (Qfloor (q + (1 # 2))))%Q)
    by (change (inject_Z (- 1)) with (- (1))%Q; lra).
  rewrite <- Zlt_Qlt in Hz, Hz'. lia.
Qed.

Lemma round_to_small (q : Q) (places : Z) :
  (0 <= q < (1 # 2) / ten ^ places)%Q -> (round_to q places == 0)%Q.
Proof.
  intros [H0 H1]. unfold round_to. pose proof (ten_pow_pos places) as Hpos.
  rewrite round_half_away_small.
  - unfold Qdiv. change (inject_Z 0) with 0%Q. ring.
  - split.
    + apply Qmult_le_0_compat; lra.
    + assert (He : (q * ten ^ places == q / / ten ^ places)%Q)
        by (field; lra).
      rewrite He.
      apply Qlt_shift_div_r; [apply Qinv_lt_0_compat; exact Hpos |].
      exact H1.
Qed.

(** X25.  The converter refuses an amount that is not positive, but it can
    return zero for one that is: when the exact quotient
    [amount * rateToUSD[from] / rateToUSD[to]] is below half a unit of the
    16th decimal place, the amount returned is zero. *)
Theorem a_small_amount_converts_to_zero :
  forall (q : ExchangeQuery) (amount : Decimal) (fc tc : Currency),
    NewFromString (q_Amount q) = Return amount ->
    0 < value amount ->
    - 2 ^ 31 + 8 <= exp amount <= 2 ^ 31 - 23 ->
    CryptoCurrencies !! normalize (q_From q) = Some fc ->
    CryptoCurrencies !! normalize (q_To q) = Some tc ->
    (toQ amount * toQ (RateToUSD fc) / toQ (RateToUSD tc)
     < (1 # 2) / ten ^ DivisionPrecision)%Q ->
    exists r, Handle q = Return r /\ value (Amount r) = 0.
Proof.
  intros q amount fc tc Hparse Hpos Hexp Hf Ht Hsmall.
  destruct (registry_facts _ _ Hf) as (_ & Hfv & _).
  destruct (registry_facts _ _ Ht) as (_ & Htv & _ & Hdp & _).
  assert (Hdp' : Z.abs (DecimalPlaces tc) < 2 ^ 31) by lia.
  destruct (Handle_converts q amount fc tc Hparse Hpos Hexp Hf Ht) as (res & HH & _ & Hres).
  eexists. split; [exact HH |]. cbn [Amount].
  assert (Hx : (0 <= toQ amount * toQ (RateToUSD fc) / toQ (RateToUSD tc))%Q).
  { apply toQ_pos in Hpos, Hfv, Htv. unfold Qdiv.
    apply Qmult_le_0_compat; [apply Qmult_le_0_compat; lra |].
    apply Qlt_le_weak, Qinv_lt_0_compat. assumption. }
  rewrite round_to_small in Hres by (split; assumption).
  rewrite Round_value_Q by assumption. cbn [value].
  rewrite (round_half_away_comp _ 0); [reflexivity |]. rewrite Hres. ring.
Qed.

(** The statement above at a ten-millionth of a BEER in WBTC. *)
Lemma a_small_amount_converts_to_zero_witness :
  exists r, Handle (mkExchangeQuery "BEER" "WBTC" "0.0000001") = Return r
            /\ value (Amount r) = 0.
Proof.
  refine (a_small_amount_converts_to_zero
            (mkExchangeQuery "BEER" "WBTC" "0.0000001") (mkDecimal 1 (-7))
            (mkCurrency "BEER" 18 (NewFromFloat (mkFloat 2461 (-8))))
            (mkCurrency "WBTC" 8 (NewFromFloat (mkFloat 5703722 (-2))))
            _ _ _ _ _ _).
  - vm_compute. reflexivity.
  - cbn. lia.
  - cbn. lia.
  - vm_compute. reflexivity.
  - vm_compute. reflexivity.
  - vm_compute. reflexivity.
Defined.

End Dust.
